(** * Soccer betting dashboard: bet bookkeeping, metrics and bankroll

    A shallow embedding of the bookkeeping core of [soccer_betting.py]:
    settlement, input validation, parlay odds, the metrics over a ledger
    snapshot, and the operations on the SQLite store ([init_db], [add_bet],
    [update_bet], [update_bankroll]).

    Conventions of the embedding.
    - Python numbers (stakes, odds, balances) are exact rationals [Q]; the
      rounding error of binary floating point is not represented there, so
      arithmetic identities are stated up to [Qeq] ([==]), and a NaN or an
      infinity has no counterpart.
    - The pure functions whose result depends on that rounding
      ([calculate_profit_loss], [calculate_parlay_odds],
      [validate_bet_input]) are embedded a second time over binary64 floats,
      in the module [Float64].
    - Identifiers are integers [Z]; the engine binds those of 64 signed
      bits ([is_int64]).
    - Python strings are [string]; the value [None] is [None].
    - A pandas frame is the list of its rows.
    - The SQLite file is a record of its three tables; a table whose
      rows carry an [INTEGER PRIMARY KEY] is a finite map from that key. *)

From Stdlib Require Import ZArith QArith Qround Qabs Qminmax Qpower Lqa Lia.
From Stdlib Require Import String List Bool.
From Stdlib Require Import PrimFloat SpecFloat FloatOps FloatAxioms.
From stdpp Require Import gmap strings.
Import ListNotations.

Local Open Scope string_scope.
Local Open Scope list_scope.

(** ** Numbers *)

(** Python's [x < y] on numbers; [Qle_bool] is [x <= y]. *)
Definition Qlt_bool (x y : Q) : bool := negb (Qle_bool y x).

(** Nearest integer, ties to the even neighbour (the rule of Python's
    built-in [round]). *)
Definition round_half_even (x : Q) : Z :=
  let f := Qfloor x in
  match (x - inject_Z f ?= 1 # 2)%Q with
  | Lt => f
  | Gt => (f + 1)%Z
  | Eq => if Z.even f then f else (f + 1)%Z
  end.

(** [round(x, ndigits)] for [ndigits >= 0], on exact numbers: the value
    the built-in gives when [x] and the result need no rounding of their
    own. [Float64.py_round] is the built-in on floats. *)
Definition py_round (x : Q) (ndigits : N) : Q :=
  let p := inject_Z (10 ^ Z.of_N ndigits) in
  (inject_Z (round_half_even (x * p)) / p)%Q.

(** [reduce(operator.mul, xs, 1.0)]. *)
Definition reduce_mul (xs : list Q) (init : Q) : Q := fold_left Qmult xs init.

(** [Series.sum()]. *)
Definition series_sum (xs : list Q) : Q := fold_left Qplus xs 0%Q.

(** ** Settlement engine *)

(** [calculate_profit_loss(stake, odds, result)]. *)
Definition calculate_profit_loss (stake odds : Q) (result : string) : Q :=
  if String.eqb result "Win" then ((stake * odds) - stake)%Q
  else if String.eqb result "Loss" then (- stake)%Q
  else 0%Q.

(** The three messages of [validate_bet_input]. *)
Definition err_stake : string := "Stake must be positive".
Definition err_odds : string := "Odds must be at least 1.0".
Definition err_result : string := "Invalid result".

(** The list literal [["Pending", "Win", "Loss", "Push"]]. *)
Definition allowed_results : list string := ["Pending"; "Win"; "Loss"; "Push"].

(** [x in xs] on a list of strings. *)
Definition str_in (x : string) (xs : list string) : bool :=
  existsb (String.eqb x) xs.

(** [validate_bet_input(stake, odds, result)]: three independent [if]s, each
    appending to [errors]. *)
Definition validate_bet_input (stake odds : Q) (result : string) : list string :=
  let errors := [] in
  let errors := if Qle_bool stake 0 then errors ++ [err_stake] else errors in
  let errors := if Qlt_bool odds 1 then errors ++ [err_odds] else errors in
  let errors := if negb (str_in result allowed_results)
                then errors ++ [err_result] else errors in
  errors.

(** A parlay leg, the dict built by the leg form. *)
Record leg := {
  leg_team_a : string;
  leg_team_b : string;
  leg_bet_type : string;
  leg_sport : string;
  leg_odds : Q;
  leg_notes : string
}.

(** [calculate_parlay_odds(legs)]. *)
Definition calculate_parlay_odds (legs : list leg) : Q :=
  match legs with
  | [] => 1%Q
  | _ => let combined_odds := reduce_mul (map leg_odds legs) 1%Q in
         py_round combined_odds 2
  end.

(** ** Metrics engine *)

(** One row of the frame returned by [get_bets]; [col_x] is [df['x']]. *)
Record bet := {
  col_id : Z;
  col_date : string;
  col_team_a : string;
  col_team_b : string;
  col_bet_type : string;
  col_sport : string;
  col_stake : Q;
  col_odds : Q;
  col_result : string;
  col_profit_loss : Q;
  col_notes : string;
  col_is_parlay : Z;
  col_parlay_legs : option string
}.

(** [df.empty]. *)
Definition frame_empty {A : Type} (df : list A) : bool :=
  match df with
  | [] => true
  | _ :: _ => false
  end.

(** [len(df)] as a number. *)
Definition frame_len {A : Type} (df : list A) : Q :=
  inject_Z (Z.of_nat (length df)).

(** [Series.mean()]; only called on non-empty series. *)
Definition series_mean (xs : list Q) : Q := (series_sum xs / frame_len xs)%Q.

(** [Series.max()] and [Series.min()]; only called on non-empty series (the
    value at the empty series is never used). *)
Definition series_max (xs : list Q) : Q :=
  match xs with
  | [] => 0%Q
  | x :: rest => fold_left Qmax rest x
  end.

Definition series_min (xs : list Q) : Q :=
  match xs with
  | [] => 0%Q
  | x :: rest => fold_left Qmin rest x
  end.

(** A boolean series counts [True] as 1 and [False] as 0. *)
Definition bool_to_Q (b : bool) : Q := if b then 1%Q else 0%Q.

(** [df[df['result'] == value]]. *)
Definition result_is (value : string) (b : bet) : bool :=
  String.eqb (col_result b) value.

(** [calculate_metrics(df)], the tuple
    [(total_pl, roi, win_rate, len(df))]. *)
Definition calculate_metrics (df : list bet) : Q * Q * Q * nat :=
  if frame_empty df then (0%Q, 0%Q, 0%Q, 0%nat)
  else
    let total_pl := series_sum (map col_profit_loss df) in
    let total_stake := series_sum (map col_stake df) in
    let roi := if Qlt_bool 0 total_stake
               then (total_pl / total_stake * 100)%Q else 0%Q in
    let win_rate :=
      (series_mean (map (fun b => bool_to_Q (result_is "Win" b)) df) * 100)%Q in
    (total_pl, roi, win_rate, length df).

(** The second component of the tuple. *)
Definition roi_of (m : Q * Q * Q * nat) : Q := snd (fst (fst m)).

(** A value of the advanced-metrics dict: a finite number,
    [float('inf')], or a count. *)
Inductive metric_value :=
| MFloat (q : Q)
| MInf
| MInt (n : nat).

(** A dict literal, in insertion order. *)
Definition metrics_dict := list (string * metric_value).

(** [d[key]] when present. *)
Fixpoint dict_get (key : string) (d : metrics_dict) : option metric_value :=
  match d with
  | [] => None
  | (k, v) :: rest => if String.eqb k key then Some v else dict_get key rest
  end.

(** [df[df['result'].isin(['Win', 'Loss'])]]. *)
Definition settled (df : list bet) : list bet :=
  List.filter (fun b => str_in (col_result b) ["Win"; "Loss"]) df.

(** [calculate_advanced_metrics(df)]. *)
Definition calculate_advanced_metrics (df : list bet) : metrics_dict :=
  if frame_empty df then []
  else
    let settled_bets := settled df in
    if frame_empty settled_bets then []
    else
      let wins := List.filter (result_is "Win") settled_bets in
      let losses := List.filter (result_is "Loss") settled_bets in
      let avg_odds_win :=
        if negb (frame_empty wins) then series_mean (map col_odds wins) else 0%Q in
      let avg_odds_loss :=
        if negb (frame_empty losses) then series_mean (map col_odds losses) else 0%Q in
      let biggest_win := series_max (map col_profit_loss settled_bets) in
      let biggest_loss := series_min (map col_profit_loss settled_bets) in
      let ev :=
        if (0 <? length settled_bets)%nat
        then ((series_sum (map col_profit_loss wins)
               + series_sum (map col_profit_loss losses))
              / frame_len settled_bets)%Q
        else 0%Q in
      let avg_stake := series_mean (map col_stake settled_bets) in
      let total_won :=
        if negb (frame_empty wins)
        then (series_sum (map col_profit_loss wins)
              + series_sum (map col_stake wins))%Q
        else 0%Q in
      let total_lost :=
        if negb (frame_empty losses) then series_sum (map col_stake losses) else 0%Q in
      let profit_factor :=
        if Qlt_bool 0 total_lost then MFloat (total_won / total_lost) else MInf in
      [ ("avg_win_odds", MFloat avg_odds_win);
        ("avg_loss_odds", MFloat avg_odds_loss);
        ("biggest_win", MFloat biggest_win);
        ("biggest_loss", MFloat biggest_loss);
        ("expected_value", MFloat ev);
        ("avg_stake", MFloat avg_stake);
        ("profit_factor", profit_factor);
        ("total_settled_bets", MInt (length settled_bets)) ].

(** ** The SQLite store *)

(** A stored value. *)
Inductive sql_value :=
| SqlNull
| SqlInt (z : Z)
| SqlReal (q : Q)
| SqlText (s : string).

(** A table with an [id INTEGER PRIMARY KEY AUTOINCREMENT] column ([bets],
    [quotes]): its declared columns (name and type, as [PRAGMA table_info]
    lists them, [id] included), its rows keyed by [id], each row giving the
    value of every other column, and the largest [id] ever handed out (the
    table's entry in [sqlite_sequence]). *)
Record table := {
  columns : list (string * string);
  rows : gmap Z (gmap string sql_value);
  last_rowid : Z
}.

(** The database file: the [bets] and [quotes] tables, and the [bankroll]
    table [(id INTEGER PRIMARY KEY, balance REAL)] as a map from [id] to
    [balance]. [None] is a table that does not exist. *)
Record db := {
  bets : option table;
  quotes : option table;
  bankroll : option (gmap Z Q)
}.

Inductive tname := Bets | Quotes.

Definition tname_str (n : tname) : string :=
  match n with
  | Bets => "bets"
  | Quotes => "quotes"
  end.

Definition get_table (n : tname) (s : db) : option table :=
  match n with
  | Bets => bets s
  | Quotes => quotes s
  end.

Definition set_table (n : tname) (t : table) (s : db) : db :=
  match n with
  | Bets => {| bets := Some t; quotes := quotes s; bankroll := bankroll s |}
  | Quotes => {| bets := bets s; quotes := Some t; bankroll := bankroll s |}
  end.

Definition set_bankroll (m : gmap Z Q) (s : db) : db :=
  {| bets := bets s; quotes := quotes s; bankroll := Some m |}.

(** Python exceptions the modelled functions can raise. The binding
    layer's [OverflowError], raised for an [int] that does not fit in 64
    signed bits, has no counterpart; [is_int64] tells the identifiers that
    are bound without it. *)
Inductive exn :=
| ValueError (msg : string)
| OperationalError (msg : string).

(** What a call does: return a value or raise. *)
Inductive outcome (A : Type) :=
| Returned (a : A)
| Raised (e : exn).
Arguments Returned {A} a.
Arguments Raised {A} e.

(** A Python value returned by the modelled procedures. *)
Inductive pyvalue :=
| PyNone
| PyInt (z : Z).

(** Computations on the store. A statement that raises leaves the store
    as the statements before it left it (every function below issues at
    most one data-changing statement, and schema statements take effect at
    once). *)
Definition M (A : Type) : Type := db -> outcome A * db.

#[global] Instance M_ret : MRet M := fun A a s => (Returned a, s).

Definition raise {A : Type} (e : exn) : M A := fun s => (Raised e, s).

(** Sequencing, written [x ← m; k] and [m;; k]: a raised exception skips
    the rest. *)
#[global] Instance M_bind : MBind M := fun A B k m s =>
  match m s with
  | (Returned a, s') => k a s'
  | (Raised e, s') => (Raised e, s')
  end.

(** [for x in xs: body(x)]. *)
Fixpoint for_each {A : Type} (xs : list A) (body : A -> M unit) : M unit :=
  match xs with
  | [] => mret tt
  | x :: rest => body x;; for_each rest body
  end.

(** The store after running [m], and what [m] did. *)
Definition exec {A : Type} (m : M A) (s : db) : db := snd (m s).
Definition result_of {A : Type} (m : M A) (s : db) : outcome A := fst (m s).

(** *** Statements of the engine *)

(** [SELECT name FROM sqlite_master WHERE type='table' AND name=?] followed
    by [PRAGMA table_info]: the table when it exists. *)
Definition select_table (n : tname) : M (option table) :=
  fun s => (Returned (get_table n s), s).

(** [CREATE TABLE IF NOT EXISTS]. *)
Definition create_table_if_not_exists (n : tname) (cols : list (string * string))
  : M unit :=
  fun s =>
    match get_table n s with
    | Some _ => (Returned tt, s)
    | None =>
        (Returned tt,
         set_table n {| columns := cols; rows := ∅; last_rowid := 0 |} s)
    end.

Definition column_names (t : table) : list string := map fst (columns t).

(** [ALTER TABLE n ADD COLUMN c ty]: existing rows read [NULL] there.
    Column names are compared as they are written, all of the program's
    own being in lower case (the engine itself takes no account of case). *)
Definition alter_table_add_column (n : tname) (c ty : string) : M unit :=
  fun s =>
    match get_table n s with
    | None => (Raised (OperationalError ("no such table: " +:+ tname_str n)), s)
    | Some t =>
        if str_in c (column_names t)
        then (Raised (OperationalError ("duplicate column name: " +:+ c)), s)
        else
          (Returned tt,
           set_table n {| columns := columns t ++ [(c, ty)];
                          rows := (fun r => <[c := SqlNull]> r) <$> rows t;
                          last_rowid := last_rowid t |} s)
    end.

(** The value a statement assigns to column [c], if any. *)
Fixpoint assigned (c : string) (assignments : list (string * sql_value))
  : option sql_value :=
  match assignments with
  | [] => None
  | (k, v) :: rest => if String.eqb k c then Some v else assigned c rest
  end.

(** The first assigned column the table does not have. *)
Definition missing_column (t : table) (assignments : list (string * sql_value))
  : option string :=
  fst <$> List.find (fun a => negb (str_in (fst a) (column_names t))) assignments.

(** The largest key in use (0 for the empty table). *)
Definition max_rowid (rs : gmap Z (gmap string sql_value)) : Z :=
  foldr Z.max 0%Z (map fst (map_to_list rs)).

(** A fresh row: the assigned value in each assigned column, [NULL] in the
    others. The key column [id] is not part of the row. *)
Definition new_row (cols : list string) (assignments : list (string * sql_value))
  : gmap string sql_value :=
  foldr (fun c r =>
           if String.eqb c "id" then r
           else <[c := default SqlNull (assigned c assignments)]> r)
        ∅ cols.

(** [INSERT INTO n (c1, ..) VALUES (?, ..)] with [id] left to
    AUTOINCREMENT. *)
Definition insert_into (n : tname) (assignments : list (string * sql_value))
  : M unit :=
  fun s =>
    match get_table n s with
    | None => (Raised (OperationalError ("no such table: " +:+ tname_str n)), s)
    | Some t =>
        match missing_column t assignments with
        | Some c =>
            (Raised (OperationalError
                       ("table " +:+ tname_str n +:+ " has no column named " +:+ c)), s)
        | None =>
            let rowid := (Z.max (last_rowid t) (max_rowid (rows t)) + 1)%Z in
            (Returned tt,
             set_table n {| columns := columns t;
                            rows := <[rowid := new_row (column_names t) assignments]>
                                      (rows t);
                            last_rowid := rowid |} s)
        end
    end.

(** The row after [SET c1=?, ..]. *)
Definition assign_all (assignments : list (string * sql_value))
  (r : gmap string sql_value) : gmap string sql_value :=
  fold_left (fun r a => <[fst a := snd a]> r) assignments r.

(** [UPDATE n SET c1=?, .. WHERE id=?]. *)
Definition update_where_id (n : tname) (assignments : list (string * sql_value))
  (key : Z) : M unit :=
  fun s =>
    match get_table n s with
    | None => (Raised (OperationalError ("no such table: " +:+ tname_str n)), s)
    | Some t =>
        match missing_column t (assignments ++ [("id", SqlInt key)]) with
        | Some c => (Raised (OperationalError ("no such column: " +:+ c)), s)
        | None =>
            (Returned tt,
             set_table n {| columns := columns t;
                            rows := alter (assign_all assignments) key (rows t);
                            last_rowid := last_rowid t |} s)
        end
    end.

(** [CREATE TABLE IF NOT EXISTS bankroll (id INTEGER PRIMARY KEY, balance REAL)]. *)
Definition create_bankroll_if_not_exists : M unit :=
  fun s =>
    match bankroll s with
    | Some _ => (Returned tt, s)
    | None => (Returned tt, set_bankroll ∅ s)
    end.

(** [INSERT OR IGNORE INTO bankroll (id, balance) VALUES (?, ?)]: a row
    whose key is taken is left as it is. *)
Definition insert_or_ignore_bankroll (key : Z) (balance : Q) : M unit :=
  fun s =>
    match bankroll s with
    | None => (Raised (OperationalError "no such table: bankroll"), s)
    | Some m =>
        match m !! key with
        | Some _ => (Returned tt, s)
        | None => (Returned tt, set_bankroll (<[key := balance]> m) s)
        end
    end.

(** [UPDATE bankroll SET balance = f(balance) WHERE id = ?]. *)
Definition update_bankroll_where_id (f : Q -> Q) (key : Z) : M unit :=
  fun s =>
    match bankroll s with
    | None => (Raised (OperationalError "no such table: bankroll"), s)
    | Some m => (Returned tt, set_bankroll (alter f key m) s)
    end.

(** ** Schema manager *)

(** The dict [new_columns] of [init_db], in insertion order. *)
Definition new_columns : list (string * string) :=
  [ ("team_a", "TEXT");
    ("team_b", "TEXT");
    ("bet_type", "TEXT");
    ("sport", "TEXT");
    ("is_parlay", "INTEGER");
    ("parlay_legs", "TEXT") ].

(** The column list of the [CREATE TABLE ... bets] statement. *)
Definition bets_columns : list (string * string) :=
  [ ("id", "INTEGER"); ("date", "TEXT"); ("team_a", "TEXT"); ("team_b", "TEXT");
    ("bet_type", "TEXT"); ("sport", "TEXT"); ("stake", "REAL");
    ("odds", "REAL"); ("result", "TEXT"); ("profit_loss", "REAL");
    ("notes", "TEXT"); ("is_parlay", "INTEGER"); ("parlay_legs", "TEXT") ].

(** The column list of the [CREATE TABLE ... quotes] statement. *)
Definition quotes_columns : list (string * string) :=
  [ ("id", "INTEGER"); ("timestamp", "TEXT"); ("quote_text", "TEXT");
    ("category", "TEXT") ].

(** [init_db()]. *)
Definition init_db : M pyvalue :=
  table_exists ← select_table Bets;
  match table_exists with
  | Some t =>
      let existing_columns := column_names t in
      for_each new_columns (fun '(column_name, column_type) =>
        if negb (str_in column_name existing_columns)
        then alter_table_add_column Bets column_name column_type
        else mret tt)
  | None => create_table_if_not_exists Bets bets_columns
  end;;
  create_table_if_not_exists Quotes quotes_columns;;
  create_bankroll_if_not_exists;;
  insert_or_ignore_bankroll 1 0;;
  mret PyNone.

(** ** Bet ledger store *)

Section Ledger.

(** [json.dumps] on a list of leg dicts, the serializer of Python's
    standard library. *)
Variable json_dumps : list leg -> string.

(** [parlay_legs_str]: the JSON text when [parlay_legs] is a non-empty
    list, otherwise [None] (stored as [NULL]). *)
Definition parlay_legs_str (parlay_legs : option (list leg)) : sql_value :=
  match parlay_legs with
  | Some ((_ :: _) as legs) => SqlText (json_dumps legs)
  | _ => SqlNull
  end.

(** The twelve column/value pairs both statements bind, in order. *)
Definition bet_assignments (date team_a team_b bet_type sport : string)
  (stake odds : Q) (result : string) (profit_loss : Q) (notes : string)
  (is_parlay : bool) (parlay_legs : option (list leg))
  : list (string * sql_value) :=
  [ ("date", SqlText date); ("team_a", SqlText team_a);
    ("team_b", SqlText team_b); ("bet_type", SqlText bet_type);
    ("sport", SqlText sport); ("stake", SqlReal stake);
    ("odds", SqlReal odds); ("result", SqlText result);
    ("profit_loss", SqlReal profit_loss); ("notes", SqlText notes);
    ("is_parlay", SqlInt (if is_parlay then 1 else 0));
    ("parlay_legs", parlay_legs_str parlay_legs) ].

(** [add_bet(date, team_a, team_b, bet_type, sport, stake, odds, result,
    notes, is_parlay, parlay_legs)]. The function has no [return]. *)
Definition add_bet (date team_a team_b bet_type sport : string)
  (stake odds : Q) (result notes : string)
  (is_parlay : bool) (parlay_legs : option (list leg)) : M pyvalue :=
  let errors := validate_bet_input stake odds result in
  if negb (frame_empty errors)
  then raise (ValueError (String.concat "; " errors))
  else
    let profit_loss := calculate_profit_loss stake odds result in
    insert_into Bets
      (bet_assignments date team_a team_b bet_type sport stake odds result
         profit_loss notes is_parlay parlay_legs);;
    mret PyNone.

(** [update_bet(bet_id, date, ..., parlay_legs)]. The function has no
    [return]. *)
Definition update_bet (bet_id : Z) (date team_a team_b bet_type sport : string)
  (stake odds : Q) (result notes : string)
  (is_parlay : bool) (parlay_legs : option (list leg)) : M pyvalue :=
  let errors := validate_bet_input stake odds result in
  if negb (frame_empty errors)
  then raise (ValueError (String.concat "; " errors))
  else
    let profit_loss := calculate_profit_loss stake odds result in
    update_where_id Bets
      (bet_assignments date team_a team_b bet_type sport stake odds result
         profit_loss notes is_parlay parlay_legs)
      bet_id;;
    mret PyNone.

End Ledger.

(** ** Bankroll ledger *)

(** [update_bankroll(amount, operation)]: an [if]/[elif] chain with no
    [else]. *)
Definition update_bankroll (amount : Q) (operation : string) : M pyvalue :=
  (if String.eqb operation "add"
   then update_bankroll_where_id (fun balance => (balance + amount)%Q) 1
   else if String.eqb operation "set"
   then update_bankroll_where_id (fun _ => amount) 1
   else if String.eqb operation "subtract"
   then update_bankroll_where_id (fun balance => (balance - amount)%Q) 1
   else mret tt);;
  mret PyNone.

(** [get_bankroll()]. *)
Definition get_bankroll (s : db) : outcome Q :=
  match bankroll s with
  | None => Raised (OperationalError "no such table: bankroll")
  | Some m => Returned (default 0%Q (m !! 1%Z))
  end.

(** A database file that has just been created: no tables. *)
Definition empty_db : db := {| bets := None; quotes := None; bankroll := None |}.

(** ** Notions of the specification *)

(** The product of the legs' odds. *)
Fixpoint odds_product (legs : list leg) : Q :=
  match legs with
  | [] => 1%Q
  | l :: rest => (leg_odds l * odds_product rest)%Q
  end.

(** A leg of which only the odds matter, [{'odds': o}]. *)
Definition leg_with_odds (o : Q) : leg :=
  {| leg_team_a := ""; leg_team_b := ""; leg_bet_type := ""; leg_sport := "";
     leg_odds := o; leg_notes := "" |}.

(** The sum of a column over a set of records. *)
Fixpoint total_of (column : bet -> Q) (records : list bet) : Q :=
  match records with
  | [] => 0%Q
  | b :: rest => (column b + total_of column rest)%Q
  end.

(** The records with a given result. *)
Definition with_result (value : string) (records : list bet) : list bet :=
  List.filter (result_is value) records.

(** A record counts as settled when its result is Win or Loss. *)
Definition is_settled (b : bet) : Prop :=
  col_result b = "Win" \/ col_result b = "Loss".

(** The keys of a populated advanced-metrics object. *)
Definition advanced_keys : list string :=
  [ "avg_win_odds"; "avg_loss_odds"; "biggest_win"; "biggest_loss";
    "expected_value"; "avg_stake"; "profit_factor"; "total_settled_bets" ].

(** Stakes are never negative in a ledger (validation admits only positive
    stakes; a legacy row without the column reads 0). *)
Definition stakes_nonneg (df : list bet) : Prop :=
  Forall (fun b => (0 <= col_stake b)%Q) df.

(** What one round of the migration loop does to the [bets] table. *)
Definition add_missing (existing : list string) (t : table) (col : string * string)
  : table :=
  if str_in (fst col) existing then t
  else {| columns := columns t ++ [col];
          rows := (fun r => <[fst col := SqlNull]> r) <$> rows t;
          last_rowid := last_rowid t |}.

(** The [bets] table after the loop over [todo]. *)
Definition migrated (existing : list string) (todo : list (string * string))
  (t : table) : table :=
  fold_left (add_missing existing) todo t.

(** The table has every column in [names]. *)
Definition has_columns (t : table) (names : list string) : bool :=
  forallb (fun c => str_in c (column_names t)) names.

(** The thirteen columns of the current [bets] schema. *)
Definition ledger_columns : list string := map fst bets_columns.

(** The shape [init_db] establishes: the three tables exist, [bets] has the
    six added columns, and the bankroll row 1 is there. *)
Definition schema_ensured (s : db) : Prop :=
  (exists t, bets s = Some t
             /\ forall c, In c (map fst new_columns) -> In c (column_names t))
  /\ (exists q, quotes s = Some q)
  /\ (exists m b, bankroll s = Some m /\ m !! 1%Z = Some b).

(** The store [init_db] leaves behind, as a function of the store it finds. *)
Definition ensured (s : db) : db :=
  let b := match bets s with
           | Some t => migrated (column_names t) new_columns t
           | None => {| columns := bets_columns; rows := ∅; last_rowid := 0 |}
           end in
  let q := match quotes s with
           | Some q => q
           | None => {| columns := quotes_columns; rows := ∅; last_rowid := 0 |}
           end in
  let m := match bankroll s with
           | Some m => m
           | None => ∅
           end in
  let m' := match m !! 1%Z with
            | Some _ => m
            | None => <[1%Z := 0%Q]> m
            end in
  {| bets := Some b; quotes := Some q; bankroll := Some m' |}.

(** ** Sample data *)

(** A record of which only the settlement columns matter. *)
Definition sample_bet (stake odds : Q) (result : string) : bet :=
  {| col_id := 0; col_date := "2024-01-01"; col_team_a := "A"; col_team_b := "B";
     col_bet_type := "Moneyline"; col_sport := "Soccer";
     col_stake := stake; col_odds := odds; col_result := result;
     col_profit_loss := calculate_profit_loss stake odds result;
     col_notes := ""; col_is_parlay := 0; col_parlay_legs := None |}.

(** One Win (stake 100 at odds 2.0) and one Loss (stake 50 at odds 3.0). *)
Definition sample_ledger : list bet :=
  [sample_bet 100 2 "Win"; sample_bet 50 3 "Loss"].

(** Wins only. *)
Definition winning_ledger : list bet :=
  [sample_bet 100 2 "Win"; sample_bet 10 (3 # 2) "Pending"].

(** A store right after its first [init_db]. *)
Definition fresh_db : db := exec init_db empty_db.

(** A serializer standing in for [json.dumps] where no legs are stored. *)
Definition no_legs_dumps (legs : list leg) : string := "[]".

(** The store after one valid bet has been added to [fresh_db]. *)
Definition one_bet_db : db :=
  exec (add_bet no_legs_dumps "2024-01-01" "A" "B" "Moneyline" "Soccer"
          100 2 "Win" "" false None) fresh_db.

(** The [bets] table of [fresh_db] and of [one_bet_db]. *)
Definition fresh_bets : table :=
  {| columns := bets_columns; rows := ∅; last_rowid := 0 |}.

Definition one_bet_table : table := default fresh_bets (bets one_bet_db).

(** ** Reading and deleting records *)

(** The list [columns] of [get_bet_by_id], which is also
    [expected_columns] of [get_bets]. *)
Definition expected_columns : list string :=
  [ "id"; "date"; "team_a"; "team_b"; "bet_type"; "sport"; "stake"; "odds";
    "result"; "profit_loss"; "notes"; "is_parlay"; "parlay_legs" ].

(** The tuple [SELECT *] yields for a row: one value per declared column,
    in the table's column order, the key under [id]. *)
Definition select_star (t : table) (key : Z) (r : gmap string sql_value)
  : list sql_value :=
  map (fun c => if String.eqb c "id" then SqlInt key else default SqlNull (r !! c))
      (column_names t).

(** A dict built by [dict(zip(names, values))] with distinct names, in
    insertion order, and [d[key]] on it. *)
Definition record := list (string * sql_value).

Fixpoint record_get (key : string) (d : record) : option sql_value :=
  match d with
  | [] => None
  | (k, v) :: rest => if String.eqb k key then Some v else record_get key rest
  end.

(** [SELECT * FROM n WHERE id = ?] then [fetchone()]. *)
Definition select_where_id (n : tname) (key : Z) (s : db)
  : outcome (option (list sql_value)) :=
  match get_table n s with
  | None => Raised (OperationalError ("no such table: " +:+ tname_str n))
  | Some t =>
      if negb (str_in "id" (column_names t))
      then Raised (OperationalError "no such column: id")
      else Returned (select_star t key <$> rows t !! key)
  end.

(** [get_bet_by_id(bet_id)]: the row tuple zipped with the hard-coded
    names, or [None]. *)
Definition get_bet_by_id (bet_id : Z) (s : db) : outcome (option record) :=
  match select_where_id Bets bet_id s with
  | Raised e => Raised e
  | Returned bet =>
      match bet with
      | Some values => Returned (Some (combine expected_columns values))
      | None => Returned None
      end
  end.

(** [DELETE FROM n WHERE id = ?]. The AUTOINCREMENT counter stays. *)
Definition delete_where_id (n : tname) (key : Z) : M unit :=
  fun s =>
    match get_table n s with
    | None => (Raised (OperationalError ("no such table: " +:+ tname_str n)), s)
    | Some t =>
        if negb (str_in "id" (column_names t))
        then (Raised (OperationalError "no such column: id"), s)
        else
          (Returned tt,
           set_table n {| columns := columns t;
                          rows := delete key (rows t);
                          last_rowid := last_rowid t |} s)
    end.

(** [delete_bet(bet_id)] and [delete_quote(quote_id)]. *)
Definition delete_bet (bet_id : Z) : M pyvalue :=
  delete_where_id Bets bet_id;;
  mret PyNone.

Definition delete_quote (quote_id : Z) : M pyvalue :=
  delete_where_id Quotes quote_id;;
  mret PyNone.

(** [add_quote(quote_text, category)]; [now] is the text
    [datetime.now().isoformat()] evaluates to at the call. *)
Definition add_quote (now quote_text category : string) : M pyvalue :=
  insert_into Quotes
    [ ("timestamp", SqlText now); ("quote_text", SqlText quote_text);
      ("category", SqlText category) ];;
  mret PyNone.

(** ** Notions for the ledger properties *)

(** The key AUTOINCREMENT hands out next. *)
Definition next_id (t : table) : Z :=
  (Z.max (last_rowid t) (max_rowid (rows t)) + 1)%Z.

(** The table after one INSERT of [assignments]. *)
Definition inserted (t : table) (assignments : list (string * sql_value)) : table :=
  {| columns := columns t;
     rows := <[next_id t := new_row (column_names t) assignments]> (rows t);
     last_rowid := next_id t |}.

(** The table has exactly the columns of the current schema, in the order
    of the CREATE statement. *)
Definition current_schema (t : table) : Prop := column_names t = expected_columns.

(** The AUTOINCREMENT counter covers every key in use, and keys are
    positive (as they are in a table only ever filled by INSERT). *)
Definition counter_current (t : table) : Prop :=
  (0 <= last_rowid t)%Z
  /\ forall k, is_Some (rows t !! k) -> (0 < k <= last_rowid t)%Z.

(** Every record carries the profit_loss that settlement derives from its
    own stake, odds and result (as [add_bet] and [update_bet] store it). *)
Definition ledger_derived (df : list bet) : Prop :=
  Forall (fun b => (col_profit_loss b
                    == calculate_profit_loss (col_stake b) (col_odds b)
                         (col_result b))%Q) df.

(** The columns of [bets] that [init_db] never adds: a table that is
    migrated rather than created must bring them along. *)
Definition base_columns : list string :=
  [ "id"; "date"; "stake"; "odds"; "result"; "profit_loss"; "notes" ].

(** ** The calls a session makes *)

(** The arguments [add_bet] and [update_bet] share. *)
Record bet_fields := {
  f_date : string;
  f_team_a : string;
  f_team_b : string;
  f_bet_type : string;
  f_sport : string;
  f_stake : Q;
  f_odds : Q;
  f_result : string;
  f_notes : string;
  f_is_parlay : bool;
  f_parlay_legs : option (list leg)
}.

(** A call of one of the store-changing functions, with its arguments. *)
Inductive api_call :=
| InitDb
| AddBet (f : bet_fields)
| UpdateBet (bet_id : Z) (f : bet_fields)
| DeleteBet (bet_id : Z)
| AddQuote (now quote_text category : string)
| DeleteQuote (quote_id : Z)
| UpdateBankroll (amount : Q) (operation : string).

Section Calls.

Variable json_dumps : list leg -> string.

Definition run (c : api_call) : M pyvalue :=
  match c with
  | InitDb => init_db
  | AddBet f =>
      add_bet json_dumps (f_date f) (f_team_a f) (f_team_b f) (f_bet_type f)
        (f_sport f) (f_stake f) (f_odds f) (f_result f) (f_notes f)
        (f_is_parlay f) (f_parlay_legs f)
  | UpdateBet bet_id f =>
      update_bet json_dumps bet_id (f_date f) (f_team_a f) (f_team_b f)
        (f_bet_type f) (f_sport f) (f_stake f) (f_odds f) (f_result f)
        (f_notes f) (f_is_parlay f) (f_parlay_legs f)
  | DeleteBet bet_id => delete_bet bet_id
  | AddQuote now quote_text category => add_quote now quote_text category
  | DeleteQuote quote_id => delete_quote quote_id
  | UpdateBankroll amount operation => update_bankroll amount operation
  end.

(** The stores a session can be in: it starts by running [init_db] on a
    new database file (as [main] does), and goes on by any calls with any
    arguments (text, exact numbers and integers, as the embedding has
    them). *)
Inductive reachable : db -> Prop :=
| reachable_start : reachable (exec init_db empty_db)
| reachable_call (s : db) (c : api_call) :
    reachable s -> reachable (exec (run c) s).

End Calls.

(** A stored bet that satisfies the validation rules and carries the
    profit_loss the settlement derives from its stake, odds and result. *)
Definition bet_row_ok (r : gmap string sql_value) : Prop :=
  exists (stake odds : Q) (result : string),
    r !! "stake" = Some (SqlReal stake)
    /\ r !! "odds" = Some (SqlReal odds)
    /\ r !! "result" = Some (SqlText result)
    /\ r !! "profit_loss" = Some (SqlReal (calculate_profit_loss stake odds result))
    /\ (0 < stake)%Q /\ (1 <= odds)%Q /\ In result allowed_results.

(** The invariant of a session's store. *)
Definition store_ok (s : db) : Prop :=
  (exists t, bets s = Some t
             /\ current_schema t
             /\ counter_current t
             /\ forall k r, rows t !! k = Some r -> bet_row_ok r)
  /\ (exists q, quotes s = Some q /\ columns q = quotes_columns)
  /\ (exists m b, bankroll s = Some m /\ m !! 1%Z = Some b).

(** ** More sample data *)

Definition sample_fields : bet_fields :=
  {| f_date := "2024-01-01"; f_team_a := "A"; f_team_b := "B";
     f_bet_type := "Moneyline"; f_sport := "Soccer";
     f_stake := 100; f_odds := 2; f_result := "Win"; f_notes := "";
     f_is_parlay := false; f_parlay_legs := None |}.

(** A session: startup, a deposit, one valid bet, one quote. *)
Definition sample_session : db :=
  exec (run no_legs_dumps (AddQuote "2024-01-01T10:00:00" "Stay patient" "Discipline"))
    (exec (run no_legs_dumps (AddBet sample_fields))
       (exec (run no_legs_dumps (UpdateBankroll 500 "add"))
          (exec init_db empty_db))).

(** A [bets] table of an older schema, before the six columns were added,
    holding one bet. *)
Definition legacy_bets : table :=
  {| columns := [ ("id", "INTEGER"); ("date", "TEXT"); ("stake", "REAL");
                  ("odds", "REAL"); ("result", "TEXT"); ("profit_loss", "REAL");
                  ("notes", "TEXT") ];
     rows := {[ 1%Z := list_to_map
                         [ ("date", SqlText "2023-05-01"); ("stake", SqlReal 100);
                           ("odds", SqlReal 2); ("result", SqlText "Win");
                           ("profit_loss", SqlReal 100); ("notes", SqlText "") ] ]};
     last_rowid := 1 |}.

Definition legacy_row : gmap string sql_value :=
  default ∅ (rows legacy_bets !! 1%Z).

Definition legacy_db : db :=
  {| bets := Some legacy_bets; quotes := None; bankroll := None |}.

(** The row of the bet in [one_bet_table]. *)
Definition one_bet_row : gmap string sql_value :=
  default ∅ (rows one_bet_table !! 1%Z).

(** Fields that break all three validation rules. *)
Definition invalid_fields : bet_fields :=
  {| f_date := "2024-01-01"; f_team_a := "A"; f_team_b := "B";
     f_bet_type := "Moneyline"; f_sport := "Soccer";
     f_stake := -5; f_odds := 1 # 2; f_result := "X"; f_notes := "";
     f_is_parlay := false; f_parlay_legs := None |}.

(** ** Reading the ledger as a frame *)

(** A pandas frame: its column labels and its rows, each row holding one
    value per column. *)
Record frame := {
  frame_columns : list string;
  frame_rows : list (list sql_value)
}.

(** The position of a label. *)
Fixpoint index_of (c : string) (cols : list string) : option nat :=
  match cols with
  | [] => None
  | c0 :: rest => if String.eqb c0 c then Some 0%nat else S <$> index_of c rest
  end.

(** [df[col] = v] with a scalar [v]: overwrites the column when the label
    exists, appends a new last column otherwise. *)
Definition frame_assign (df : frame) (col : string) (v : sql_value) : frame :=
  match index_of col (frame_columns df) with
  | Some i =>
      {| frame_columns := frame_columns df;
         frame_rows := map (fun row => <[i := v]> row) (frame_rows df) |}
  | None =>
      {| frame_columns := frame_columns df ++ [col];
         frame_rows := map (fun row => row ++ [v]) (frame_rows df) |}
  end.

(** The labels [get_bets] fills with the empty string. *)
Definition text_columns : list string :=
  [ "team_a"; "team_b"; "bet_type"; "sport"; "notes"; "parlay_legs" ].

(** The value [get_bets] gives a missing column: [""], [0] or [0.0]. *)
Definition backfill_value (col : string) : sql_value :=
  if str_in col text_columns then SqlText ""
  else if String.eqb col "is_parlay" then SqlInt 0
  else SqlReal 0.

(** One round of the loop of [get_bets]. *)
Definition backfill (df : frame) (col : string) : frame :=
  if negb (str_in col (frame_columns df))
  then frame_assign df col (backfill_value col)
  else df.

Section Frames.

(** What [ORDER BY c DESC] makes of a table: its rows in the order the
    engine returns them. *)
Variable order_by_desc : string -> table -> list (Z * gmap string sql_value).

(** [pd.read_sql('SELECT * FROM n ORDER BY c DESC', conn)]; [None] when
    pandas raises because the table or the column does not exist. *)
Definition read_sql_ordered (n : tname) (c : string) (s : db) : option frame :=
  match get_table n s with
  | None => None
  | Some t =>
      if negb (str_in c (column_names t)) then None
      else Some {| frame_columns := column_names t;
                   frame_rows := map (fun kr => select_star t (fst kr) (snd kr))
                                     (order_by_desc c t) |}
  end.

(** [get_bets()]. *)
Definition get_bets (s : db) : option frame :=
  df ← read_sql_ordered Bets "date" s;
  Some (fold_left backfill expected_columns df).

(** [get_quotes()]. *)
Definition get_quotes (s : db) : option frame :=
  read_sql_ordered Quotes "timestamp" s.

End Frames.

(** One such order: the rows as the map lists them. *)
Definition rowid_order (c : string) (t : table) : list (Z * gmap string sql_value) :=
  map_to_list (rows t).
(** ** Binary floating point *)

(** The numbers the running program computes with are Python [float]s:
    IEEE 754 binary64, every operation rounded to the nearest value, ties to
    the even one. [PrimFloat.float] is that type with those operations, and
    a decimal literal denotes the binary64 nearest to it, as in Python. The
    module below embeds the three pure functions over these numbers, next
    to their embedding over exact rationals above. *)

Set Warnings "-inexact-float".

Module Float64.

(** The rational a finite float stands for, sign left out; 0 for a zero
    (and for an infinity and a NaN, which stand for none). *)
Definition magnitude (x : float) : Q :=
  match Prim2SF x with
  | S754_finite _ m e => (inject_Z (Zpos m) * 2 ^ e)%Q
  | _ => 0%Q
  end.

(** The rational a finite float stands for, with its sign. *)
Definition to_Q (x : float) : Q :=
  if get_sign x then (- magnitude x)%Q else magnitude x.

(** The float nearest to the fraction [num / den] of the given sign
    (conversion of a decimal text to a float); a zero keeps the sign. *)
Definition nearest (negative : bool) (num : Z) (den : positive) : float :=
  match num with
  | Zpos n =>
      SF2Prim (SFdiv prec emax (S754_finite negative n 0)
                 (S754_finite false den 0))
  | _ => if negative then neg_zero else zero
  end.

(** [round(x, ndigits)] for a float [x] and [ndigits >= 0]: the value of
    [x] is rounded to the nearest multiple of [10 ** -ndigits], ties to the
    even multiple, and the float nearest to that decimal is returned; an
    infinity or a NaN is returned as it is. *)
Definition py_round (x : float) (ndigits : N) : float :=
  if is_finite x
  then let p := Z.to_pos (10 ^ Z.of_N ndigits) in
       nearest (get_sign x) (round_half_even (magnitude x * inject_Z (Zpos p))) p
  else x.

(** [reduce(operator.mul, xs, 1.0)]. *)
Definition reduce_mul (xs : list float) (init : float) : float :=
  fold_left PrimFloat.mul xs init.

(** [calculate_profit_loss(stake, odds, result)]; the [0] of the last
    branch is the number zero. *)
Definition calculate_profit_loss (stake odds : float) (result : string)
  : float :=
  if String.eqb result "Win" then ((stake * odds) - stake)%float
  else if String.eqb result "Loss" then (- stake)%float
  else 0%float.

(** [validate_bet_input(stake, odds, result)]; [<=] and [<] are the
    comparisons of floats, both false when an argument is a NaN. *)
Definition validate_bet_input (stake odds : float) (result : string)
  : list string :=
  let errors := [] in
  let errors := if (stake <=? 0)%float then errors ++ [err_stake] else errors in
  let errors := if (odds <? 1.0)%float then errors ++ [err_odds] else errors in
  let errors := if negb (str_in result allowed_results)
                then errors ++ [err_result] else errors in
  errors.

(** A parlay leg, the dict built by the leg form, its odds a float. *)
Record leg := {
  leg_team_a : string;
  leg_team_b : string;
  leg_bet_type : string;
  leg_sport : string;
  leg_odds : float;
  leg_notes : string
}.

(** [calculate_parlay_odds(legs)]. *)
Definition calculate_parlay_odds (legs : list leg) : float :=
  match legs with
  | [] => 1.0%float
  | _ => let combined_odds := reduce_mul (map leg_odds legs) 1.0%float in
         py_round combined_odds 2
  end.

(** A leg of which only the odds matter. *)
Definition leg_with_odds (o : float) : leg :=
  {| leg_team_a := ""; leg_team_b := ""; leg_bet_type := ""; leg_sport := "";
     leg_odds := o; leg_notes := "" |}.

End Float64.

(** ** Arguments the engine binds *)

(** The integers SQLite stores and the binding layer accepts: 64 signed
    bits. A larger Python [int] makes [execute] raise before the statement
    runs. *)
Definition is_int64 (z : Z) : bool :=
  ((- (2 ^ 63) <=? z) && (z <? 2 ^ 63))%Z.

(** The identifiers a call binds are of 64 bits. *)
Definition call_ids_int64 (c : api_call) : bool :=
  match c with
  | UpdateBet bet_id _ => is_int64 bet_id
  | DeleteBet bet_id => is_int64 bet_id
  | DeleteQuote quote_id => is_int64 quote_id
  | _ => true
  end.

(** Two legs, and a stand-in for the serializer that tells lists of legs
    apart by their teams. *)
Definition sample_legs : list leg :=
  [ {| leg_team_a := "A"; leg_team_b := "B"; leg_bet_type := "Moneyline";
       leg_sport := "Soccer"; leg_odds := 2; leg_notes := "" |};
    {| leg_team_a := "C"; leg_team_b := "D"; leg_bet_type := "Handicap";
       leg_sport := "Soccer"; leg_odds := 3 # 2; leg_notes := "" |} ].

Definition teams_dumps (legs : list leg) : string :=
  String.concat "; "
    (map (fun l => (leg_team_a l ++ " v " ++ leg_team_b l)%string) legs).

(** * Properties *)


(** ** Numbers *)

Lemma Qlt_bool_iff (x y : Q) : Qlt_bool x y = true <-> (x < y)%Q.
Proof.
  unfold Qlt_bool. rewrite negb_true_iff.
  split.
  - intros H. apply Qnot_le_lt. intros Hle.
    apply Qle_bool_iff in Hle. congruence.
  - intros H. destruct (Qle_bool y x) eqn:E; [|reflexivity].
    apply Qle_bool_iff in E. exfalso. apply (Qlt_not_le _ _ H E).
Qed.

Lemma Qlt_bool_false_iff (x y : Q) : Qlt_bool x y = false <-> (y <= x)%Q.
Proof.
  unfold Qlt_bool. rewrite negb_false_iff. apply Qle_bool_iff.
Qed.

Lemma Qle_bool_false_iff (x y : Q) : Qle_bool x y = false <-> (y < x)%Q.
Proof.
  rewrite <- Qlt_bool_iff. unfold Qlt_bool.
  destruct (Qle_bool x y); simpl; split; congruence.
Qed.

#[global] Instance round_half_even_comp : Proper (Qeq ==> eq) round_half_even.
Proof.
  intros x y Hxy. unfold round_half_even.
  rewrite (Qfloor_comp _ _ Hxy).
  assert (Hc : (x - inject_Z (Qfloor y) ?= 1 # 2)%Q
               = (y - inject_Z (Qfloor y) ?= 1 # 2)%Q).
  { apply Qcompare_comp; [rewrite Hxy|]; reflexivity. }
  rewrite Hc. reflexivity.
Qed.

(** The rounded integer is within one half of the argument. *)
Lemma round_half_even_near (x : Q) :
  (Qabs (inject_Z (round_half_even x) - x) <= 1 # 2)%Q.
Proof.
  pose proof (Qfloor_le x) as Hlo.
  pose proof (Qlt_floor x) as Hhi.
  rewrite inject_Z_plus in Hhi. change (inject_Z 1) with 1%Q in Hhi.
  unfold round_half_even.
  apply Qabs_Qle_condition.
  destruct (x - inject_Z (Qfloor x) ?= 1 # 2)%Q eqn:E.
  - apply Qeq_alt in E. destruct (Z.even (Qfloor x));
      [|rewrite inject_Z_plus; change (inject_Z 1) with 1%Q]; split; lra.
  - apply Qlt_alt in E. split; lra.
  - apply Qgt_alt in E. rewrite inject_Z_plus.
    change (inject_Z 1) with 1%Q. split; lra.
Qed.

#[global] Instance py_round_comp : Proper (Qeq ==> eq ==> Qeq) py_round.
Proof.
  intros x y Hxy n ? <-. unfold py_round.
  assert (H : round_half_even (x * inject_Z (10 ^ Z.of_N n))
              = round_half_even (y * inject_Z (10 ^ Z.of_N n))).
  { apply round_half_even_comp. rewrite Hxy. reflexivity. }
  rewrite H. reflexivity.
Qed.

(** [round(x, 2)] is a whole number of hundredths, at most half a
    hundredth away from [x]. *)
Lemma py_round_2_hundredths (x : Q) :
  (py_round x 2 == round_half_even (x * 100) # 100)%Q
  /\ (Qabs (py_round x 2 - x) <= 1 # 200)%Q.
Proof.
  assert (Heq : (py_round x 2 == round_half_even (x * 100) # 100)%Q).
  { unfold py_round. change (inject_Z (10 ^ Z.of_N 2)) with (inject_Z 100).
    rewrite (Qmake_Qdiv _ 100). reflexivity. }
  split; [exact Heq|].
  unfold py_round. change (inject_Z (10 ^ Z.of_N 2)) with (100 : Q).
  pose proof (round_half_even_near (x * 100)) as H.
  apply Qabs_Qle_condition in H. apply Qabs_Qle_condition.
  set (r := inject_Z (round_half_even (x * 100))) in *.
  assert (Hd : (r / 100 == r * (1 # 100))%Q) by (field).
  rewrite Hd. split; lra.
Qed.

Lemma fold_left_Qmult_init (xs : list Q) (a : Q) :
  (fold_left Qmult xs a == a * fold_left Qmult xs 1)%Q.
Proof.
  revert a. induction xs as [|x xs IH]; intros a; simpl.
  - ring.
  - rewrite (IH (a * x)%Q), (IH (1 * x)%Q). ring.
Qed.

Lemma fold_left_Qplus_init (xs : list Q) (a : Q) :
  (fold_left Qplus xs a == a + fold_left Qplus xs 0)%Q.
Proof.
  revert a. induction xs as [|x xs IH]; intros a; simpl.
  - ring.
  - rewrite (IH (a + x)%Q), (IH (0 + x)%Q). ring.
Qed.

Lemma series_sum_cons (x : Q) (xs : list Q) :
  (series_sum (x :: xs) == x + series_sum xs)%Q.
Proof.
  unfold series_sum. simpl. rewrite fold_left_Qplus_init. ring.
Qed.

Lemma series_sum_nonneg (xs : list Q) :
  Forall (fun x => (0 <= x)%Q) xs -> (0 <= series_sum xs)%Q.
Proof.
  induction 1 as [|x xs Hx _ IH].
  - unfold series_sum. simpl. lra.
  - rewrite series_sum_cons. lra.
Qed.

(** ** Settlement engine *)

(** Any result other than "Win" and "Loss" settles at zero. *)
Lemma calculate_profit_loss_other (stake odds : Q) (result : string) :
  result <> "Win" -> result <> "Loss" ->
  calculate_profit_loss stake odds result = 0%Q.
Proof.
  intros Hw Hl. unfold calculate_profit_loss.
  apply String.eqb_neq in Hw, Hl. rewrite Hw, Hl. reflexivity.
Qed.

Lemma str_in_iff (x : string) (xs : list string) :
  str_in x xs = true <-> In x xs.
Proof.
  unfold str_in. rewrite existsb_exists. split.
  - intros (y & Hy & E). apply String.eqb_eq in E. subst. exact Hy.
  - intros H. exists x. split; [exact H|apply String.eqb_refl].
Qed.

Lemma str_in_false_iff (x : string) (xs : list string) :
  str_in x xs = false <-> ~ In x xs.
Proof.
  rewrite <- str_in_iff. destruct (str_in x xs); split; congruence.
Qed.

(** The list of errors, by cases on the three tests. *)
Lemma validate_bet_input_cases (stake odds : Q) (result : string) :
  validate_bet_input stake odds result
  = (if Qle_bool stake 0 then [err_stake] else [])
    ++ (if Qlt_bool odds 1 then [err_odds] else [])
    ++ (if str_in result allowed_results then [] else [err_result]).
Proof.
  unfold validate_bet_input.
  destruct (Qle_bool stake 0), (Qlt_bool odds 1),
    (str_in result allowed_results); reflexivity.
Qed.

(** C2. Validation reports every violated rule at once: the stake message
    is present exactly when stake <= 0, the odds message exactly when
    odds < 1.0, the result message exactly when result is none of Pending,
    Win, Loss, Push; nothing else is reported and nothing twice. An input
    breaking all three rules gets exactly three violations, an input
    breaking none gets the empty list. *)
Theorem validate_bet_input_reports_all (stake odds : Q) (result : string) :
  let errors := validate_bet_input stake odds result in
  (In err_stake errors <-> (stake <= 0)%Q)
  /\ (In err_odds errors <-> (odds < 1)%Q)
  /\ (In err_result errors <-> ~ In result ["Pending"; "Win"; "Loss"; "Push"])
  /\ (forall e, In e errors -> e = err_stake \/ e = err_odds \/ e = err_result)
  /\ List.NoDup errors
  /\ ((stake <= 0)%Q -> (odds < 1)%Q ->
      ~ In result ["Pending"; "Win"; "Loss"; "Push"] ->
      errors = [err_stake; err_odds; err_result] /\ length errors = 3%nat)
  /\ ((0 < stake)%Q -> (1 <= odds)%Q ->
      In result ["Pending"; "Win"; "Loss"; "Push"] -> errors = []).
Proof.
  cbv zeta. rewrite validate_bet_input_cases.
  change ["Pending"; "Win"; "Loss"; "Push"] with allowed_results.
  rewrite <- (Qle_bool_iff stake 0), <- (Qlt_bool_iff odds 1),
    <- (str_in_false_iff result allowed_results).
  rewrite <- (Qle_bool_false_iff stake 0), <- (Qlt_bool_false_iff odds 1),
    <- (str_in_iff result allowed_results).
  destruct (Qle_bool stake 0), (Qlt_bool odds 1),
    (str_in result allowed_results); cbn [app];
    repeat match goal with
      | |- _ /\ _ => split
      | |- List.NoDup _ => repeat constructor; cbn; intuition discriminate
      | |- _ <-> _ => cbn; intuition (try discriminate; try congruence)
      | |- forall e, In e _ -> _ => cbn; intuition auto
      | |- _ = _ => reflexivity
      | |- _ -> _ => intros; try congruence
      end.
Qed.

(** The example of the specification: stake=-5, odds=0.5, result="X". *)
Example validate_bet_input_three :
  validate_bet_input (-5) (1 # 2) "X" = [err_stake; err_odds; err_result].
Proof. reflexivity. Qed.

(** ** Parlay odds *)

Lemma reduce_mul_product (legs : list leg) :
  (reduce_mul (map leg_odds legs) 1 == odds_product legs)%Q.
Proof.
  unfold reduce_mul. induction legs as [|l legs IH]; simpl.
  - reflexivity.
  - rewrite fold_left_Qmult_init, IH. ring.
Qed.

Lemma calculate_parlay_odds_round (legs : list leg) :
  (calculate_parlay_odds legs == py_round (odds_product legs) 2)%Q.
Proof.
  destruct legs as [|l legs].
  - reflexivity.
  - unfold calculate_parlay_odds.
    rewrite (reduce_mul_product (l :: legs)). reflexivity.
Qed.

(** ** Metrics engine *)

Lemma series_sum_total_of (column : bet -> Q) (records : list bet) :
  (series_sum (map column records) == total_of column records)%Q.
Proof.
  induction records as [|b rest IH].
  - reflexivity.
  - cbn [map total_of]. rewrite series_sum_cons, IH. reflexivity.
Qed.

Lemma total_of_nonneg (column : bet -> Q) (records : list bet) :
  Forall (fun b => (0 <= column b)%Q) records -> (0 <= total_of column records)%Q.
Proof.
  induction 1 as [|b rest Hb _ IH]; simpl; lra.
Qed.

Lemma frame_empty_true {A : Type} (df : list A) : frame_empty df = true <-> df = [].
Proof. destruct df; simpl; split; congruence. Qed.

Lemma frame_empty_false {A : Type} (df : list A) : frame_empty df = false <-> df <> [].
Proof. destruct df; simpl; split; congruence. Qed.

Lemma settled_test_iff (b : bet) :
  str_in (col_result b) ["Win"; "Loss"] = true <-> is_settled b.
Proof.
  rewrite str_in_iff. unfold is_settled. simpl. intuition congruence.
Qed.

Lemma In_settled (df : list bet) (b : bet) :
  In b (settled df) <-> In b df /\ is_settled b.
Proof.
  unfold settled. rewrite filter_In, settled_test_iff. reflexivity.
Qed.

(** The settled subset is empty exactly when no record is a Win or a Loss. *)
Lemma settled_nil_iff (df : list bet) :
  settled df = [] <-> (forall b, In b df -> ~ is_settled b).
Proof.
  split.
  - intros E b Hb Hs.
    assert (H : In b (settled df)) by (apply In_settled; auto).
    rewrite E in H. destruct H.
  - intros H. destruct (settled df) as [|b rest] eqn:E; [reflexivity|].
    assert (Hb : In b (settled df)) by (rewrite E; left; reflexivity).
    apply In_settled in Hb. destruct Hb as [Hb Hs]. destruct (H b Hb Hs).
Qed.

(** Selecting by result within the settled subset is selecting by result. *)
Lemma filter_settled (value : string) (df : list bet) :
  value = "Win" \/ value = "Loss" ->
  List.filter (result_is value) (settled df) = with_result value df.
Proof.
  intros Hv. unfold settled, with_result.
  induction df as [|b rest IH]; [reflexivity|].
  cbn [List.filter].
  destruct (result_is value b) eqn:Eb.
  - assert (Hs : str_in (col_result b) ["Win"; "Loss"] = true).
    { apply settled_test_iff. unfold result_is in Eb.
      apply String.eqb_eq in Eb. unfold is_settled. rewrite Eb. exact Hv. }
    rewrite Hs. cbn [List.filter]. rewrite Eb, IH. reflexivity.
  - destruct (str_in (col_result b) ["Win"; "Loss"]);
      cbn [List.filter]; rewrite ?Eb; exact IH.
Qed.

(** What the function returns when some record is settled. *)
Lemma calculate_advanced_metrics_populated (df : list bet) :
  settled df <> [] ->
  map fst (calculate_advanced_metrics df) = advanced_keys
  /\ dict_get "total_settled_bets" (calculate_advanced_metrics df)
     = Some (MInt (length (settled df))).
Proof.
  intros Hne. unfold calculate_advanced_metrics.
  destruct df as [|b0 df0]; [destruct Hne; reflexivity|].
  cbn [frame_empty].
  apply frame_empty_false in Hne. rewrite Hne.
  split; reflexivity.
Qed.

(** C6. When no record has result "Win" or "Loss" (Pending and Push records
    may exist) the advanced metrics are the empty object, not zero-filled
    metrics; when at least one record is settled the object is populated:
    it carries exactly the eight metric keys. *)
Theorem calculate_advanced_metrics_absent_or_populated (df : list bet) :
  ((forall b, In b df -> col_result b <> "Win" /\ col_result b <> "Loss") ->
   calculate_advanced_metrics df = [])
  /\ ((exists b, In b df /\ (col_result b = "Win" \/ col_result b = "Loss")) ->
      calculate_advanced_metrics df <> []
      /\ map fst (calculate_advanced_metrics df) = advanced_keys
      /\ dict_get "total_settled_bets" (calculate_advanced_metrics df)
         = Some (MInt (length (settled df)))).
Proof.
  split.
  - intros Hnone.
    assert (E : settled df = []).
    { apply settled_nil_iff. intros b Hb [Hw|Hl];
        destruct (Hnone b Hb); contradiction. }
    unfold calculate_advanced_metrics. rewrite E.
    destruct (frame_empty df); reflexivity.
  - intros (b & Hb & Hs).
    assert (Hne : settled df <> []).
    { intros E. rewrite settled_nil_iff in E. exact (E b Hb Hs). }
    destruct (calculate_advanced_metrics_populated df Hne) as [Hk Hn].
    split; [|split; assumption].
    intros E. rewrite E in Hk. discriminate.
Qed.

Lemma with_result_stakes_nonneg (value : string) (df : list bet) :
  stakes_nonneg df -> stakes_nonneg (with_result value df).
Proof.
  unfold stakes_nonneg, with_result. rewrite !List.Forall_forall.
  intros H b Hb. apply filter_In in Hb. apply H, Hb.
Qed.

(** The profit-factor entry, with the two guarded sums written out. *)
Lemma profit_factor_entry (df : list bet) :
  settled df <> [] ->
  let wins := with_result "Win" df in
  let losses := with_result "Loss" df in
  let total_won :=
    if negb (frame_empty wins)
    then (series_sum (map col_profit_loss wins) + series_sum (map col_stake wins))%Q
    else 0%Q in
  let total_lost :=
    if negb (frame_empty losses) then series_sum (map col_stake losses) else 0%Q in
  dict_get "profit_factor" (calculate_advanced_metrics df)
  = Some (if Qlt_bool 0 total_lost then MFloat (total_won / total_lost) else MInf).
Proof.
  intros Hne. unfold calculate_advanced_metrics.
  destruct df as [|b0 df0]; [destruct Hne; reflexivity|].
  cbn [frame_empty].
  apply frame_empty_false in Hne. rewrite Hne.
  rewrite !filter_settled by auto. reflexivity.
Qed.

Lemma guarded_sum_total (column : bet -> Q) (records : list bet) :
  ((if negb (frame_empty records) then series_sum (map column records) else 0)
   == total_of column records)%Q.
Proof.
  destruct records as [|b rest]; [reflexivity|].
  cbn [frame_empty negb]. apply series_sum_total_of.
Qed.

(** C7. Over a ledger (stakes are never negative there) with a non-empty
    settled subset, the profit factor is (sum of wins' profit_loss + sum of
    wins' stake) divided by the sum of losses' stake, and it is infinite
    when the losses' stakes sum to exactly 0 and at least one win exists. *)
Theorem profit_factor_spec (df : list bet) :
  stakes_nonneg df ->
  settled df <> [] ->
  let wins := with_result "Win" df in
  let losses := with_result "Loss" df in
  let total_won := (total_of col_profit_loss wins + total_of col_stake wins)%Q in
  let total_lost := total_of col_stake losses in
  exists pf,
    dict_get "profit_factor" (calculate_advanced_metrics df) = Some pf
    /\ (~ (total_lost == 0)%Q ->
        exists q, pf = MFloat q /\ (q == total_won / total_lost)%Q)
    /\ ((total_lost == 0)%Q -> wins <> [] -> pf = MInf).
Proof.
  intros Hst Hne wins losses total_won total_lost.
  rewrite (profit_factor_entry df Hne). fold wins losses.
  pose proof (guarded_sum_total col_stake losses) as Hlost.
  fold total_lost in Hlost.
  assert (Hwon :
    ((if negb (frame_empty wins)
      then series_sum (map col_profit_loss wins) + series_sum (map col_stake wins)
      else 0) == total_won)%Q).
  { subst total_won. destruct wins as [|b rest]; [reflexivity|].
    cbn [frame_empty negb]. rewrite !series_sum_total_of. reflexivity. }
  assert (Hge : (0 <= total_lost)%Q).
  { apply (total_of_nonneg col_stake).
    apply (with_result_stakes_nonneg "Loss" df Hst). }
  set (lost := if negb (frame_empty losses)
               then series_sum (map col_stake losses) else 0%Q) in *.
  set (won := if negb (frame_empty wins)
              then (series_sum (map col_profit_loss wins)
                    + series_sum (map col_stake wins))%Q else 0%Q) in *.
  eexists. split; [reflexivity|].
  destruct (Qlt_bool 0 lost) eqn:E.
  - apply Qlt_bool_iff in E. split.
    + intros _. eexists. split; [reflexivity|].
      rewrite Hwon, Hlost. reflexivity.
    + intros Hz. rewrite Hlost, Hz in E. destruct (Qlt_irrefl _ E).
  - apply Qlt_bool_false_iff in E. split.
    + intros Hnz. exfalso. apply Hnz. rewrite Hlost in E. lra.
    + reflexivity.
Qed.

(** C8. Over a ledger (stakes are never negative there), the basic-metrics
    ROI is total profit_loss divided by total stake times 100, and exactly
    the number 0 when the total stake over all records is 0. *)
Theorem calculate_metrics_roi (df : list bet) :
  stakes_nonneg df ->
  let total_pl := total_of col_profit_loss df in
  let total_stake := total_of col_stake df in
  ((total_stake == 0)%Q -> roi_of (calculate_metrics df) = 0%Q)
  /\ (~ (total_stake == 0)%Q ->
      (roi_of (calculate_metrics df) == total_pl / total_stake * 100)%Q).
Proof.
  intros Hst total_pl total_stake.
  assert (Hge : (0 <= total_stake)%Q) by (apply (total_of_nonneg col_stake), Hst).
  unfold calculate_metrics.
  destruct (frame_empty df) eqn:Ee.
  - apply frame_empty_true in Ee. subst df. split; [reflexivity|].
    intros Hnz. destruct Hnz. reflexivity.
  - unfold roi_of. cbn [fst snd].
    pose proof (series_sum_total_of col_stake df) as Hs.
    pose proof (series_sum_total_of col_profit_loss df) as Hp.
    fold total_stake in Hs. fold total_pl in Hp.
    destruct (Qlt_bool 0 (series_sum (map col_stake df))) eqn:E.
    + apply Qlt_bool_iff in E. split.
      * intros Hz. rewrite Hs, Hz in E. destruct (Qlt_irrefl _ E).
      * intros _. rewrite Hs, Hp. reflexivity.
    + apply Qlt_bool_false_iff in E. split; [reflexivity|].
      intros Hnz. exfalso. apply Hnz. rewrite Hs in E. lra.
Qed.

(** ** The store monad *)

Lemma bind_returned {A B : Type} (m : M A) (k : A -> M B) (s s' : db) (a : A) :
  m s = (Returned a, s') -> (m ≫= k) s = k a s'.
Proof. intros H. unfold mbind, M_bind. rewrite H. reflexivity. Qed.

Lemma bind_raised {A B : Type} (m : M A) (k : A -> M B) (s s' : db) (e : exn) :
  m s = (Raised e, s') -> (m ≫= k) s = (Raised e, s').
Proof. intros H. unfold mbind, M_bind. rewrite H. reflexivity. Qed.

Lemma set_table_same (n : tname) (t : table) (s : db) :
  get_table n s = Some t -> set_table n t s = s.
Proof. destruct s, n; simpl; intros ->; reflexivity. Qed.

Lemma get_set_table (n : tname) (t : table) (s : db) :
  get_table n (set_table n t s) = Some t.
Proof. destruct n; reflexivity. Qed.

Lemma set_set_table (n : tname) (t t' : table) (s : db) :
  set_table n t' (set_table n t s) = set_table n t' s.
Proof. destruct n; reflexivity. Qed.

(** ** Bankroll ledger *)

(** C10. For an operation name other than "add", "subtract" and "set", and
    any amount, the bankroll adjustment returns normally (no error is
    signalled) and leaves the store, hence the stored balance, unchanged. *)
Theorem update_bankroll_unknown_operation (amount : Q) (operation : string) (s : db) :
  operation <> "add" -> operation <> "subtract" -> operation <> "set" ->
  update_bankroll amount operation s = (Returned PyNone, s)
  /\ get_bankroll (exec (update_bankroll amount operation) s) = get_bankroll s.
Proof.
  intros Ha Hs Hset.
  assert (E : update_bankroll amount operation s = (Returned PyNone, s)).
  { unfold update_bankroll.
    apply String.eqb_neq in Ha, Hs, Hset. rewrite Ha, Hs, Hset. reflexivity. }
  split; [exact E|]. unfold exec. rewrite E. reflexivity.
Qed.

(** The recognised operations, on a store with the bankroll row. *)
Lemma update_bankroll_known (amount : Q) (s : db) (m : gmap Z Q) (b : Q) :
  bankroll s = Some m -> m !! 1%Z = Some b ->
  get_bankroll (exec (update_bankroll amount "add") s) = Returned (b + amount)%Q
  /\ get_bankroll (exec (update_bankroll amount "subtract") s) = Returned (b - amount)%Q
  /\ get_bankroll (exec (update_bankroll amount "set") s) = Returned amount.
Proof.
  intros Hm Hb.
  unfold exec, update_bankroll, get_bankroll, mbind, M_bind,
    update_bankroll_where_id. cbn. rewrite Hm. cbn.
  rewrite !lookup_alter_eq, Hb. cbn. auto.
Qed.

(** ** Schema manager *)

(** The migration loop never raises: it adds, in order, the columns of
    [todo] that the table did not have when the loop started. *)
Lemma migration_loop (existing : list string) (todo : list (string * string)) :
  forall (t : table) (s : db),
    get_table Bets s = Some t ->
    List.NoDup (map fst todo) ->
    (forall c, In c (map fst todo) -> ~ In c existing -> ~ In c (column_names t)) ->
    for_each todo (fun '(column_name, column_type) =>
      if negb (str_in column_name existing)
      then alter_table_add_column Bets column_name column_type
      else mret tt) s
    = (Returned tt, set_table Bets (migrated existing todo t) s).
Proof.
  induction todo as [|[c ty] rest IH]; intros t s Ht Hnd Hfresh.
  - unfold migrated. cbn [for_each fold_left].
    rewrite set_table_same by exact Ht. reflexivity.
  - cbn [for_each]. cbn [map fst] in Hnd, Hfresh.
    apply List.NoDup_cons_iff in Hnd. destruct Hnd as [Hc Hnd].
    unfold migrated. cbn [fold_left]. unfold add_missing at 2. cbn [fst].
    destruct (str_in c existing) eqn:Ec; cbn [negb].
    + erewrite bind_returned by reflexivity.
      apply IH; auto. intros c' Hc'. apply Hfresh. right. exact Hc'.
    + assert (Hnew : str_in c (column_names t) = false).
      { apply str_in_false_iff. apply Hfresh; [left; reflexivity|].
        apply str_in_false_iff. exact Ec. }
      erewrite bind_returned;
        [|unfold alter_table_add_column; rewrite Ht, Hnew; reflexivity].
      rewrite (IH _ _ (get_set_table _ _ _) Hnd).
      * rewrite set_set_table. reflexivity.
      * intros c' Hc' He. unfold column_names. cbn [columns].
        rewrite map_app, in_app_iff. cbn.
        intros [Hin|[->|[]]].
        -- exact (Hfresh c' (or_intror Hc') He Hin).
        -- exact (Hc Hc').
Qed.

Lemma new_columns_NoDup : List.NoDup (map fst new_columns).
Proof. repeat constructor; cbn; intuition discriminate. Qed.

Lemma migrated_id (existing : list string) (todo : list (string * string)) (t : table) :
  (forall c, In c (map fst todo) -> In c existing) -> migrated existing todo t = t.
Proof.
  unfold migrated. induction todo as [|[c ty] rest IH]; intros H; [reflexivity|].
  cbn [fold_left]. unfold add_missing at 2. cbn [fst].
  assert (Hc : str_in c existing = true).
  { apply str_in_iff, H. left. reflexivity. }
  rewrite Hc. apply IH. intros c' Hc'. apply H. right. exact Hc'.
Qed.

Lemma migrated_columns_mono (existing : list string) (todo : list (string * string)) :
  forall (t : table) (c : string),
    In c (column_names t) -> In c (column_names (migrated existing todo t)).
Proof.
  unfold migrated. induction todo as [|[c0 ty] rest IH]; intros t c Hc; [exact Hc|].
  cbn [fold_left]. apply IH. unfold add_missing. cbn [fst].
  destruct (str_in c0 existing); [exact Hc|].
  unfold column_names. cbn [columns]. rewrite map_app, in_app_iff. left. exact Hc.
Qed.

Lemma migrated_columns_added (existing : list string) (todo : list (string * string)) :
  forall (t : table) (c : string),
    In c (map fst todo) -> ~ In c existing ->
    In c (column_names (migrated existing todo t)).
Proof.
  induction todo as [|[c0 ty] rest IH]; intros t c Hc He; [destruct Hc|].
  unfold migrated. cbn [fold_left]. fold (migrated existing rest).
  destruct (String.eqb_spec c0 c) as [->|Hne].
  - apply migrated_columns_mono. unfold add_missing. cbn [fst].
    apply str_in_false_iff in He. rewrite He.
    unfold column_names. cbn [columns]. rewrite map_app, in_app_iff.
    right. left. reflexivity.
  - apply IH; [|exact He]. destruct Hc as [Hc|Hc]; [contradiction|exact Hc].
Qed.

(** [init_db] always returns, and the store it leaves is [ensured]. *)
Lemma init_db_ensured (s : db) : init_db s = (Returned PyNone, ensured s).
Proof.
  unfold init_db.
  erewrite bind_returned by reflexivity.
  destruct s as [b q m]. cbn [get_table bets].
  set (s1 := {| bets := Some match b with
                             | Some t => migrated (column_names t) new_columns t
                             | None => {| columns := bets_columns; rows := ∅;
                                          last_rowid := 0 |}
                             end;
                quotes := q; bankroll := m |}).
  assert (H1 : forall k : unit -> M pyvalue,
    (match b with
     | Some t =>
         for_each new_columns (fun '(column_name, column_type) =>
           if negb (str_in column_name (column_names t))
           then alter_table_add_column Bets column_name column_type
           else mret tt)
     | None => create_table_if_not_exists Bets bets_columns
     end ≫= k) {| bets := b; quotes := q; bankroll := m |} = k tt s1).
  { intros k. destruct b as [t|].
    - erewrite bind_returned; [reflexivity|].
      rewrite (migration_loop (column_names t) new_columns t);
        [reflexivity|reflexivity|apply new_columns_NoDup|].
      intros c _ Hn Hi. exact (Hn Hi).
    - erewrite bind_returned; reflexivity. }
  rewrite H1. subst s1.
  unfold ensured. cbn [bets quotes bankroll].
  destruct q as [tq|], m as [mb|];
    unfold mbind, M_bind, create_table_if_not_exists,
      create_bankroll_if_not_exists, insert_or_ignore_bankroll;
    cbn [get_table set_table set_bankroll bets quotes bankroll];
    try rewrite lookup_empty;
    try (destruct (mb !! 1%Z)); reflexivity.
Qed.

Lemma schema_ensured_ensured (s : db) : schema_ensured (ensured s).
Proof.
  unfold schema_ensured, ensured. cbn [bets quotes bankroll].
  split; [|split].
  - eexists. split; [reflexivity|].
    intros c Hc. destruct (bets s) as [t|].
    + destruct (in_dec string_dec c (column_names t)) as [Hi|Hn].
      * apply migrated_columns_mono. exact Hi.
      * apply migrated_columns_added; assumption.
    + cbn in Hc |- *. intuition auto.
  - eexists. reflexivity.
  - destruct (match bankroll s with Some m => m | None => ∅ end !! 1%Z) eqn:E.
    + eexists _, _. split; [reflexivity|exact E].
    + eexists _, _. split; [reflexivity|apply lookup_insert_eq].
Qed.

Lemma ensured_fixed (s : db) : schema_ensured s -> ensured s = s.
Proof.
  intros ((t & Ht & Hcols) & (q & Hq) & (m & b & Hm & Hb)).
  destruct s as [sb sq sm]. cbn [bets quotes bankroll] in *. subst.
  unfold ensured. cbn [bets quotes bankroll].
  rewrite Hb, (migrated_id _ _ _ Hcols). reflexivity.
Qed.

Lemma migrated_keeps_values (existing : list string) (todo : list (string * string)) :
  forall (t : table) (key : Z) (r : gmap string sql_value) (c : string),
    rows t !! key = Some r -> In c existing ->
    exists r', rows (migrated existing todo t) !! key = Some r' /\ r' !! c = r !! c.
Proof.
  induction todo as [|[c0 ty] rest IH]; intros t key r c Hr Hc.
  - exists r. split; [exact Hr|reflexivity].
  - unfold migrated. cbn [fold_left]. fold (migrated existing rest).
    unfold add_missing. cbn [fst].
    destruct (str_in c0 existing) eqn:E0; [exact (IH t key r c Hr Hc)|].
    apply str_in_false_iff in E0.
    edestruct (IH {| columns := columns t ++ [(c0, ty)];
                     rows := (fun r => <[c0 := SqlNull]> r) <$> rows t;
                     last_rowid := last_rowid t |} key (<[c0 := SqlNull]> r) c)
      as (r' & Hr' & Hv).
    + cbn [rows]. rewrite lookup_fmap, Hr. reflexivity.
    + exact Hc.
    + exists r'. split; [exact Hr'|]. rewrite Hv.
      apply lookup_insert_ne. intros ->. exact (E0 Hc).
Qed.

(** Migration adds columns and nothing else: a row of a table that was
    already there keeps its key and its value in every column it had. *)
Lemma init_db_keeps_bets (s : db) (t : table) :
  bets s = Some t ->
  exists t1,
    bets (exec init_db s) = Some t1
    /\ (forall c, In c (column_names t) -> In c (column_names t1))
    /\ (forall key r c,
          rows t !! key = Some r -> In c (column_names t) ->
          exists r', rows t1 !! key = Some r' /\ r' !! c = r !! c).
Proof.
  intros Ht. unfold exec. rewrite init_db_ensured. cbn [snd].
  unfold ensured. cbn [bets]. rewrite Ht.
  eexists. split; [reflexivity|]. split.
  - intros c Hc. apply migrated_columns_mono. exact Hc.
  - intros key r c Hr Hc. apply migrated_keeps_values; assumption.
Qed.

(** C9. Schema-ensure is idempotent: from any store, a first run returns
    normally, and a second run right after it returns normally and changes
    nothing (same field set, same rows, same values); a bankroll balance
    that exists is never reset, not even by the first run. *)
Theorem init_db_idempotent (s : db) :
  let s1 := exec init_db s in
  init_db s = (Returned PyNone, s1)
  /\ init_db s1 = (Returned PyNone, s1)
  /\ (forall m, bankroll s = Some m ->
        exists m1, bankroll s1 = Some m1
                   /\ forall k b, m !! k = Some b -> m1 !! k = Some b).
Proof.
  cbv zeta. unfold exec. rewrite (init_db_ensured s). cbn [snd].
  split; [reflexivity|]. split.
  - rewrite init_db_ensured, ensured_fixed; [reflexivity|].
    apply schema_ensured_ensured.
  - intros m Hm. unfold ensured. cbn [bankroll]. rewrite Hm.
    destruct (m !! 1%Z) eqn:E; eexists; (split; [reflexivity|]).
    + auto.
    + intros k b Hk. rewrite lookup_insert_ne; [exact Hk|].
      intros <-. congruence.
Qed.

(** ** The pure functions on floats *)

Lemma round_half_even_nonneg (x : Q) : (0 <= x)%Q -> (0 <= round_half_even x)%Z.
Proof.
  intros Hx. assert (Hf : (0 <= Qfloor x)%Z).
  { change 0%Z with (Qfloor 0). apply Qfloor_resp_le. exact Hx. }
  unfold round_half_even.
  destruct (x - inject_Z (Qfloor x) ?= 1 # 2)%Q; [destruct (Z.even _)| |]; lia.
Qed.

Lemma magnitude_nonneg (x : float) : (0 <= Float64.magnitude x)%Q.
Proof.
  unfold Float64.magnitude. destruct (Prim2SF x) as [s|s| |s m e]; try lra.
  apply Qmult_le_0_compat; [discriminate|].
  apply Qpower_0_le. discriminate.
Qed.

(** [round(x, 2)] of a finite float: the float nearest to a whole number
    of hundredths that is at most half a hundredth from the value of [x]. *)
Lemma py_round_2_finite (x : float) :
  is_finite x = true ->
  let k := round_half_even (Float64.magnitude x * 100) in
  Float64.py_round x 2 = Float64.nearest (get_sign x) k 100
  /\ (0 <= k)%Z
  /\ (Qabs (inject_Z k / 100 - Float64.magnitude x) <= 1 # 200)%Q.
Proof.
  intros Hx k. split; [|split].
  - unfold Float64.py_round. rewrite Hx. reflexivity.
  - apply round_half_even_nonneg.
    apply Qmult_le_0_compat; [apply magnitude_nonneg|discriminate].
  - pose proof (round_half_even_near (Float64.magnitude x * 100)) as H.
    fold k in H. apply Qabs_Qle_condition in H. apply Qabs_Qle_condition.
    set (r := inject_Z k) in *.
    assert (Hd : (r / 100 == r * (1 # 100))%Q) by field.
    rewrite Hd. split; lra.
Qed.

Lemma py_round_not_finite (x : float) (ndigits : N) :
  is_finite x = false -> Float64.py_round x ndigits = x.
Proof. intros Hx. unfold Float64.py_round. rewrite Hx. reflexivity. Qed.

(** C1, amended. For every stake and odds the settlement function returns
    (stake * odds) - stake, each operation rounded to the nearest float, for
    "Win"; -stake for "Loss"; and 0 for "Push", for "Pending" and for any
    other result. Over exact numbers the "Win" value is stake*(odds-1);
    on floats it is not always so (the counterexample below). *)
Theorem calculate_profit_loss_float_spec (stake odds : float) :
  Float64.calculate_profit_loss stake odds "Win" = (stake * odds - stake)%float
  /\ Float64.calculate_profit_loss stake odds "Loss" = (- stake)%float
  /\ Float64.calculate_profit_loss stake odds "Push" = 0%float
  /\ Float64.calculate_profit_loss stake odds "Pending" = 0%float
  /\ (forall result : string,
        result <> "Win" -> result <> "Loss" ->
        Float64.calculate_profit_loss stake odds result = 0%float)
  /\ (forall s o : Q, (calculate_profit_loss s o "Win" == s * (o - 1))%Q).
Proof.
  repeat split; try reflexivity.
  - intros result Hw Hl. unfold Float64.calculate_profit_loss.
    destruct (String.eqb_spec result "Win"); [contradiction|].
    destruct (String.eqb_spec result "Loss"); [contradiction|reflexivity].
  - intros s o. unfold calculate_profit_loss. simpl. ring.
Qed.

Lemma calculate_profit_loss_float_spec_witness :
  Float64.calculate_profit_loss 100 2.5 "Win" = 150%float
  /\ Float64.calculate_profit_loss 100 2.5 "Loss" = (-100)%float
  /\ Float64.calculate_profit_loss 100 2.5 "Push" = 0%float
  /\ Float64.calculate_profit_loss 100 2.5 "Pending" = 0%float
  /\ Float64.calculate_profit_loss 100 2.5 "Void" = 0%float.
Proof.
  destruct (calculate_profit_loss_float_spec 100 2.5)
    as (Hw & Hl & Hp & Hq & Ho & _).
  split; [rewrite Hw; reflexivity|]. split; [rewrite Hl; reflexivity|].
  split; [exact Hp|]. split; [exact Hq|].
  apply Ho; discriminate.
Defined.

(** C1 as first stated fails on the numbers the program computes with: at
    stake 0.1 and odds 3 (a stake above 0, odds of at least 1.0) a "Win"
    settles at 0.20000000000000004, and stake*(odds-1) is 0.2, whether it
    is computed on floats or exactly from the values of the two floats. *)
Lemma calculate_profit_loss_win_not_stake_times_net_odds :
  (0 <? 0.1)%float = true /\ (1.0 <=? 3)%float = true
  /\ Float64.calculate_profit_loss 0.1 3 "Win" = 0.20000000000000004%float
  /\ (0.1 * (3 - 1))%float = 0.2%float
  /\ (Float64.calculate_profit_loss 0.1 3 "Win" =? 0.1 * (3 - 1))%float = false
  /\ Float64.calculate_profit_loss 0.1 3 "Win" <> (0.1 * (3 - 1))%float
  /\ ~ (Float64.to_Q (Float64.calculate_profit_loss 0.1 3 "Win")
        == Float64.to_Q 0.1 * (Float64.to_Q 3 - 1))%Q.
Proof.
  repeat split; try reflexivity.
  - intros H. apply (f_equal Prim2SF) in H. vm_compute in H. discriminate H.
  - intros H. vm_compute in H. discriminate H.
Qed.



(** The product is the one the floats give, so the hundredth can differ
    from that of the decimal product: 1.02 * 1.25 is 1.275 in decimals,
    which rounds to 1.28, and the function returns 1.27. *)
Example calculate_parlay_odds_float_product :
  Float64.calculate_parlay_odds
    [Float64.leg_with_odds 1.02; Float64.leg_with_odds 1.25] = 1.27%float
  /\ Float64.calculate_parlay_odds
       [Float64.leg_with_odds 1.05; Float64.leg_with_odds 1.9] = 1.99%float
  /\ (calculate_parlay_odds
        [leg_with_odds (102 # 100); leg_with_odds (125 # 100)] == 128 # 100)%Q.
Proof. repeat split; reflexivity. Qed.

(** ** Validation on floats *)

Lemma SFcompare_antisym (x y : spec_float) :
  SFcompare y x = option_map CompOpp (SFcompare x y).
Proof.
  destruct x as [s1|s1| |s1 m1 e1], y as [s2|s2| |s2 m2 e2]; cbn;
    try reflexivity; try (destruct s1; reflexivity);
    try (destruct s2; reflexivity);
    try (destruct s1, s2; reflexivity).
  f_equal. rewrite (Z.compare_antisym e1 e2).
  destruct s1, s2; try reflexivity;
    destruct (e1 ?= e2)%Z; cbn; try reflexivity.
  - f_equal. exact (eq_sym (Pos.compare_cont_antisym m1 m2 Eq)).
  - exact (eq_sym (Pos.compare_cont_antisym m1 m2 Eq)).
Qed.

Lemma is_nan_false (x : float) : is_nan x = false -> Prim2SF x <> S754_nan.
Proof.
  unfold is_nan. rewrite FloatAxioms.eqb_spec. intros H E. rewrite E in H. discriminate.
Qed.

Lemma SFcompare_some (x y : spec_float) :
  x <> S754_nan -> y <> S754_nan -> exists c, SFcompare x y = Some c.
Proof.
  intros Hx Hy.
  destruct x as [s1|s1| |s1 m1 e1], y as [s2|s2| |s2 m2 e2];
    try congruence; cbn; eexists; reflexivity.
Qed.

(** Floats that are not NaN are totally ordered. *)
Lemma float_not_lt (x y : float) :
  is_nan x = false -> is_nan y = false ->
  (x <? y)%float = negb (y <=? x)%float.
Proof.
  intros Hx Hy. rewrite FloatAxioms.ltb_spec, FloatAxioms.leb_spec. unfold SFltb, SFleb.
  rewrite (SFcompare_antisym (Prim2SF x) (Prim2SF y)).
  destruct (SFcompare_some _ _ (is_nan_false x Hx) (is_nan_false y Hy))
    as [c Hc].
  rewrite Hc. destruct c; reflexivity.
Qed.

(** A comparison with a NaN is false. *)
Lemma float_nan_compare (x y : float) :
  is_nan x = true \/ is_nan y = true ->
  (x <? y)%float = false /\ (x <=? y)%float = false.
Proof.
  unfold is_nan. rewrite FloatAxioms.ltb_spec, FloatAxioms.leb_spec, !FloatAxioms.eqb_spec.
  unfold SFltb, SFleb, SFeqb.
  intros [H|H].
  - destruct (Prim2SF x) as [s1|s1| |s1 m1 e1] eqn:E; cbn in *;
      try (split; reflexivity); try discriminate.
    + destruct s1; discriminate.
    + rewrite Z.compare_refl in H.
      destruct s1; cbn in H; rewrite Pos.compare_cont_refl in H; discriminate.
  - destruct (Prim2SF y) as [s1|s1| |s1 m1 e1] eqn:E; cbn in *;
      try discriminate.
    + destruct s1; discriminate.
    + destruct (Prim2SF x); split; reflexivity.
    + rewrite Z.compare_refl in H.
      destruct s1; cbn in H; rewrite Pos.compare_cont_refl in H; discriminate.
Qed.

Lemma validate_bet_input_float_cases (stake odds : float) (result : string) :
  Float64.validate_bet_input stake odds result
  = (if (stake <=? 0)%float then [err_stake] else [])
    ++ (if (odds <? 1.0)%float then [err_odds] else [])
    ++ (if str_in result allowed_results then [] else [err_result]).
Proof.
  unfold Float64.validate_bet_input.
  destruct (stake <=? 0)%float, (odds <? 1.0)%float,
    (str_in result allowed_results); reflexivity.
Qed.

(** X25. Validation on floats. When stake and odds are not NaN, no
    violation is reported exactly when stake > 0, odds >= 1.0 and the result
    is one of the four. A NaN stake or a NaN odds is never reported, both
    comparisons being false: [validate_bet_input(nan, nan, "Win")] is
    empty. *)
Theorem validate_bet_input_float (stake odds : float) (result : string) :
  (is_nan stake = false -> is_nan odds = false ->
   (Float64.validate_bet_input stake odds result = []
    <-> (0 <? stake)%float = true /\ (1.0 <=? odds)%float = true
        /\ In result ["Pending"; "Win"; "Loss"; "Push"]))
  /\ (is_nan stake = true ->
      ~ In err_stake (Float64.validate_bet_input stake odds result))
  /\ (is_nan odds = true ->
      ~ In err_odds (Float64.validate_bet_input stake odds result))
  /\ Float64.validate_bet_input nan nan "Win" = [].
Proof.
  rewrite validate_bet_input_float_cases.
  split; [|split; [|split; [|reflexivity]]].
  - intros Hs Ho.
    rewrite (float_not_lt 0 stake eq_refl Hs).
    rewrite (float_not_lt odds 1.0 Ho eq_refl).
    rewrite <- (str_in_iff result ["Pending"; "Win"; "Loss"; "Push"]).
    change ["Pending"; "Win"; "Loss"; "Push"] with allowed_results.
    destruct (stake <=? 0)%float, (1.0 <=? odds)%float,
      (str_in result allowed_results); cbn; split;
      try discriminate; try tauto; intros (? & ? & ?); discriminate.
  - intros Hs.
    destruct (float_nan_compare stake 0 (or_introl Hs)) as [_ ->].
    destruct (odds <? 1.0)%float, (str_in result allowed_results); cbn;
      intros H; repeat destruct H as [H|H]; try discriminate H; exact H.
  - intros Ho.
    destruct (float_nan_compare odds 1.0 (or_introl Ho)) as [-> _].
    destruct (stake <=? 0)%float, (str_in result allowed_results); cbn;
      intros H; repeat destruct H as [H|H]; try discriminate H; exact H.
Qed.

Lemma validate_bet_input_float_witness :
  is_nan 100 = false /\ is_nan 2.5 = false
  /\ (Float64.validate_bet_input 100 2.5 "Win" = []
      <-> (0 <? 100)%float = true /\ (1.0 <=? 2.5)%float = true
          /\ In "Win" ["Pending"; "Win"; "Loss"; "Push"]).
Proof.
  split; [reflexivity|]. split; [reflexivity|].
  exact (proj1 (validate_bet_input_float 100 2.5 "Win") eq_refl eq_refl).
Defined.

(** ** Exact numbers for finite floats *)

Lemma digits2_pos_size (m : positive) : digits2_pos m = Pos.size m.
Proof. induction m as [m IH|m IH|]; simpl; congruence. Qed.

(** The mantissa of a float has at most 53 bits, and exactly 53 unless the
    exponent is the least one. *)
Lemma valid_mantissa (s : bool) (m : positive) (e : Z) :
  valid_binary (S754_finite s m e) = true ->
  (Zpos m < 2 ^ 53)%Z /\ ((-1074 < e)%Z -> (2 ^ 52 <= Zpos m)%Z).
Proof.
  unfold SpecFloat.valid_binary, bounded, canonical_mantissa, fexp.
  rewrite andb_true_iff, Z.eqb_eq, digits2_pos_size.
  change (SpecFloat.emin prec emax) with (-1074)%Z. change prec with 53%Z.
  intros [Hc _].
  pose proof (Pos.size_gt m) as Hgt. pose proof (Pos.size_le m) as Hle.
  apply Pos2Z.pos_lt_pos in Hgt. apply Pos2Z.pos_le_pos in Hle.
  rewrite Pos2Z.inj_pow in Hgt, Hle. rewrite Pos2Z.inj_xO in Hle.
  set (d := Zpos (Pos.size m)) in *.
  assert (Hd : (0 < d)%Z) by (unfold d; lia).
  split.
  - assert (H : (2 ^ d <= 2 ^ 53)%Z) by (apply Z.pow_le_mono_r; lia). lia.
  - intros He. assert (E : d = 53%Z) by lia. rewrite E in Hle.
    change (2 ^ 53)%Z with (2 * 2 ^ 52)%Z in Hle. lia.
Qed.

Lemma finite_cases (x : float) :
  is_finite x = true ->
  (exists s, Prim2SF x = S754_zero s)
  \/ (exists s m e, Prim2SF x = S754_finite s m e).
Proof.
  unfold is_finite, is_nan, is_infinity.
  rewrite !FloatAxioms.eqb_spec, abs_spec.
  change (Prim2SF infinity) with (S754_infinity false).
  destruct (Prim2SF x) as [s|s| |s m e]; cbn.
  - intros _. left. exists s. reflexivity.
  - destruct s; discriminate.
  - discriminate.
  - intros _. right. exists s, m, e. reflexivity.
Qed.

Lemma get_sign_finite (x : float) (s : bool) (m : positive) (e : Z) :
  Prim2SF x = S754_finite s m e -> get_sign x = s.
Proof.
  intros E. unfold get_sign, is_zero.
  rewrite FloatAxioms.eqb_spec, E. change (Prim2SF zero) with (S754_zero false).
  destruct s; cbn [SFeqb SFcompare]; rewrite FloatAxioms.ltb_spec, E;
    reflexivity.
Qed.

Lemma to_Q_zero (x : float) (s : bool) :
  Prim2SF x = S754_zero s -> (Float64.to_Q x == 0)%Q.
Proof.
  intros E. unfold Float64.to_Q, Float64.magnitude. rewrite E.
  destruct (get_sign x); reflexivity.
Qed.

Lemma to_Q_finite (x : float) (s : bool) (m : positive) (e : Z) :
  Prim2SF x = S754_finite s m e ->
  Float64.to_Q x
  = if s then (- (inject_Z (Zpos m) * 2 ^ e))%Q else (inject_Z (Zpos m) * 2 ^ e)%Q.
Proof.
  intros E. unfold Float64.to_Q, Float64.magnitude.
  rewrite (get_sign_finite x s m e E), E. reflexivity.
Qed.

Lemma mantissa_power_pos (m : positive) (e : Z) : (0 < inject_Z (Zpos m) * 2 ^ e)%Q.
Proof.
  apply Qmult_lt_0_compat; [reflexivity|]. apply Qpower_0_lt. reflexivity.
Qed.

(** Where a float of positive sign lies with respect to 1.0, by its
    exponent and mantissa. *)
Lemma mantissa_power_one (s : bool) (m : positive) (e : Z) :
  valid_binary (S754_finite s m e) = true ->
  match (e ?= -52)%Z with
  | Lt => (inject_Z (Zpos m) * 2 ^ e < 1)%Q
  | Gt => (1 <= inject_Z (Zpos m) * 2 ^ e)%Q
  | Eq => match Pos.compare_cont Eq m 4503599627370496 with
          | Lt => (inject_Z (Zpos m) * 2 ^ e < 1)%Q
          | _ => (1 <= inject_Z (Zpos m) * 2 ^ e)%Q
          end
  end.
Proof.
  intros Hv. destruct (valid_mantissa s m e Hv) as [Hhi Hlo].
  change (2 ^ 53)%Z with 9007199254740992%Z in Hhi.
  change (2 ^ 52)%Z with 4503599627370496%Z in Hlo.
  pose proof (Qpower_0_lt 2 e eq_refl) as Hp.
  destruct (Z.compare_spec e (-52)) as [E|E|E].
  - subst e.
    assert (H52 : (2 ^ (-52) == 1 # 4503599627370496)%Q) by reflexivity.
    destruct (Pos.compare_cont Eq m 4503599627370496) eqn:Em.
    + apply (Pos.compare_eq m 4503599627370496) in Em. subst m. discriminate.
    + apply (proj1 (Pos.compare_lt_iff m 4503599627370496)) in Em.
      apply Pos2Z.pos_lt_pos in Em.
      rewrite Zlt_Qlt in Em. change (inject_Z 4503599627370496)
        with 4503599627370496%Q in Em. rewrite H52. lra.
    + apply (proj1 (Pos.compare_gt_iff m 4503599627370496)) in Em.
      apply Pos2Z.pos_lt_pos in Em.
      rewrite Zlt_Qlt in Em. change (inject_Z 4503599627370496)
        with 4503599627370496%Q in Em. rewrite H52. lra.
  - assert (H53 : (2 ^ e <= 1 # 9007199254740992)%Q).
    { assert (H : (2 ^ (-53) == 1 # 9007199254740992)%Q) by reflexivity.
      rewrite <- H. apply Qpower_le_compat_l; [lia|discriminate]. }
    rewrite Zlt_Qlt in Hhi.
    change (inject_Z 9007199254740992) with 9007199254740992%Q in Hhi.
    assert (H0 : (0 < inject_Z (Zpos m))%Q) by reflexivity.
    nra.
  - assert (H51 : (1 # 2251799813685248 <= 2 ^ e)%Q).
    { assert (H : (2 ^ (-51) == 1 # 2251799813685248)%Q) by reflexivity.
      rewrite <- H. apply Qpower_le_compat_l; [lia|discriminate]. }
    assert (Hm := Hlo ltac:(lia)). rewrite Zle_Qle in Hm.
    change (inject_Z 4503599627370496) with 4503599627370496%Q in Hm.
    nra.
Qed.

Lemma float_leb_zero (x : float) :
  is_finite x = true -> (x <=? 0)%float = Qle_bool (Float64.to_Q x) 0.
Proof.
  intros Hx. rewrite FloatAxioms.leb_spec.
  change (Prim2SF 0) with (S754_zero false).
  destruct (finite_cases x Hx) as [[s E]|(s & m & e & E)].
  - rewrite (Qleb_comp _ _ (to_Q_zero x s E) _ _ (Qeq_refl 0)), E. reflexivity.
  - rewrite (to_Q_finite x s m e E), E.
    pose proof (mantissa_power_pos m e) as Hp.
    destruct s; cbn [SFleb SFcompare]; symmetry.
    + apply Qle_bool_iff. lra.
    + apply Qle_bool_false_iff. exact Hp.
Qed.

Lemma float_ltb_one (x : float) :
  is_finite x = true -> (x <? 1.0)%float = Qlt_bool (Float64.to_Q x) 1.
Proof.
  intros Hx. rewrite FloatAxioms.ltb_spec.
  change (Prim2SF 1.0) with (S754_finite false 4503599627370496 (-52)).
  destruct (finite_cases x Hx) as [[s E]|(s & m & e & E)].
  - pose proof (to_Q_zero x s E) as Hz. rewrite E. cbn [SFltb SFcompare].
    symmetry. apply Qlt_bool_iff. rewrite Hz. reflexivity.
  - pose proof (Prim2SF_valid x) as Hv. rewrite E in Hv.
    pose proof (mantissa_power_one s m e Hv) as H1.
    pose proof (mantissa_power_pos m e) as Hp.
    rewrite (to_Q_finite x s m e E), E. unfold SFltb, SFcompare.
    destruct s; symmetry.
    + apply Qlt_bool_iff. lra.
    + destruct (e ?= -52)%Z;
        [destruct (Pos.compare_cont Eq m 4503599627370496)|..];
        first [apply Qlt_bool_iff; exact H1
              |apply Qlt_bool_false_iff; exact H1].
Qed.

(** X26. On finite floats validation is validation of the numbers they
    stand for: [validate_bet_input] over floats returns, for a finite stake
    and finite odds, the list that its embedding over exact numbers returns
    for their values. *)
Theorem validate_bet_input_finite (stake odds : float) (result : string) :
  is_finite stake = true -> is_finite odds = true ->
  Float64.validate_bet_input stake odds result
  = validate_bet_input (Float64.to_Q stake) (Float64.to_Q odds) result.
Proof.
  intros Hs Ho.
  rewrite validate_bet_input_float_cases, validate_bet_input_cases.
  rewrite (float_leb_zero stake Hs), (float_ltb_one odds Ho). reflexivity.
Qed.

Lemma validate_bet_input_finite_witness :
  is_finite (-5) = true /\ is_finite 0.5 = true
  /\ Float64.validate_bet_input (-5) 0.5 "X"
     = validate_bet_input (Float64.to_Q (-5)) (Float64.to_Q 0.5) "X"
  /\ Float64.validate_bet_input (-5) 0.5 "X" = [err_stake; err_odds; err_result]
  /\ (Float64.to_Q (-5) == - 5)%Q /\ (Float64.to_Q 0.5 == 1 # 2)%Q.
Proof.
  split; [reflexivity|]. split; [reflexivity|].
  split; [exact (validate_bet_input_finite (-5) 0.5 "X" eq_refl eq_refl)|].
  split; [reflexivity|]. split; reflexivity.
Defined.

(** ** Bet ledger store *)

Lemma foldr_max_ge (ks : list Z) (k : Z) : In k ks -> (k <= foldr Z.max 0 ks)%Z.
Proof.
  induction ks as [|k0 ks IH]; intros Hk; [destruct Hk|].
  cbn [foldr]. destruct Hk as [->|Hk]; [lia|]. specialize (IH Hk). lia.
Qed.

Lemma max_rowid_ge (rs : gmap Z (gmap string sql_value)) (k : Z) :
  is_Some (rs !! k) -> (k <= max_rowid rs)%Z.
Proof.
  intros [r Hr]. apply foldr_max_ge.
  apply elem_of_map_to_list, list_elem_of_In in Hr.
  apply (in_map fst) in Hr. exact Hr.
Qed.

(** AUTOINCREMENT hands out a key that is not in use. *)
Lemma autoincrement_fresh (t : table) :
  rows t !! (Z.max (last_rowid t) (max_rowid (rows t)) + 1)%Z = None.
Proof.
  destruct (rows t !! _) as [r|] eqn:E; [|reflexivity].
  pose proof (max_rowid_ge (rows t) _ (ex_intro _ r E)). lia.
Qed.

Lemma new_row_lookup (cols : list string) (assignments : list (string * sql_value))
  (c : string) :
  In c cols -> c <> "id" ->
  new_row cols assignments !! c = Some (default SqlNull (assigned c assignments)).
Proof.
  intros Hc Hid. induction cols as [|c0 cols IH]; [destruct Hc|].
  cbn [new_row foldr]. fold (new_row cols assignments).
  destruct (String.eqb_spec c0 "id") as [->|Hne0].
  - destruct Hc as [<-|Hc]; [congruence|auto].
  - destruct (string_dec c0 c) as [->|Hne].
    + apply lookup_insert_eq.
    + rewrite lookup_insert_ne by exact Hne.
      destruct Hc as [Hc|Hc]; [contradiction|auto].
Qed.

Lemma missing_column_None (t : table) (assignments : list (string * sql_value)) :
  missing_column t assignments = None ->
  forall c v, In (c, v) assignments -> In c (column_names t).
Proof.
  unfold missing_column. intros H c v Hin.
  apply fmap_None in H.
  pose proof (List.find_none _ _ H (c, v) Hin) as Hf. cbn [fst] in Hf.
  apply negb_false_iff, str_in_iff in Hf. exact Hf.
Qed.

Lemma missing_column_app_None (t : table) (a1 a2 : list (string * sql_value)) :
  missing_column t (a1 ++ a2) = None -> missing_column t a1 = None.
Proof.
  unfold missing_column. intros H. apply fmap_None in H. apply fmap_None.
  destruct (List.find _ a1) as [x|] eqn:E; [|reflexivity].
  apply List.find_some in E. destruct E as [Hx Hf].
  pose proof (List.find_none _ _ H x) as Hn.
  rewrite Hn in Hf; [discriminate|]. apply in_app_iff. left. exact Hx.
Qed.

Lemma has_columns_In (t : table) (names : list string) :
  has_columns t names = true -> forall c, In c names -> In c (column_names t).
Proof.
  unfold has_columns. rewrite forallb_forall.
  intros H c Hc. apply str_in_iff, H, Hc.
Qed.

Lemma missing_column_complete (t : table) (assignments : list (string * sql_value)) :
  (forall a, In a assignments -> In (fst a) (column_names t)) ->
  missing_column t assignments = None.
Proof.
  intros H. unfold missing_column. apply fmap_None.
  induction assignments as [|a rest IH]; [reflexivity|].
  cbn [List.find].
  assert (Ha : str_in (fst a) (column_names t) = true).
  { apply str_in_iff, H. left. reflexivity. }
  rewrite Ha. cbn [negb]. apply IH. intros a' Ha'. apply H. right. exact Ha'.
Qed.

Lemma alter_absent {A : Type} (f : A -> A) (k : Z) (m : gmap Z A) :
  m !! k = None -> alter f k m = m.
Proof.
  intros H. apply map_eq. intros j.
  destruct (decide (k = j)) as [<-|Hne].
  - rewrite lookup_alter_eq, H. reflexivity.
  - apply lookup_alter_ne. exact Hne.
Qed.

Section LedgerProperties.

Variable json_dumps : list leg -> string.
Variables date team_a team_b bet_type sport : string.
Variables stake odds : Q.
Variables result notes : string.
Variable is_parlay : bool.
Variable parlay_legs : option (list leg).

(** The values bound by the INSERT and UPDATE statements for these
    fields, [profit_loss] being derived by the settlement engine. *)
Local Abbreviation bound :=
  (bet_assignments json_dumps date team_a team_b bet_type sport stake odds
     result (calculate_profit_loss stake odds result) notes is_parlay
     parlay_legs).

Lemma bound_assigned (c : string) (v : sql_value) :
  In (c, v) bound -> assigned c bound = Some v /\ c <> "id".
Proof using Type.
  unfold bet_assignments. cbn [In].
  intros H.
  repeat (destruct H as [H|H];
          [injection H as <- <-; split; [reflexivity|discriminate]|]).
  destruct H.
Qed.

Lemma bound_columns (t : table) (bet_id : Z) :
  has_columns t ledger_columns = true ->
  missing_column t bound = None
  /\ missing_column t (bound ++ [("id", SqlInt bet_id)]) = None.
Proof using Type.
  intros H. pose proof (has_columns_In t _ H) as Hin.
  assert (H2 : missing_column t (bound ++ [("id", SqlInt bet_id)]) = None).
  { apply missing_column_complete. intros a Ha. apply Hin.
    unfold bet_assignments in Ha. cbn [app In] in Ha. cbn.
    repeat (destruct Ha as [<-|Ha]; [cbn [fst]; tauto|]). destruct Ha. }
  split; [|exact H2]. exact (missing_column_app_None _ _ _ H2).
Qed.

Lemma validation_passed :
  validate_bet_input stake odds result = [] ->
  negb (frame_empty (validate_bet_input stake odds result)) = false.
Proof using Type. intros ->. reflexivity. Qed.

Lemma validation_failed :
  validate_bet_input stake odds result <> [] ->
  negb (frame_empty (validate_bet_input stake odds result)) = true.
Proof using Type.
  intros H. apply frame_empty_false in H. rewrite H. reflexivity.
Qed.

(** C4, as the code has it. On valid input, and a [bets] table with the
    columns of the current schema, [add_bet] inserts one row under a key
    that was not in use, holding every submitted field and the derived
    profit_loss, and returns [None] (not the key). On invalid input it
    raises [ValueError] with all the violated rules, joined by "; ", and
    the store is untouched. *)
Theorem add_bet_spec (s : db) :
  let errors := validate_bet_input stake odds result in
  (errors = [] ->
   forall t, bets s = Some t -> has_columns t ledger_columns = true ->
     exists (new_id : Z) (row : gmap string sql_value),
       rows t !! new_id = None
       /\ (forall c v, In (c, v) bound -> row !! c = Some v)
       /\ add_bet json_dumps date team_a team_b bet_type sport stake odds
            result notes is_parlay parlay_legs s
          = (Returned PyNone,
             set_table Bets {| columns := columns t;
                               rows := <[new_id := row]> (rows t);
                               last_rowid := new_id |} s))
  /\ (errors <> [] ->
      add_bet json_dumps date team_a team_b bet_type sport stake odds
        result notes is_parlay parlay_legs s
      = (Raised (ValueError (String.concat "; " errors)), s)).
Proof using Type.
  cbv zeta. split.
  - intros Hok t Ht Hready.
    destruct (bound_columns t 0 Hready) as [Hcols _].
    exists (Z.max (last_rowid t) (max_rowid (rows t)) + 1)%Z,
      (new_row (column_names t) bound).
    split; [apply autoincrement_fresh|]. split.
    + intros c v Hin. destruct (bound_assigned c v Hin) as [Ha Hid].
      rewrite new_row_lookup; [rewrite Ha; reflexivity| |exact Hid].
      exact (missing_column_None t _ Hcols c v Hin).
    + unfold add_bet. rewrite (validation_passed Hok).
      erewrite bind_returned; [reflexivity|].
      unfold insert_into. cbn [get_table]. rewrite Ht, Hcols. reflexivity.
  - intros Hbad. unfold add_bet. rewrite (validation_failed Hbad). reflexivity.
Qed.

(** C5, as the code has it. For an id that is not in the [bets] table,
    [update_bet] with valid fields returns [None] like any other update:
    no "not found" condition is raised, and the store is unchanged. *)
Theorem update_bet_absent_id (bet_id : Z) (s : db) (t : table) :
  validate_bet_input stake odds result = [] ->
  bets s = Some t ->
  has_columns t ledger_columns = true ->
  rows t !! bet_id = None ->
  update_bet json_dumps bet_id date team_a team_b bet_type sport stake odds
    result notes is_parlay parlay_legs s
  = (Returned PyNone, s).
Proof using Type.
  intros Hok Ht Hready Habsent.
  destruct (bound_columns t bet_id Hready) as [_ Hcols].
  unfold update_bet. rewrite (validation_passed Hok).
  erewrite bind_returned; [reflexivity|].
  unfold update_where_id. cbn [get_table]. rewrite Ht, Hcols.
  rewrite (alter_absent _ _ _ Habsent).
  f_equal. destruct s as [sb sq sm]. cbn in Ht |- *. subst sb.
  destruct t. reflexivity.
Qed.

(** For an id that is in the table, every bound column is overwritten. *)
Lemma update_bet_present_id (bet_id : Z) (s : db) (t : table)
  (old : gmap string sql_value) :
  validate_bet_input stake odds result = [] ->
  bets s = Some t ->
  has_columns t ledger_columns = true ->
  rows t !! bet_id = Some old ->
  update_bet json_dumps bet_id date team_a team_b bet_type sport stake odds
    result notes is_parlay parlay_legs s
  = (Returned PyNone,
     set_table Bets {| columns := columns t;
                       rows := <[bet_id := assign_all bound old]> (rows t);
                       last_rowid := last_rowid t |} s).
Proof using Type.
  intros Hok Ht Hready Hold.
  destruct (bound_columns t bet_id Hready) as [_ Hcols].
  unfold update_bet. rewrite (validation_passed Hok).
  erewrite bind_returned; [reflexivity|].
  unfold update_where_id. cbn [get_table]. rewrite Ht, Hcols.
  do 3 f_equal. apply map_eq. intros j.
  destruct (decide (bet_id = j)) as [<-|Hne].
  - rewrite lookup_alter_eq, lookup_insert_eq, Hold. reflexivity.
  - rewrite lookup_alter_ne, lookup_insert_ne by exact Hne. reflexivity.
Qed.

End LedgerProperties.

(** ** The functions at sample inputs *)

Lemma sample_stakes_nonneg : stakes_nonneg sample_ledger.
Proof. repeat constructor; discriminate. Defined.

Lemma sample_settled : settled sample_ledger <> [].
Proof. discriminate. Defined.

(** The end-to-end scenario: total P/L 50, ROI 33.33%, win rate 50%, two
    records; profit factor 4.0 and expected value 25. *)
Example sample_ledger_metrics :
  (let '(total_pl, roi, win_rate, n) := calculate_metrics sample_ledger in
   (total_pl == 50)%Q /\ (roi == 100 # 3)%Q /\ (win_rate == 50)%Q /\ n = 2%nat)
  /\ (exists pf ev,
        dict_get "profit_factor" (calculate_advanced_metrics sample_ledger)
        = Some (MFloat pf)
        /\ dict_get "expected_value" (calculate_advanced_metrics sample_ledger)
           = Some (MFloat ev)
        /\ (pf == 4)%Q /\ (ev == 25)%Q).
Proof.
  split.
  - vm_compute. repeat split; reflexivity.
  - eexists _, _. split; [reflexivity|]. split; [reflexivity|].
    split; reflexivity.
Qed.

Lemma profit_factor_spec_witness :
  stakes_nonneg sample_ledger /\ settled sample_ledger <> []
  /\ exists pf,
       dict_get "profit_factor" (calculate_advanced_metrics sample_ledger) = Some pf
       /\ (~ (total_of col_stake (with_result "Loss" sample_ledger) == 0)%Q ->
           exists q, pf = MFloat q
             /\ (q == (total_of col_profit_loss (with_result "Win" sample_ledger)
                       + total_of col_stake (with_result "Win" sample_ledger))
                      / total_of col_stake (with_result "Loss" sample_ledger))%Q)
       /\ ((total_of col_stake (with_result "Loss" sample_ledger) == 0)%Q ->
           with_result "Win" sample_ledger <> [] -> pf = MInf).
Proof.
  split; [exact sample_stakes_nonneg|]. split; [exact sample_settled|].
  exact (profit_factor_spec sample_ledger sample_stakes_nonneg sample_settled).
Defined.

(** With wins and no losses the profit factor is infinite. *)
Example winning_ledger_profit_factor :
  dict_get "profit_factor" (calculate_advanced_metrics winning_ledger) = Some MInf.
Proof. reflexivity. Qed.

Lemma calculate_metrics_roi_witness :
  stakes_nonneg sample_ledger
  /\ ((total_of col_stake sample_ledger == 0)%Q ->
      roi_of (calculate_metrics sample_ledger) = 0%Q)
  /\ (~ (total_of col_stake sample_ledger == 0)%Q ->
      (roi_of (calculate_metrics sample_ledger)
       == total_of col_profit_loss sample_ledger
          / total_of col_stake sample_ledger * 100)%Q).
Proof.
  split; [exact sample_stakes_nonneg|].
  exact (calculate_metrics_roi sample_ledger sample_stakes_nonneg).
Defined.

(** Records that are all Pending or Push: basic metrics are defined, with
    ROI from the stakes, while the advanced metrics are absent. *)
Example unsettled_ledger_metrics :
  calculate_advanced_metrics [sample_bet 10 2 "Pending"; sample_bet 20 3 "Push"] = []
  /\ roi_of (calculate_metrics [sample_bet 10 2 "Pending"; sample_bet 20 3 "Push"])
     = (0 / 30 * 100)%Q.
Proof. split; reflexivity. Qed.

Lemma update_bankroll_unknown_operation_witness :
  "reset" <> "add" /\ "reset" <> "subtract" /\ "reset" <> "set"
  /\ update_bankroll 5 "reset" fresh_db = (Returned PyNone, fresh_db)
  /\ get_bankroll (exec (update_bankroll 5 "reset") fresh_db) = get_bankroll fresh_db.
Proof.
  split; [discriminate|]. split; [discriminate|]. split; [discriminate|].
  apply (update_bankroll_unknown_operation 5 "reset" fresh_db); discriminate.
Defined.

(** The store after the first [init_db] on a new file. *)
Example fresh_db_shape :
  bets fresh_db = Some {| columns := bets_columns; rows := ∅; last_rowid := 0 |}
  /\ quotes fresh_db = Some {| columns := quotes_columns; rows := ∅; last_rowid := 0 |}
  /\ bankroll fresh_db = Some {[ 1%Z := 0%Q ]}.
Proof. repeat split; reflexivity. Qed.

(** The claim C4 as stated fails: on a valid bet [add_bet] stores the row
    under id 1 and returns [None], not the id. *)
Lemma add_bet_returns_none_not_the_id :
  validate_bet_input 100 2 "Win" = []
  /\ (exists t, bets fresh_db = Some t /\ rows t !! 1%Z = None)
  /\ (exists t' row,
        bets (exec (add_bet no_legs_dumps "2024-01-01" "A" "B" "Moneyline"
                      "Soccer" 100 2 "Win" "" false None) fresh_db) = Some t'
        /\ rows t' !! 1%Z = Some row
        /\ row !! "stake" = Some (SqlReal 100))
  /\ result_of (add_bet no_legs_dumps "2024-01-01" "A" "B" "Moneyline" "Soccer"
                  100 2 "Win" "" false None) fresh_db = Returned PyNone
  /\ result_of (add_bet no_legs_dumps "2024-01-01" "A" "B" "Moneyline" "Soccer"
                  100 2 "Win" "" false None) fresh_db <> Returned (PyInt 1).
Proof.
  split; [reflexivity|]. split; [eexists; split; reflexivity|].
  split; [eexists _, _; repeat split; reflexivity|].
  split; [reflexivity|discriminate].
Qed.

(** The claim C5 as stated fails: on an id that is not in the table
    [update_bet] with valid fields returns normally; nothing is raised. *)
Lemma update_bet_absent_id_raises_nothing :
  validate_bet_input 50 3 "Loss" = []
  /\ (exists t, bets one_bet_db = Some t
                /\ is_Some (rows t !! 1%Z) /\ rows t !! 7%Z = None)
  /\ update_bet no_legs_dumps 7 "2024-01-02" "C" "D" "Handicap" "Tennis"
       50 3 "Loss" "" false None one_bet_db = (Returned PyNone, one_bet_db)
  /\ ~ (exists e, result_of (update_bet no_legs_dumps 7 "2024-01-02" "C" "D"
                               "Handicap" "Tennis" 50 3 "Loss" "" false None)
                    one_bet_db = Raised e).
Proof.
  split; [reflexivity|].
  split.
  { exists one_bet_table. split; [reflexivity|].
    split; [eexists|]; reflexivity. }
  split; [reflexivity|]. intros [e He]. discriminate He.
Qed.

Lemma update_bet_absent_id_witness :
  validate_bet_input 50 3 "Loss" = []
  /\ bets one_bet_db = Some one_bet_table
  /\ has_columns one_bet_table ledger_columns = true
  /\ rows one_bet_table !! 7%Z = None
  /\ update_bet no_legs_dumps 7 "2024-01-02" "C" "D" "Handicap" "Tennis"
       50 3 "Loss" "" false None one_bet_db = (Returned PyNone, one_bet_db).
Proof.
  repeat (split; [reflexivity|]).
  apply (update_bet_absent_id no_legs_dumps "2024-01-02" "C" "D" "Handicap"
           "Tennis" 50 3 "Loss" "" false None 7 one_bet_db one_bet_table);
    reflexivity.
Defined.

Lemma add_bet_spec_witness :
  (exists (new_id : Z) (row : gmap string sql_value),
     rows fresh_bets !! new_id = None
     /\ (forall c v,
           In (c, v) (bet_assignments no_legs_dumps "2024-01-01" "A" "B"
                        "Moneyline" "Soccer" 100 2 "Win"
                        (calculate_profit_loss 100 2 "Win") "" false None) ->
           row !! c = Some v)
     /\ add_bet no_legs_dumps "2024-01-01" "A" "B" "Moneyline" "Soccer"
          100 2 "Win" "" false None fresh_db
        = (Returned PyNone,
           set_table Bets {| columns := columns fresh_bets;
                             rows := <[new_id := row]> (rows fresh_bets);
                             last_rowid := new_id |} fresh_db))
  /\ add_bet no_legs_dumps "2024-01-01" "A" "B" "Moneyline" "Soccer"
       (-5) (1 # 2) "X" "" false None fresh_db
     = (Raised (ValueError
                  "Stake must be positive; Odds must be at least 1.0; Invalid result"),
        fresh_db).
Proof.
  split.
  - apply (proj1 (add_bet_spec no_legs_dumps "2024-01-01" "A" "B" "Moneyline"
                    "Soccer" 100 2 "Win" "" false None fresh_db));
      reflexivity.
  - apply (proj2 (add_bet_spec no_legs_dumps "2024-01-01" "A" "B" "Moneyline"
                    "Soccer" (-5) (1 # 2) "X" "" false None fresh_db)).
    discriminate.
Defined.

Lemma validate_bet_input_reports_all_witness :
  ((-5 <= 0)%Q /\ (1 # 2 < 1)%Q /\ ~ In "X" ["Pending"; "Win"; "Loss"; "Push"]
   /\ validate_bet_input (-5) (1 # 2) "X" = [err_stake; err_odds; err_result]
   /\ length (validate_bet_input (-5) (1 # 2) "X") = 3%nat)
  /\ ((0 < 100)%Q /\ (1 <= 2)%Q /\ In "Win" ["Pending"; "Win"; "Loss"; "Push"]
      /\ validate_bet_input 100 2 "Win" = []).
Proof.
  assert (H1 : (-5 <= 0)%Q) by discriminate.
  assert (H2 : (1 # 2 < 1)%Q) by reflexivity.
  assert (H3 : ~ In "X" ["Pending"; "Win"; "Loss"; "Push"]).
  { cbn. intuition discriminate. }
  assert (H4 : (0 < 100)%Q) by reflexivity.
  assert (H5 : (1 <= 2)%Q) by discriminate.
  assert (H6 : In "Win" ["Pending"; "Win"; "Loss"; "Push"]).
  { right. left. reflexivity. }
  split.
  - do 3 (split; [assumption|]).
    exact (proj1 (proj2 (proj2 (proj2 (proj2 (proj2
             (validate_bet_input_reports_all (-5) (1 # 2) "X"))))))
             H1 H2 H3).
  - do 3 (split; [assumption|]).
    exact (proj2 (proj2 (proj2 (proj2 (proj2 (proj2
             (validate_bet_input_reports_all 100 2 "Win"))))))
             H4 H5 H6).
Defined.

Lemma calculate_advanced_metrics_absent_or_populated_witness :
  calculate_advanced_metrics [sample_bet 10 2 "Pending"; sample_bet 20 3 "Push"] = []
  /\ (calculate_advanced_metrics sample_ledger <> []
      /\ map fst (calculate_advanced_metrics sample_ledger) = advanced_keys
      /\ dict_get "total_settled_bets" (calculate_advanced_metrics sample_ledger)
         = Some (MInt (length (settled sample_ledger)))).
Proof.
  split.
  - apply (proj1 (calculate_advanced_metrics_absent_or_populated
                    [sample_bet 10 2 "Pending"; sample_bet 20 3 "Push"])).
    intros b [<-|[<-|[]]]; split; discriminate.
  - apply (proj2 (calculate_advanced_metrics_absent_or_populated sample_ledger)).
    exists (sample_bet 100 2 "Win"). split; [left; reflexivity|].
    left. reflexivity.
Defined.

(** * Further properties of the ledger store *)

Lemma record_get_combine (names : list string) (values : list sql_value) :
  List.NoDup names ->
  forall (k : nat) (name : string) (v : sql_value),
    names !! k = Some name -> values !! k = Some v ->
    record_get name (combine names values) = Some v.
Proof.
  intros Hnd. revert values.
  induction Hnd as [|n names Hn Hnd IH]; intros values k name v Hk Hv.
  - destruct k; discriminate.
  - destruct values as [|v0 values]; [destruct k; discriminate|].
    cbn [combine record_get].
    destruct k as [|k]; cbn in Hk, Hv.
    + injection Hk as ->. injection Hv as ->.
      rewrite String.eqb_refl. reflexivity.
    + destruct (String.eqb_spec n name) as [->|Hne].
      * exfalso. apply Hn. apply list_elem_of_In, list_elem_of_lookup.
        exists k. exact Hk.
      * exact (IH values k name v Hk Hv).
Qed.

Lemma expected_columns_NoDup : List.NoDup expected_columns.
Proof. repeat constructor; cbn; intuition discriminate. Qed.

Lemma select_star_lookup (t : table) (key : Z) (r : gmap string sql_value)
  (k : nat) (c : string) :
  column_names t !! k = Some c ->
  select_star t key r !! k
  = Some (if String.eqb c "id" then SqlInt key else default SqlNull (r !! c)).
Proof.
  intros Hk. unfold select_star.
  change (map ?f ?l) with (f <$> l). rewrite list_lookup_fmap, Hk. reflexivity.
Qed.

Lemma get_bet_by_id_found (bet_id : Z) (s : db) (t : table)
  (r : gmap string sql_value) :
  bets s = Some t -> In "id" (column_names t) -> rows t !! bet_id = Some r ->
  get_bet_by_id bet_id s
  = Returned (Some (combine expected_columns (select_star t bet_id r))).
Proof.
  intros Ht Hid Hr. unfold get_bet_by_id, select_where_id. cbn [get_table].
  apply str_in_iff in Hid. rewrite Ht, Hid, Hr. reflexivity.
Qed.

Lemma get_bet_by_id_absent (bet_id : Z) (s : db) (t : table) :
  bets s = Some t -> In "id" (column_names t) -> rows t !! bet_id = None ->
  get_bet_by_id bet_id s = Returned None.
Proof.
  intros Ht Hid Hr. unfold get_bet_by_id, select_where_id. cbn [get_table].
  apply str_in_iff in Hid. rewrite Ht, Hid, Hr. reflexivity.
Qed.

Lemma get_bet_by_id_entry (bet_id : Z) (s : db) (t : table)
  (r : gmap string sql_value) (k : nat) (name c : string) :
  bets s = Some t -> In "id" (column_names t) -> rows t !! bet_id = Some r ->
  expected_columns !! k = Some name -> column_names t !! k = Some c ->
  exists d,
    get_bet_by_id bet_id s = Returned (Some d)
    /\ record_get name d
       = Some (if String.eqb c "id" then SqlInt bet_id
               else default SqlNull (r !! c)).
Proof.
  intros Ht Hid Hr Hname Hc. eexists. split.
  - exact (get_bet_by_id_found bet_id s t r Ht Hid Hr).
  - apply (record_get_combine _ _ expected_columns_NoDup k); [exact Hname|].
    apply select_star_lookup. exact Hc.
Qed.

(** X1. [get_bet_by_id] labels the values of a row by position: the entry
    under the k-th hard-coded name is the value of the table's k-th column,
    whatever that column is called. On a table in the current schema every
    column therefore reads back under its own name. *)
Theorem get_bet_by_id_positional (bet_id : Z) (s : db) (t : table)
  (r : gmap string sql_value) :
  bets s = Some t -> In "id" (column_names t) -> rows t !! bet_id = Some r ->
  (forall k name c,
     expected_columns !! k = Some name -> column_names t !! k = Some c ->
     exists d,
       get_bet_by_id bet_id s = Returned (Some d)
       /\ record_get name d
          = Some (if String.eqb c "id" then SqlInt bet_id
                  else default SqlNull (r !! c)))
  /\ (current_schema t ->
      forall c, In c expected_columns -> c <> "id" ->
      exists d,
        get_bet_by_id bet_id s = Returned (Some d)
        /\ record_get c d = Some (default SqlNull (r !! c))).
Proof.
  intros Ht Hid Hr. split.
  - intros k name c Hname Hc.
    exact (get_bet_by_id_entry bet_id s t r k name c Ht Hid Hr Hname Hc).
  - intros Hs c Hc Hne.
    apply list_elem_of_In, list_elem_of_lookup in Hc. destruct Hc as [k Hk].
    destruct (get_bet_by_id_entry bet_id s t r k c c Ht Hid Hr Hk) as (d & Hd & Hv).
    { rewrite Hs. exact Hk. }
    exists d. split; [exact Hd|]. rewrite Hv.
    apply String.eqb_neq in Hne. rewrite Hne. reflexivity.
Qed.

Lemma current_schema_has_columns (t : table) :
  current_schema t -> has_columns t ledger_columns = true.
Proof. unfold current_schema, has_columns. intros ->. reflexivity. Qed.

Lemma current_schema_id (t : table) : current_schema t -> In "id" (column_names t).
Proof. unfold current_schema. intros ->. left. reflexivity. Qed.

Lemma next_id_fresh (t : table) : rows t !! next_id t = None.
Proof. apply autoincrement_fresh. Qed.

Lemma next_id_above (t : table) (k : Z) :
  is_Some (rows t !! k) -> (k < next_id t)%Z.
Proof.
  intros Hk. pose proof (max_rowid_ge _ _ Hk). unfold next_id. lia.
Qed.

Lemma assign_all_other (assignments : list (string * sql_value)) (c : string) :
  forall r, ~ In c (map fst assignments) -> assign_all assignments r !! c = r !! c.
Proof.
  unfold assign_all.
  induction assignments as [|[k v] rest IH]; intros r Hc; [reflexivity|].
  cbn [fold_left fst snd]. cbn [map fst In] in Hc.
  rewrite IH by tauto. apply lookup_insert_ne. tauto.
Qed.

Lemma assign_all_lookup (assignments : list (string * sql_value)) (c : string)
  (v : sql_value) :
  List.NoDup (map fst assignments) -> In (c, v) assignments ->
  forall r, assign_all assignments r !! c = Some v.
Proof.
  unfold assign_all.
  induction assignments as [|[k w] rest IH]; intros Hnd Hin r; [destruct Hin|].
  cbn [fold_left fst snd]. cbn [map fst] in Hnd.
  apply List.NoDup_cons_iff in Hnd. destruct Hnd as [Hk Hnd].
  destruct Hin as [Heq|Hin].
  - injection Heq as -> ->.
    fold (assign_all rest (<[c := v]> r)).
    rewrite assign_all_other by exact Hk. apply lookup_insert_eq.
  - apply IH; assumption.
Qed.

Section LedgerRoundTrips.

Variable json_dumps : list leg -> string.
Variables date team_a team_b bet_type sport : string.
Variables stake odds : Q.
Variables result notes : string.
Variable is_parlay : bool.
Variable parlay_legs : option (list leg).

Local Abbreviation fields :=
  (bet_assignments json_dumps date team_a team_b bet_type sport stake odds
     result (calculate_profit_loss stake odds result) notes is_parlay
     parlay_legs).

Lemma fields_keys : map fst fields = List.tail expected_columns.
Proof using Type. reflexivity. Qed.

Lemma fields_NoDup : List.NoDup (map fst fields).
Proof using Type.
  rewrite fields_keys. pose proof expected_columns_NoDup as H.
  apply List.NoDup_cons_iff in H. exact (proj2 H).
Qed.

(** What a valid [add_bet] does to the store. *)
Lemma add_bet_run (s : db) (t : table) :
  validate_bet_input stake odds result = [] ->
  bets s = Some t -> has_columns t ledger_columns = true ->
  add_bet json_dumps date team_a team_b bet_type sport stake odds result
    notes is_parlay parlay_legs s
  = (Returned PyNone, set_table Bets (inserted t fields) s).
Proof using Type.
  intros Hok Ht Hready.
  destruct (bound_columns json_dumps date team_a team_b bet_type sport stake
              odds result notes is_parlay parlay_legs t 0 Hready) as [Hcols _].
  unfold add_bet. rewrite (validation_passed _ _ _ Hok).
  erewrite bind_returned; [reflexivity|].
  unfold insert_into. cbn [get_table]. rewrite Ht, Hcols. reflexivity.
Qed.

(** What a valid [update_bet] does to the store. *)
Lemma update_bet_run (bet_id : Z) (s : db) (t : table) :
  validate_bet_input stake odds result = [] ->
  bets s = Some t -> has_columns t ledger_columns = true ->
  update_bet json_dumps bet_id date team_a team_b bet_type sport stake odds
    result notes is_parlay parlay_legs s
  = (Returned PyNone,
     set_table Bets {| columns := columns t;
                       rows := alter (assign_all fields) bet_id (rows t);
                       last_rowid := last_rowid t |} s).
Proof using Type.
  intros Hok Ht Hready.
  destruct (bound_columns json_dumps date team_a team_b bet_type sport stake
              odds result notes is_parlay parlay_legs t bet_id Hready)
    as [_ Hcols].
  unfold update_bet. rewrite (validation_passed _ _ _ Hok).
  erewrite bind_returned; [reflexivity|].
  unfold update_where_id. cbn [get_table]. rewrite Ht, Hcols. reflexivity.
Qed.

(** Reading a row whose columns all hold the fields. *)
Lemma select_star_fields (t : table) (key : Z) (r : gmap string sql_value) :
  current_schema t ->
  (forall c v, In (c, v) fields -> r !! c = Some v) ->
  combine expected_columns (select_star t key r) = ("id", SqlInt key) :: fields.
Proof using Type.
  intros Hs Hr. unfold select_star. rewrite Hs.
  unfold expected_columns, bet_assignments in *. cbn [map String.eqb Ascii.eqb
    Bool.eqb combine].
  repeat match goal with
         | |- context [r !! ?c] =>
             erewrite (Hr c) by (cbn [In]; tauto)
         end.
  reflexivity.
Qed.

(** X2. Round trip: a bet added with valid fields is read back by
    [get_bet_by_id] under its new id, which was not in use. The record
    holds date, teams, bet type, sport, stake, odds, result and notes as
    submitted, the profit_loss derived by settlement, is_parlay as 1 or 0,
    and parlay_legs as it was stored, not as it was submitted: the text the
    serializer made of a non-empty list of legs (nothing parses it back),
    and NULL for an empty list and for [None]. *)
Theorem add_bet_then_get_bet_by_id (s : db) (t : table) :
  validate_bet_input stake odds result = [] ->
  bets s = Some t -> current_schema t ->
  rows t !! next_id t = None
  /\ get_bet_by_id (next_id t)
       (exec (add_bet json_dumps date team_a team_b bet_type sport stake odds
                result notes is_parlay parlay_legs) s)
     = Returned (Some
         [ ("id", SqlInt (next_id t)); ("date", SqlText date);
           ("team_a", SqlText team_a); ("team_b", SqlText team_b);
           ("bet_type", SqlText bet_type); ("sport", SqlText sport);
           ("stake", SqlReal stake); ("odds", SqlReal odds);
           ("result", SqlText result);
           ("profit_loss", SqlReal (calculate_profit_loss stake odds result));
           ("notes", SqlText notes);
           ("is_parlay", SqlInt (if is_parlay then 1 else 0));
           ("parlay_legs",
            match parlay_legs with
            | Some ((_ :: _) as legs) => SqlText (json_dumps legs)
            | _ => SqlNull
            end) ]).
Proof using Type.
  intros Hok Ht Hs. split; [apply next_id_fresh|].
  unfold exec. rewrite (add_bet_run s t Hok Ht (current_schema_has_columns t Hs)).
  cbn [snd].
  rewrite (get_bet_by_id_found _ _ (inserted t fields)
             (new_row (column_names t) fields)).
  - rewrite select_star_fields; [reflexivity|exact Hs|].
    intros c v Hin.
    destruct (bound_assigned json_dumps date team_a team_b bet_type sport
                stake odds result notes is_parlay parlay_legs c v Hin)
      as [Ha Hid].
    rewrite new_row_lookup; [rewrite Ha; reflexivity| |exact Hid].
    rewrite Hs. apply (in_map fst) in Hin. rewrite fields_keys in Hin.
    right. exact Hin.
  - exact (get_set_table Bets _ s).
  - apply current_schema_id. exact Hs.
  - cbn [inserted rows]. apply lookup_insert_eq.
Qed.

(** X3. Full replace: after a valid [update_bet] of an existing id,
    [get_bet_by_id] returns exactly the new fields and the new derived
    profit_loss; nothing of the old row is left. *)
Theorem update_bet_then_get_bet_by_id (bet_id : Z) (s : db) (t : table) :
  validate_bet_input stake odds result = [] ->
  bets s = Some t -> current_schema t -> is_Some (rows t !! bet_id) ->
  get_bet_by_id bet_id
    (exec (update_bet json_dumps bet_id date team_a team_b bet_type sport
             stake odds result notes is_parlay parlay_legs) s)
  = Returned (Some (("id", SqlInt bet_id) :: fields)).
Proof using Type.
  intros Hok Ht Hs [old Hold].
  unfold exec.
  rewrite (update_bet_run bet_id s t Hok Ht (current_schema_has_columns t Hs)).
  cbn [snd].
  rewrite (get_bet_by_id_found _ _
             {| columns := columns t;
                rows := alter (assign_all fields) bet_id (rows t);
                last_rowid := last_rowid t |}
             (assign_all fields old)).
  - rewrite select_star_fields; [reflexivity|exact Hs|].
    intros c v Hin. apply assign_all_lookup; [apply fields_NoDup|exact Hin].
  - exact (get_set_table Bets _ s).
  - apply current_schema_id. exact Hs.
  - cbn [rows]. rewrite lookup_alter_eq, Hold. reflexivity.
Qed.

End LedgerRoundTrips.

Lemma delete_where_id_run (n : tname) (key : Z) (s : db) (t : table) :
  get_table n s = Some t -> In "id" (column_names t) ->
  delete_where_id n key s
  = (Returned tt,
     set_table n {| columns := columns t; rows := delete key (rows t);
                    last_rowid := last_rowid t |} s).
Proof.
  intros Ht Hid. unfold delete_where_id.
  apply str_in_iff in Hid. rewrite Ht, Hid. reflexivity.
Qed.

Lemma table_eta (t : table) :
  {| columns := columns t; rows := rows t; last_rowid := last_rowid t |} = t.
Proof. destruct t. reflexivity. Qed.

(** X4. [delete_bet] removes exactly the addressed row: afterwards
    [get_bet_by_id] finds nothing under that id and reads every other id
    as before; the quotes and the bankroll are untouched; for an id that is
    not in the table nothing changes at all, and nothing is raised. *)
Theorem delete_bet_removes (bet_id : Z) (s : db) (t : table) :
  bets s = Some t -> In "id" (column_names t) ->
  let s' := exec (delete_bet bet_id) s in
  result_of (delete_bet bet_id) s = Returned PyNone
  /\ get_bet_by_id bet_id s' = Returned None
  /\ (forall j, j <> bet_id -> get_bet_by_id j s' = get_bet_by_id j s)
  /\ quotes s' = quotes s /\ bankroll s' = bankroll s
  /\ (rows t !! bet_id = None -> s' = s).
Proof.
  intros Ht Hid. cbv zeta.
  assert (E : delete_bet bet_id s
              = (Returned PyNone,
                 set_table Bets {| columns := columns t;
                                   rows := delete bet_id (rows t);
                                   last_rowid := last_rowid t |} s)).
  { unfold delete_bet. erewrite bind_returned; [reflexivity|].
    exact (delete_where_id_run Bets bet_id s t Ht Hid). }
  unfold exec, result_of. rewrite E. cbn [fst snd].
  split; [reflexivity|]. split; [|split; [|split; [|split]]].
  - apply (get_bet_by_id_absent bet_id _
             {| columns := columns t; rows := delete bet_id (rows t);
                last_rowid := last_rowid t |}).
    + exact (get_set_table Bets _ s).
    + exact Hid.
    + cbn [rows]. apply lookup_delete_eq.
  - intros j Hj. unfold get_bet_by_id, select_where_id.
    cbn [get_table set_table bets rows column_names columns]. rewrite Ht.
    fold (column_names t).
    rewrite lookup_delete_ne by congruence. reflexivity.
  - reflexivity.
  - reflexivity.
  - intros Habs. rewrite delete_id by exact Habs.
    rewrite table_eta. apply (set_table_same Bets). exact Ht.
Qed.

Lemma max_rowid_le (rs : gmap Z (gmap string sql_value)) (b : Z) :
  (0 <= b)%Z -> (forall k, is_Some (rs !! k) -> (k <= b)%Z) ->
  (max_rowid rs <= b)%Z.
Proof.
  intros Hb H. unfold max_rowid.
  assert (Hall : forall k, In k (map fst (map_to_list rs)) -> (k <= b)%Z).
  { intros k Hk. apply in_map_iff in Hk. destruct Hk as ([k' r] & <- & Hin).
    apply H. exists r. apply elem_of_map_to_list, list_elem_of_In. exact Hin. }
  induction (map fst (map_to_list rs)) as [|k ks IH]; cbn [foldr]; [lia|].
  assert (k <= b)%Z by (apply Hall; left; reflexivity).
  assert (foldr Z.max 0 ks <= b)%Z by (apply IH; intros; apply Hall; right; auto).
  lia.
Qed.

Section LedgerFrames.

Variable json_dumps : list leg -> string.
Variables date team_a team_b bet_type sport : string.
Variables stake odds : Q.
Variables result notes : string.
Variable is_parlay : bool.
Variable parlay_legs : option (list leg).

Local Abbreviation fields :=
  (bet_assignments json_dumps date team_a team_b bet_type sport stake odds
     result (calculate_profit_loss stake odds result) notes is_parlay
     parlay_legs).

Local Abbreviation the_add_bet :=
  (add_bet json_dumps date team_a team_b bet_type sport stake odds result
     notes is_parlay parlay_legs).

(** X5. A valid [add_bet] adds one record and touches nothing else: every bet
    that was in the table reads back as before, and the quotes and the
    bankroll are unchanged. *)
Theorem add_bet_keeps_the_rest (s : db) (t : table) :
  validate_bet_input stake odds result = [] ->
  bets s = Some t -> has_columns t ledger_columns = true ->
  let s' := exec the_add_bet s in
  (forall j, is_Some (rows t !! j) -> get_bet_by_id j s' = get_bet_by_id j s)
  /\ quotes s' = quotes s /\ bankroll s' = bankroll s.
Proof using Type.
  intros Hok Ht Hready. cbv zeta.
  unfold exec. rewrite (add_bet_run json_dumps _ _ _ _ _ _ _ _ _ _ _ s t Hok Ht Hready).
  cbn [snd]. split; [|split; reflexivity].
  intros j Hj. unfold get_bet_by_id, select_where_id.
  cbn [get_table set_table bets inserted rows column_names columns]. rewrite Ht.
  fold (column_names t).
  rewrite lookup_insert_ne; [reflexivity|].
  intros E. pose proof (next_id_above t j Hj). lia.
Qed.

(** X6. Ids are never reused: when the AUTOINCREMENT counter is current, a bet
    added after any [delete_bet] gets the id one above the counter, which
    is larger than every id the table held before the deletion, the
    deleted one included. *)
Theorem add_bet_after_delete_bet_new_id (bet_id : Z) (s : db) (t : table) :
  validate_bet_input stake odds result = [] ->
  bets s = Some t -> has_columns t ledger_columns = true ->
  counter_current t ->
  let new_id := (last_rowid t + 1)%Z in
  exists t' row,
    bets (exec the_add_bet (exec (delete_bet bet_id) s)) = Some t'
    /\ rows t' = <[new_id := row]> (delete bet_id (rows t))
    /\ (forall k, is_Some (rows t !! k) -> (k < new_id)%Z).
Proof using Type.
  intros Hok Ht Hready [Hpos Hcur]. cbv zeta.
  assert (Hid : In "id" (column_names t)).
  { apply (has_columns_In t _ Hready). left. reflexivity. }
  set (td := {| columns := columns t; rows := delete bet_id (rows t);
                last_rowid := last_rowid t |}).
  assert (E1 : exec (delete_bet bet_id) s = set_table Bets td s).
  { unfold exec, delete_bet. erewrite bind_returned; [reflexivity|].
    exact (delete_where_id_run Bets bet_id s t Ht Hid). }
  rewrite E1.
  assert (Hnext : next_id td = (last_rowid t + 1)%Z).
  { unfold next_id. cbn [td last_rowid rows].
    assert (max_rowid (delete bet_id (rows t)) <= last_rowid t)%Z.
    { apply max_rowid_le; [exact Hpos|]. intros k [r Hk].
      apply lookup_delete_Some in Hk. destruct Hk as [_ Hk].
      apply Hcur. exists r. exact Hk. }
    lia. }
  unfold exec.
  rewrite (add_bet_run json_dumps _ _ _ _ _ _ _ _ _ _ _
             (set_table Bets td s) td Hok (get_set_table Bets td s) Hready).
  cbn [snd]. eexists _, _. split; [reflexivity|]. split.
  - cbn [inserted rows]. rewrite Hnext. reflexivity.
  - intros k Hk. specialize (Hcur k Hk). lia.
Qed.

End LedgerFrames.

Lemma migrated_columns_prefix (existing : list string) (todo : list (string * string)) :
  forall t, exists added,
    column_names (migrated existing todo t) = column_names t ++ added.
Proof.
  unfold migrated.
  induction todo as [|[c0 ty] rest IH]; intros t.
  - exists []. cbn [fold_left]. rewrite app_nil_r. reflexivity.
  - cbn [fold_left]. unfold add_missing at 2. cbn [fst].
    destruct (str_in c0 existing); [apply IH|].
    destruct (IH {| columns := columns t ++ [(c0, ty)];
                    rows := (fun r => <[c0 := SqlNull]> r) <$> rows t;
                    last_rowid := last_rowid t |}) as [added Ha].
    exists ([c0] ++ added). rewrite Ha.
    unfold column_names. cbn [columns]. rewrite map_app, <- app_assoc.
    reflexivity.
Qed.

(** X7. After [init_db] has migrated an older [bets] table, [get_bet_by_id]
    still labels by position: the entry under the k-th hard-coded name is
    the value the row had in the table's k-th original column. The added
    columns come last in the table, so a migrated row is read back under
    names that are not its columns' names. *)
Theorem get_bet_by_id_after_migration (bet_id : Z) (s : db) (t : table)
  (r : gmap string sql_value) (k : nat) (name c : string) :
  bets s = Some t -> In "id" (column_names t) -> rows t !! bet_id = Some r ->
  expected_columns !! k = Some name -> column_names t !! k = Some c ->
  c <> "id" ->
  exists d,
    get_bet_by_id bet_id (exec init_db s) = Returned (Some d)
    /\ record_get name d = Some (default SqlNull (r !! c)).
Proof.
  intros Ht Hid Hr Hname Hc Hne.
  assert (Hcin : In c (column_names t)).
  { apply list_elem_of_In, list_elem_of_lookup. exists k. exact Hc. }
  set (t1 := migrated (column_names t) new_columns t).
  assert (Ht1 : bets (exec init_db s) = Some t1).
  { unfold exec. rewrite init_db_ensured. cbn [snd]. unfold ensured.
    cbn [bets]. rewrite Ht. reflexivity. }
  destruct (migrated_keeps_values (column_names t) new_columns t bet_id r c Hr Hcin)
    as (r' & Hr' & Hv).
  destruct (migrated_columns_prefix (column_names t) new_columns t) as [added Ha].
  destruct (get_bet_by_id_entry bet_id (exec init_db s) t1 r' k name c Ht1)
    as (d & Hd & Hg).
  - apply migrated_columns_mono. exact Hid.
  - exact Hr'.
  - exact Hname.
  - fold t1 in Ha. rewrite Ha. apply lookup_app_l_Some. exact Hc.
  - exists d. split; [exact Hd|]. rewrite Hg, Hv.
    apply String.eqb_neq in Hne. rewrite Hne. reflexivity.
Qed.

(** ** Validation comes before the statement *)

Section InvalidUpdate.

Variable json_dumps : list leg -> string.

(** X27. Validation precedes the statement in [update_bet] as in [add_bet]:
    on invalid input the call raises [ValueError] with all the violated
    rules, joined by "; ", and the store is left as it was, whatever the
    id and whatever the store (the database is not opened). *)
Theorem update_bet_invalid_input (bet_id : Z) (f : bet_fields) (s : db) :
  validate_bet_input (f_stake f) (f_odds f) (f_result f) <> [] ->
  run json_dumps (UpdateBet bet_id f) s
  = (Raised (ValueError
               (String.concat "; "
                  (validate_bet_input (f_stake f) (f_odds f) (f_result f)))),
     s).
Proof using Type.
  intros Hbad. cbn [run]. unfold update_bet.
  apply frame_empty_false in Hbad. rewrite Hbad. reflexivity.
Qed.

End InvalidUpdate.

Lemma update_bet_invalid_input_witness :
  validate_bet_input (f_stake invalid_fields) (f_odds invalid_fields)
    (f_result invalid_fields) <> []
  /\ run no_legs_dumps (UpdateBet 1 invalid_fields) one_bet_db
     = (Raised (ValueError
                  "Stake must be positive; Odds must be at least 1.0; Invalid result"),
        one_bet_db).
Proof.
  assert (H : validate_bet_input (f_stake invalid_fields) (f_odds invalid_fields)
                (f_result invalid_fields) <> []) by discriminate.
  split; [exact H|].
  exact (update_bet_invalid_input no_legs_dumps 1 invalid_fields one_bet_db H).
Defined.

Example is_int64_bounds :
  is_int64 (- 9223372036854775808) = true
  /\ is_int64 9223372036854775807 = true
  /\ is_int64 9223372036854775808 = false
  /\ is_int64 (- 9223372036854775809) = false.
Proof. repeat split; reflexivity. Qed.

Lemma validate_bet_input_nil (stake odds : Q) (result : string) :
  validate_bet_input stake odds result = [] <->
  (0 < stake)%Q /\ (1 <= odds)%Q /\ In result allowed_results.
Proof.
  rewrite validate_bet_input_cases.
  rewrite <- (Qle_bool_false_iff stake 0), <- (Qlt_bool_false_iff odds 1),
    <- (str_in_iff result allowed_results).
  destruct (Qle_bool stake 0), (Qlt_bool odds 1),
    (str_in result allowed_results); cbn [app];
    split; try discriminate; try tauto;
    intros (H1 & H2 & H3); discriminate.
Qed.

Lemma fields_row_ok (json_dumps : list leg -> string) (f : bet_fields)
  (r : gmap string sql_value) :
  validate_bet_input (f_stake f) (f_odds f) (f_result f) = [] ->
  (forall c v,
     In (c, v) (bet_assignments json_dumps (f_date f) (f_team_a f) (f_team_b f)
                  (f_bet_type f) (f_sport f) (f_stake f) (f_odds f) (f_result f)
                  (calculate_profit_loss (f_stake f) (f_odds f) (f_result f))
                  (f_notes f) (f_is_parlay f) (f_parlay_legs f)) ->
     r !! c = Some v) ->
  bet_row_ok r.
Proof.
  intros Hok Hr. apply validate_bet_input_nil in Hok.
  destruct Hok as (Hs & Ho & Hres).
  exists (f_stake f), (f_odds f), (f_result f).
  unfold bet_assignments in Hr.
  repeat split; try assumption; apply Hr; cbn [In]; tauto.
Qed.

Lemma store_ok_start : store_ok (exec init_db empty_db).
Proof.
  unfold exec. rewrite init_db_ensured. cbn [snd].
  split; [|split].
  - eexists. split; [reflexivity|]. split; [reflexivity|]. split.
    + split; [cbn; lia|]. intros k [r Hk]. cbn in Hk.
      rewrite lookup_empty in Hk. discriminate.
    + intros k r Hk. cbn in Hk. rewrite lookup_empty in Hk. discriminate.
  - eexists. split; reflexivity.
  - eexists _, _. split; [reflexivity|]. apply lookup_insert_eq.
Qed.

Lemma store_ok_schema_ensured (s : db) : store_ok s -> schema_ensured s.
Proof.
  intros ((t & Ht & Hs & _) & (q & Hq & _) & Hb).
  split; [|split].
  - exists t. split; [exact Ht|]. rewrite Hs. cbn. tauto.
  - exists q. exact Hq.
  - exact Hb.
Qed.

Lemma store_ok_init_db (s : db) : store_ok s -> init_db s = (Returned PyNone, s).
Proof.
  intros H. rewrite init_db_ensured, ensured_fixed; [reflexivity|].
  apply store_ok_schema_ensured. exact H.
Qed.

Lemma quote_columns_ready (q : table) (a : list (string * sql_value)) :
  columns q = quotes_columns ->
  (forall x, In x a -> In (fst x) (map fst quotes_columns)) ->
  missing_column q a = None.
Proof.
  intros Hq Ha. apply missing_column_complete.
  intros x Hx. unfold column_names. rewrite Hq. apply Ha, Hx.
Qed.

Section SessionInvariant.

Variable json_dumps : list leg -> string.

(** What each call returns on a store that satisfies the invariant, and
    that the invariant is kept. *)
Lemma store_ok_call (c : api_call) (s : db) :
  store_ok s ->
  store_ok (exec (run json_dumps c) s)
  /\ result_of (run json_dumps c) s
     = match c with
       | AddBet f | UpdateBet _ f =>
           match validate_bet_input (f_stake f) (f_odds f) (f_result f) with
           | [] => Returned PyNone
           | errors => Raised (ValueError (String.concat "; " errors))
           end
       | _ => Returned PyNone
       end.
Proof using Type.
  intros Hok.
  pose proof Hok as ((t & Ht & Hs & [Hpos Hcur] & Hrows) & (q & Hq & Hqc) & (m & b & Hm & Hb)).
  pose proof (current_schema_has_columns t Hs) as Hready.
  destruct c as [|f|bet_id f| bet_id | now quote_text category | quote_id
                | amount operation]; cbn [run].
  - unfold exec, result_of. rewrite (store_ok_init_db s Hok). split; [exact Hok|reflexivity].
  - destruct (validate_bet_input (f_stake f) (f_odds f) (f_result f)) eqn:Ev.
    + unfold exec, result_of.
      rewrite (add_bet_run json_dumps _ _ _ _ _ _ _ _ _ _ _ s t Ev Ht Hready).
      cbn [fst snd]. split; [|reflexivity].
      split; [|split].
      * eexists. split; [exact (get_set_table Bets _ s)|].
        split; [exact Hs|]. split.
        -- split; [cbn [inserted last_rowid]; unfold next_id; lia|].
           intros k Hk. cbn [inserted rows last_rowid] in Hk |- *.
           destruct (decide (k = next_id t)) as [->|Hne].
           ++ unfold next_id. lia.
           ++ rewrite lookup_insert_ne in Hk by congruence.
              specialize (Hcur k Hk). unfold next_id. lia.
        -- intros k r. cbn [inserted rows].
           destruct (decide (k = next_id t)) as [->|Hne].
           ++ rewrite lookup_insert_eq. intros [= <-].
              apply (fields_row_ok json_dumps f _ Ev).
              intros c v Hin.
              destruct (bound_assigned json_dumps _ _ _ _ _ _ _ _ _ _ _ c v Hin)
                as [Ha Hid].
              rewrite new_row_lookup; [rewrite Ha; reflexivity| |exact Hid].
              destruct (bound_columns json_dumps (f_date f) (f_team_a f)
                          (f_team_b f) (f_bet_type f) (f_sport f) (f_stake f)
                          (f_odds f) (f_result f) (f_notes f) (f_is_parlay f)
                          (f_parlay_legs f) t 0 Hready) as [Hcols _].
              exact (missing_column_None t _ Hcols c v Hin).
           ++ rewrite lookup_insert_ne by congruence. apply Hrows.
      * exists q. split; [exact Hq|exact Hqc].
      * exists m, b. split; [exact Hm|exact Hb].
    + unfold exec, result_of, add_bet. rewrite Ev. cbn. split; [exact Hok|reflexivity].
  - destruct (validate_bet_input (f_stake f) (f_odds f) (f_result f)) eqn:Ev.
    + unfold exec, result_of.
      rewrite (update_bet_run json_dumps _ _ _ _ _ _ _ _ _ _ _ bet_id s t Ev Ht Hready).
      cbn [fst snd]. split; [|reflexivity].
      split; [|split].
      * eexists. split; [exact (get_set_table Bets _ s)|].
        split; [exact Hs|]. split.
        -- split; [exact Hpos|]. intros k Hk. cbn [rows last_rowid] in Hk |- *.
           apply Hcur. destruct Hk as [r Hk].
           destruct (rows t !! k) eqn:E; [eauto|].
           apply (lookup_alter_None (assign_all
             (bet_assignments json_dumps (f_date f) (f_team_a f) (f_team_b f)
                (f_bet_type f) (f_sport f) (f_stake f) (f_odds f) (f_result f)
                (calculate_profit_loss (f_stake f) (f_odds f) (f_result f))
                (f_notes f) (f_is_parlay f) (f_parlay_legs f)))
             (rows t) bet_id k) in E.
           rewrite E in Hk. discriminate.
        -- intros k r. cbn [rows].
           destruct (decide (bet_id = k)) as [<-|Hne].
           ++ rewrite lookup_alter_eq.
              destruct (rows t !! bet_id) as [old|]; [|discriminate].
              intros Hr. apply (inj Some) in Hr. rewrite <- Hr.
              apply (fields_row_ok json_dumps f _ Ev).
              intros c v Hin. apply assign_all_lookup; [|exact Hin].
              apply fields_NoDup.
           ++ rewrite lookup_alter_ne by exact Hne. apply Hrows.
      * exists q. split; [exact Hq|exact Hqc].
      * exists m, b. split; [exact Hm|exact Hb].
    + unfold exec, result_of, update_bet. rewrite Ev. cbn. split; [exact Hok|reflexivity].
  - unfold exec, result_of, delete_bet.
    erewrite bind_returned;
      [|exact (delete_where_id_run Bets bet_id s t Ht (current_schema_id t Hs))].
    cbn [fst snd]. split; [|reflexivity].
    split; [|split].
    + eexists. split; [exact (get_set_table Bets _ s)|].
      split; [exact Hs|]. split.
      * split; [exact Hpos|]. intros k [r Hk]. cbn [rows last_rowid] in Hk |- *.
        apply lookup_delete_Some in Hk. apply Hcur. exists r. tauto.
      * intros k r Hk. cbn [rows] in Hk. apply lookup_delete_Some in Hk.
        apply (Hrows k r). tauto.
    + exists q. split; [exact Hq|exact Hqc].
    + exists m, b. split; [exact Hm|exact Hb].
  - unfold exec, result_of, add_quote.
    erewrite bind_returned;
      [|unfold insert_into; cbn [get_table]; rewrite Hq;
        rewrite (quote_columns_ready q _ Hqc); [reflexivity|];
        cbn; intros x [<-|[<-|[<-|[]]]]; cbn; tauto].
    cbn [fst snd]. split; [|reflexivity].
    split; [|split].
    + exists t. split; [exact Ht|]. split; [exact Hs|]. split; [split|]; assumption.
    + eexists. split; [reflexivity|exact Hqc].
    + exists m, b. split; [exact Hm|exact Hb].
  - unfold exec, result_of, delete_quote.
    erewrite bind_returned;
      [|apply (delete_where_id_run Quotes quote_id s q Hq);
        unfold column_names; rewrite Hqc; left; reflexivity].
    cbn [fst snd]. split; [|reflexivity].
    split; [|split].
    + exists t. split; [exact Ht|]. split; [exact Hs|]. split; [split|]; assumption.
    + eexists. split; [reflexivity|exact Hqc].
    + exists m, b. split; [exact Hm|exact Hb].
  - unfold exec, result_of, update_bankroll, update_bankroll_where_id,
      mbind, M_bind.
    destruct (String.eqb operation "add");
      [|destruct (String.eqb operation "set");
        [|destruct (String.eqb operation "subtract")]];
      cbn [mret M_ret]; rewrite ?Hm; cbn [fst snd];
      (split; [|reflexivity]);
      try exact Hok;
      (split; [|split];
       [ exists t; split; [exact Ht|]; split; [exact Hs|]; split; [split|]; assumption
       | exists q; split; [exact Hq|exact Hqc]
       | eexists _, _; split; [reflexivity|];
         rewrite lookup_alter_eq, Hb; reflexivity ]).
Qed.

Lemma reachable_store_ok (s : db) : reachable json_dumps s -> store_ok s.
Proof using Type.
  induction 1 as [|s c _ IH].
  - exact store_ok_start.
  - exact (proj1 (store_ok_call c s IH)).
Qed.

End SessionInvariant.

Section SessionProperties.

Variable json_dumps : list leg -> string.

(** X9. Startup is harmless: on every store a session can reach, [init_db]
    (which [main] runs again at each rerun) returns normally and changes
    nothing. *)
Theorem reachable_init_db_noop (s : db) :
  reachable json_dumps s -> init_db s = (Returned PyNone, s).
Proof using Type.
  intros H. apply store_ok_init_db. exact (reachable_store_ok json_dumps s H).
Qed.

(** X10. In a session no call fails on the store, as long as the ids it is
    given are of 64 bits (and the numbers are numbers, as the embedding has
    them): [add_bet] and [update_bet] raise [ValueError] with the joined
    violations exactly when validation finds any, and every other call, and
    every valid one, returns [None]; the reads [get_bankroll] and
    [get_bet_by_id] do not raise. *)
Theorem reachable_only_validation_errors (s : db) :
  reachable json_dumps s ->
  (forall c,
     call_ids_int64 c = true ->
     result_of (run json_dumps c) s
     = match c with
       | AddBet f | UpdateBet _ f =>
           match validate_bet_input (f_stake f) (f_odds f) (f_result f) with
           | [] => Returned PyNone
           | errors => Raised (ValueError (String.concat "; " errors))
           end
       | _ => Returned PyNone
       end)
  /\ (exists b, get_bankroll s = Returned b)
  /\ (forall bet_id,
        is_int64 bet_id = true -> exists r, get_bet_by_id bet_id s = Returned r).
Proof using Type.
  intros H. pose proof (reachable_store_ok json_dumps s H) as Hok.
  split; [|split].
  - intros c _. exact (proj2 (store_ok_call json_dumps c s Hok)).
  - destruct Hok as (_ & _ & (m & b & Hm & Hb)).
    exists b. unfold get_bankroll. rewrite Hm, Hb. reflexivity.
  - destruct Hok as ((t & Ht & Hs & _) & _). intros bet_id _.
    destruct (rows t !! bet_id) as [r|] eqn:E.
    + eexists. exact (get_bet_by_id_found bet_id s t r Ht (current_schema_id t Hs) E).
    + eexists. exact (get_bet_by_id_absent bet_id s t Ht (current_schema_id t Hs) E).
Qed.

(** X11. The data invariant holds in every store a session can reach by
    calls whose stakes and odds are numbers, neither NaN nor infinite: the
    exact numbers of the embedding, on which validation is that of the
    program (X26), while a NaN passes it (X25). Whatever [get_bet_by_id]
    returns for an id of 64 bits has a positive id, a stake above 0, odds
    of at least 1, one of the four results, and the profit_loss that
    settlement derives from these three. *)
Theorem reachable_bets_valid (s : db) (bet_id : Z) :
  reachable json_dumps s ->
  is_int64 bet_id = true ->
  get_bet_by_id bet_id s = Returned None
  \/ exists d stake odds result,
       get_bet_by_id bet_id s = Returned (Some d)
       /\ (0 < bet_id)%Z
       /\ record_get "id" d = Some (SqlInt bet_id)
       /\ record_get "stake" d = Some (SqlReal stake)
       /\ record_get "odds" d = Some (SqlReal odds)
       /\ record_get "result" d = Some (SqlText result)
       /\ record_get "profit_loss" d
          = Some (SqlReal (calculate_profit_loss stake odds result))
       /\ (0 < stake)%Q /\ (1 <= odds)%Q
       /\ In result ["Pending"; "Win"; "Loss"; "Push"].
Proof using Type.
  intros H _.
  destruct (reachable_store_ok json_dumps s H)
    as ((t & Ht & Hs & [_ Hcur] & Hrows) & _).
  pose proof (current_schema_id t Hs) as Hid.
  destruct (rows t !! bet_id) as [r|] eqn:E.
  - right.
    destruct (Hrows bet_id r E)
      as (stake & odds & result & Hst & Hod & Hre & Hpl & H1 & H2 & H3).
    exists (combine expected_columns (select_star t bet_id r)), stake, odds, result.
    split; [exact (get_bet_by_id_found bet_id s t r Ht Hid E)|].
    split; [apply (Hcur bet_id); eauto|].
    unfold select_star. rewrite Hs.
    cbn [expected_columns map combine record_get String.eqb Ascii.eqb Bool.eqb].
    rewrite Hst, Hod, Hre, Hpl. cbn [default].
    repeat split; assumption.
  - left. exact (get_bet_by_id_absent bet_id s t Ht Hid E).
Qed.

End SessionProperties.

Lemma sample_session_reachable : reachable no_legs_dumps sample_session.
Proof. repeat apply reachable_call. apply reachable_start. Defined.

Lemma reachable_init_db_noop_witness :
  reachable no_legs_dumps sample_session
  /\ init_db sample_session = (Returned PyNone, sample_session).
Proof.
  split; [exact sample_session_reachable|].
  exact (reachable_init_db_noop no_legs_dumps sample_session
           sample_session_reachable).
Defined.

Lemma reachable_only_validation_errors_witness :
  reachable no_legs_dumps sample_session
  /\ call_ids_int64 (DeleteBet 9) = true
  /\ result_of (run no_legs_dumps (DeleteBet 9)) sample_session = Returned PyNone
  /\ result_of (run no_legs_dumps (AddBet invalid_fields)) sample_session
     = Raised (ValueError
                 "Stake must be positive; Odds must be at least 1.0; Invalid result")
  /\ get_bankroll sample_session = Returned (0 + 500)%Q.
Proof.
  split; [exact sample_session_reachable|].
  destruct (reachable_only_validation_errors no_legs_dumps sample_session
              sample_session_reachable) as (Hc & _ & _).
  split; [reflexivity|].
  split; [exact (Hc (DeleteBet 9) eq_refl)|].
  split; [exact (Hc (AddBet invalid_fields) eq_refl)|reflexivity].
Defined.

Lemma reachable_bets_valid_witness :
  reachable no_legs_dumps sample_session
  /\ is_int64 1 = true
  /\ (get_bet_by_id 1 sample_session = Returned None
      \/ exists d stake odds result,
           get_bet_by_id 1 sample_session = Returned (Some d)
           /\ (0 < 1)%Z
           /\ record_get "id" d = Some (SqlInt 1)
           /\ record_get "stake" d = Some (SqlReal stake)
           /\ record_get "odds" d = Some (SqlReal odds)
           /\ record_get "result" d = Some (SqlText result)
           /\ record_get "profit_loss" d
              = Some (SqlReal (calculate_profit_loss stake odds result))
           /\ (0 < stake)%Q /\ (1 <= odds)%Q
           /\ In result ["Pending"; "Win"; "Loss"; "Push"]).
Proof.
  split; [exact sample_session_reachable|]. split; [reflexivity|].
  exact (reachable_bets_valid no_legs_dumps sample_session 1
           sample_session_reachable eq_refl).
Defined.

Example sample_session_bet :
  get_bet_by_id 1 sample_session
  = Returned (Some [ ("id", SqlInt 1); ("date", SqlText "2024-01-01");
                     ("team_a", SqlText "A"); ("team_b", SqlText "B");
                     ("bet_type", SqlText "Moneyline"); ("sport", SqlText "Soccer");
                     ("stake", SqlReal 100); ("odds", SqlReal 2);
                     ("result", SqlText "Win");
                     ("profit_loss", SqlReal (100 * 2 - 100));
                     ("notes", SqlText ""); ("is_parlay", SqlInt 0);
                     ("parlay_legs", SqlNull) ]).
Proof. reflexivity. Qed.

Lemma get_bet_by_id_positional_witness :
  bets one_bet_db = Some one_bet_table
  /\ In "id" (column_names one_bet_table)
  /\ rows one_bet_table !! 1%Z = Some one_bet_row
  /\ expected_columns !! 6%nat = Some "stake"
  /\ column_names one_bet_table !! 6%nat = Some "stake"
  /\ exists d,
       get_bet_by_id 1 one_bet_db = Returned (Some d)
       /\ record_get "stake" d = Some (default SqlNull (one_bet_row !! "stake")).
Proof.
  assert (H1 : bets one_bet_db = Some one_bet_table) by reflexivity.
  assert (H2 : In "id" (column_names one_bet_table)) by (left; reflexivity).
  assert (H3 : rows one_bet_table !! 1%Z = Some one_bet_row) by reflexivity.
  split; [exact H1|]. split; [exact H2|]. split; [exact H3|].
  split; [reflexivity|]. split; [reflexivity|].
  exact (proj1 (get_bet_by_id_positional 1 one_bet_db one_bet_table one_bet_row
                  H1 H2 H3) 6%nat "stake" "stake" eq_refl eq_refl).
Defined.

Lemma add_bet_then_get_bet_by_id_witness :
  validate_bet_input 50 3 "Loss" = []
  /\ bets one_bet_db = Some one_bet_table
  /\ current_schema one_bet_table
  /\ rows one_bet_table !! 2%Z = None
  /\ get_bet_by_id 2
       (exec (add_bet teams_dumps "2024-01-02" "A, C" "B, D" "Parlay" "Soccer"
                50 3 "Loss" "late goal" true (Some sample_legs)) one_bet_db)
     = Returned (Some
         [ ("id", SqlInt 2); ("date", SqlText "2024-01-02");
           ("team_a", SqlText "A, C"); ("team_b", SqlText "B, D");
           ("bet_type", SqlText "Parlay"); ("sport", SqlText "Soccer");
           ("stake", SqlReal 50); ("odds", SqlReal 3);
           ("result", SqlText "Loss"); ("profit_loss", SqlReal (- 50));
           ("notes", SqlText "late goal"); ("is_parlay", SqlInt 1);
           ("parlay_legs", SqlText "A v B; C v D") ]).
Proof.
  split; [reflexivity|]. split; [reflexivity|]. split; [reflexivity|].
  apply (add_bet_then_get_bet_by_id teams_dumps "2024-01-02" "A, C" "B, D"
           "Parlay" "Soccer" 50 3 "Loss" "late goal" true (Some sample_legs)
           one_bet_db one_bet_table); reflexivity.
Defined.

(** An empty list of legs is stored, and read back, as NULL. *)
Example add_bet_empty_legs_read_back :
  exists d,
    get_bet_by_id 2
      (exec (add_bet teams_dumps "2024-01-02" "C" "D" "Handicap" "Tennis"
               50 3 "Loss" "" true (Some [])) one_bet_db)
    = Returned (Some d)
    /\ record_get "is_parlay" d = Some (SqlInt 1)
    /\ record_get "parlay_legs" d = Some SqlNull.
Proof. eexists. split; [reflexivity|]. split; reflexivity. Qed.

Lemma update_bet_then_get_bet_by_id_witness :
  validate_bet_input 50 3 "Loss" = []
  /\ bets one_bet_db = Some one_bet_table
  /\ current_schema one_bet_table
  /\ is_Some (rows one_bet_table !! 1%Z)
  /\ get_bet_by_id 1
       (exec (update_bet no_legs_dumps 1 "2024-01-02" "C" "D" "Handicap"
                "Tennis" 50 3 "Loss" "late goal" false None) one_bet_db)
     = Returned (Some (("id", SqlInt 1)
                       :: bet_assignments no_legs_dumps "2024-01-02" "C" "D"
                            "Handicap" "Tennis" 50 3 "Loss"
                            (calculate_profit_loss 50 3 "Loss") "late goal"
                            false None)).
Proof.
  assert (H : is_Some (rows one_bet_table !! 1%Z)) by (eexists; reflexivity).
  split; [reflexivity|]. split; [reflexivity|]. split; [reflexivity|].
  split; [exact H|].
  apply (update_bet_then_get_bet_by_id no_legs_dumps "2024-01-02" "C" "D"
           "Handicap" "Tennis" 50 3 "Loss" "late goal" false None
           1 one_bet_db one_bet_table); [reflexivity|reflexivity|reflexivity|exact H].
Defined.

Lemma delete_bet_removes_witness :
  bets one_bet_db = Some one_bet_table
  /\ In "id" (column_names one_bet_table)
  /\ result_of (delete_bet 1) one_bet_db = Returned PyNone
  /\ get_bet_by_id 1 (exec (delete_bet 1) one_bet_db) = Returned None.
Proof.
  assert (H1 : bets one_bet_db = Some one_bet_table) by reflexivity.
  assert (H2 : In "id" (column_names one_bet_table)) by (left; reflexivity).
  split; [exact H1|]. split; [exact H2|].
  destruct (delete_bet_removes 1 one_bet_db one_bet_table H1 H2) as (Ha & Hb & _).
  split; [exact Ha|exact Hb].
Defined.

Lemma add_bet_keeps_the_rest_witness :
  validate_bet_input 50 3 "Loss" = []
  /\ bets one_bet_db = Some one_bet_table
  /\ has_columns one_bet_table ledger_columns = true
  /\ is_Some (rows one_bet_table !! 1%Z)
  /\ get_bet_by_id 1
       (exec (add_bet no_legs_dumps "2024-01-02" "C" "D" "Handicap" "Tennis"
                50 3 "Loss" "" false None) one_bet_db)
     = get_bet_by_id 1 one_bet_db.
Proof.
  assert (H : is_Some (rows one_bet_table !! 1%Z)) by (eexists; reflexivity).
  split; [reflexivity|]. split; [reflexivity|]. split; [reflexivity|].
  split; [exact H|].
  apply (proj1 (add_bet_keeps_the_rest no_legs_dumps "2024-01-02" "C" "D"
                  "Handicap" "Tennis" 50 3 "Loss" "" false None
                  one_bet_db one_bet_table eq_refl eq_refl eq_refl)).
  exact H.
Defined.

Lemma one_bet_table_counter : counter_current one_bet_table.
Proof.
  split; [vm_compute; discriminate|].
  intros k [r Hk].
  destruct (decide (k = 1%Z)) as [->|Hne]; [vm_compute; intuition discriminate|].
  exfalso. change (rows one_bet_table) with
    (<[1%Z := new_row (column_names fresh_bets)
                (bet_assignments no_legs_dumps "2024-01-01" "A" "B" "Moneyline"
                   "Soccer" 100 2 "Win" (calculate_profit_loss 100 2 "Win") ""
                   false None)]> (∅ : gmap Z (gmap string sql_value))) in Hk.
  rewrite lookup_insert_ne, lookup_empty in Hk by congruence. discriminate.
Defined.

Lemma add_bet_after_delete_bet_new_id_witness :
  validate_bet_input 50 3 "Loss" = []
  /\ bets one_bet_db = Some one_bet_table
  /\ has_columns one_bet_table ledger_columns = true
  /\ counter_current one_bet_table
  /\ exists t' row,
       bets (exec (add_bet no_legs_dumps "2024-01-02" "C" "D" "Handicap"
                     "Tennis" 50 3 "Loss" "" false None)
               (exec (delete_bet 1) one_bet_db)) = Some t'
       /\ rows t' = <[(last_rowid one_bet_table + 1)%Z := row]>
                      (delete 1%Z (rows one_bet_table))
       /\ (forall k, is_Some (rows one_bet_table !! k) ->
                     (k < last_rowid one_bet_table + 1)%Z).
Proof.
  split; [reflexivity|]. split; [reflexivity|]. split; [reflexivity|].
  split; [exact one_bet_table_counter|].
  exact (add_bet_after_delete_bet_new_id no_legs_dumps "2024-01-02" "C" "D"
           "Handicap" "Tennis" 50 3 "Loss" "" false None 1
           one_bet_db one_bet_table eq_refl eq_refl eq_refl
           one_bet_table_counter).
Defined.

(** After deleting bet 1 the next bet is bet 2, not bet 1 again. *)
Example deleted_id_not_reused :
  exists t', bets (exec (add_bet no_legs_dumps "2024-01-02" "C" "D" "Handicap"
                           "Tennis" 50 3 "Loss" "" false None)
                     (exec (delete_bet 1) one_bet_db)) = Some t'
             /\ rows t' !! 1%Z = None /\ is_Some (rows t' !! 2%Z).
Proof. eexists. split; [reflexivity|]. split; [reflexivity|eexists; reflexivity]. Qed.

Lemma get_bet_by_id_after_migration_witness :
  bets legacy_db = Some legacy_bets
  /\ In "id" (column_names legacy_bets)
  /\ rows legacy_bets !! 1%Z = Some legacy_row
  /\ expected_columns !! 2%nat = Some "team_a"
  /\ column_names legacy_bets !! 2%nat = Some "stake"
  /\ "stake" <> "id"
  /\ exists d,
       get_bet_by_id 1 (exec init_db legacy_db) = Returned (Some d)
       /\ record_get "team_a" d = Some (default SqlNull (legacy_row !! "stake")).
Proof.
  split; [reflexivity|]. split; [left; reflexivity|]. split; [reflexivity|].
  split; [reflexivity|]. split; [reflexivity|]. split; [discriminate|].
  apply (get_bet_by_id_after_migration 1 legacy_db legacy_bets legacy_row
           2%nat "team_a" "stake");
    first [reflexivity | discriminate | (left; reflexivity)].
Defined.

(** A migrated legacy bet read for editing: the stake shows up as the
    team, the notes as the stake. *)
Example legacy_bet_mislabelled :
  exists d,
    get_bet_by_id 1 (exec init_db legacy_db) = Returned (Some d)
    /\ record_get "team_a" d = Some (SqlReal 100)
    /\ record_get "stake" d = Some (SqlText "")
    /\ record_get "odds" d = Some SqlNull.
Proof. eexists. split; [reflexivity|]. repeat split; reflexivity. Qed.

(** ** Bankroll and quotes *)

(** X12. The three recognised operations read back through [get_bankroll] as
    balance + amount, balance - amount and amount, and they touch neither
    the bets, nor the quotes, nor any other bankroll row. When the bankroll
    table has no row 1 the update matches nothing: the call returns
    normally, the store is unchanged, and the balance still reads 0. When
    the table is missing altogether each of the three raises. *)
Theorem update_bankroll_effect (amount : Q) (s : db) :
  (forall m b, bankroll s = Some m -> m !! 1%Z = Some b ->
     get_bankroll (exec (update_bankroll amount "add") s) = Returned (b + amount)%Q
     /\ get_bankroll (exec (update_bankroll amount "subtract") s)
        = Returned (b - amount)%Q
     /\ get_bankroll (exec (update_bankroll amount "set") s) = Returned amount
     /\ forall operation,
          let s' := exec (update_bankroll amount operation) s in
          result_of (update_bankroll amount operation) s = Returned PyNone
          /\ bets s' = bets s /\ quotes s' = quotes s
          /\ exists m', bankroll s' = Some m'
                        /\ forall k, k <> 1%Z -> m' !! k = m !! k)
  /\ (forall m operation, bankroll s = Some m -> m !! 1%Z = None ->
        update_bankroll amount operation s = (Returned PyNone, s)
        /\ get_bankroll s = Returned 0%Q)
  /\ (bankroll s = None ->
      forall operation, In operation ["add"; "subtract"; "set"] ->
        update_bankroll amount operation s
        = (Raised (OperationalError "no such table: bankroll"), s)).
Proof.
  split; [|split].
  - intros m b Hm Hb.
    destruct (update_bankroll_known amount s m b Hm Hb) as (Ha & Hs & Hset).
    split; [exact Ha|]. split; [exact Hs|]. split; [exact Hset|].
    intros operation. cbv zeta.
    unfold exec, result_of, update_bankroll, update_bankroll_where_id,
      mbind, M_bind.
    destruct (String.eqb operation "add");
      [|destruct (String.eqb operation "set");
        [|destruct (String.eqb operation "subtract")]];
      unfold mret, M_ret; rewrite ?Hm;
      cbn [fst snd set_bankroll bets quotes bankroll];
      (split; [reflexivity|]); (split; [reflexivity|]); (split; [reflexivity|]);
      [eexists; (split; [reflexivity|]); intros k Hk;
       apply lookup_alter_ne; congruence ..
      |exists m; split; [exact Hm|reflexivity]].
  - intros m operation Hm Hb. split.
    + unfold update_bankroll, update_bankroll_where_id, mbind, M_bind.
      assert (E : forall f : Q -> Q, set_bankroll (alter f 1%Z m) s = s).
      { intros f. rewrite (alter_absent f 1%Z m Hb).
        destruct s as [sb sq sm]. cbn in Hm |- *. rewrite Hm. reflexivity. }
      destruct (String.eqb operation "add");
        [|destruct (String.eqb operation "set");
          [|destruct (String.eqb operation "subtract")]];
        cbn [mret M_ret]; rewrite ?Hm, ?E; reflexivity.
    + unfold get_bankroll. rewrite Hm, Hb. reflexivity.
  - intros Hm operation Hop.
    unfold update_bankroll, update_bankroll_where_id, mbind, M_bind.
    cbn [In] in Hop.
    destruct Hop as [<-|[<-|[<-|[]]]]; cbn [String.eqb Ascii.eqb Bool.eqb];
      rewrite Hm; reflexivity.
Qed.

Lemma update_bankroll_effect_witness :
  bankroll fresh_db = Some {[ 1%Z := 0%Q ]}
  /\ ({[ 1%Z := 0%Q ]} : gmap Z Q) !! 1%Z = Some 0%Q
  /\ get_bankroll (exec (update_bankroll 25 "add") fresh_db) = Returned (0 + 25)%Q
  /\ get_bankroll (exec (update_bankroll 25 "subtract") fresh_db)
     = Returned (0 - 25)%Q
  /\ get_bankroll (exec (update_bankroll 25 "set") fresh_db) = Returned 25%Q.
Proof.
  assert (H1 : bankroll fresh_db = Some {[ 1%Z := 0%Q ]}) by reflexivity.
  assert (H2 : ({[ 1%Z := 0%Q ]} : gmap Z Q) !! 1%Z = Some 0%Q) by reflexivity.
  split; [exact H1|]. split; [exact H2|].
  destruct (proj1 (update_bankroll_effect 25 fresh_db) _ _ H1 H2)
    as (Ha & Hs & Hset & _).
  split; [exact Ha|]. split; [exact Hs|exact Hset].
Defined.

(** X13. [get_bankroll] after [init_db] never raises: it returns the balance
    that was readable before, and 0 where there was no bankroll table or
    no row (the balance a new store starts with). *)
Theorem get_bankroll_after_init_db (s : db) :
  get_bankroll (exec init_db s)
  = Returned (match get_bankroll s with
              | Returned b => b
              | Raised _ => 0%Q
              end).
Proof.
  unfold exec. rewrite init_db_ensured. cbn [snd].
  unfold get_bankroll, ensured. cbn [bankroll].
  destruct (bankroll s) as [m|].
  - destruct (m !! 1%Z) as [b|] eqn:E.
    + rewrite E. reflexivity.
    + rewrite lookup_insert_eq. reflexivity.
  - rewrite lookup_empty, lookup_insert_eq. reflexivity.
Qed.

(** X14. [add_quote] stores the timestamp, the text and the category in a new
    row under an id that was not in use, and leaves the bets and the
    bankroll alone; [delete_quote] on that id puts the rows of the quotes
    table back as they were (the id counter stays advanced). *)
Theorem add_quote_then_delete_quote (now quote_text category : string)
  (s : db) (q : table) :
  quotes s = Some q -> columns q = quotes_columns ->
  let s1 := exec (add_quote now quote_text category) s in
  rows q !! next_id q = None
  /\ result_of (add_quote now quote_text category) s = Returned PyNone
  /\ (exists q1 row,
        quotes s1 = Some q1
        /\ rows q1 = <[next_id q := row]> (rows q)
        /\ row !! "timestamp" = Some (SqlText now)
        /\ row !! "quote_text" = Some (SqlText quote_text)
        /\ row !! "category" = Some (SqlText category))
  /\ bets s1 = bets s /\ bankroll s1 = bankroll s
  /\ (exists q2,
        quotes (exec (delete_quote (next_id q)) s1) = Some q2
        /\ rows q2 = rows q /\ columns q2 = columns q
        /\ last_rowid q2 = next_id q).
Proof.
  intros Hq Hqc. cbv zeta.
  assert (Hcols : column_names q = map fst quotes_columns).
  { unfold column_names. rewrite Hqc. reflexivity. }
  set (a := [ ("timestamp", SqlText now); ("quote_text", SqlText quote_text);
              ("category", SqlText category) ]).
  assert (E : add_quote now quote_text category s
              = (Returned PyNone, set_table Quotes (inserted q a) s)).
  { unfold add_quote. fold a. erewrite bind_returned; [reflexivity|].
    unfold insert_into. cbn [get_table]. rewrite Hq.
    rewrite (quote_columns_ready q a Hqc); [reflexivity|].
    subst a. cbn. intros x [<-|[<-|[<-|[]]]]; cbn; tauto. }
  unfold exec, result_of. rewrite E. cbn [fst snd].
  split; [apply next_id_fresh|]. split; [reflexivity|].
  split; [|split; [reflexivity|split; [reflexivity|]]].
  - eexists _, _. split; [reflexivity|]. split; [reflexivity|].
    rewrite Hcols. subst a. cbn. repeat split; reflexivity.
  - unfold delete_quote.
    erewrite bind_returned;
      [|apply (delete_where_id_run Quotes _ _ (inserted q a));
        [reflexivity|unfold inserted, column_names; cbn [columns];
                     rewrite Hqc; left; reflexivity]].
    cbn [snd]. eexists. split; [reflexivity|].
    cbn [rows columns last_rowid inserted].
    split; [|split; reflexivity].
    rewrite delete_insert_eq. apply delete_id, next_id_fresh.
Qed.

Lemma add_quote_then_delete_quote_witness :
  quotes fresh_db = Some {| columns := quotes_columns; rows := ∅; last_rowid := 0 |}
  /\ result_of (add_quote "2024-01-01T10:00:00" "Stay patient" "Discipline") fresh_db
     = Returned PyNone
  /\ bets (exec (add_quote "2024-01-01T10:00:00" "Stay patient" "Discipline") fresh_db)
     = bets fresh_db.
Proof.
  assert (H : quotes fresh_db
              = Some {| columns := quotes_columns; rows := ∅; last_rowid := 0 |})
    by reflexivity.
  split; [exact H|].
  destruct (add_quote_then_delete_quote "2024-01-01T10:00:00" "Stay patient"
              "Discipline" fresh_db _ H eq_refl) as (_ & Hr & _ & Hb & _).
  split; [exact Hr|exact Hb].
Defined.

Section Migration.

Variable json_dumps : list leg -> string.
Variables date team_a team_b bet_type sport : string.
Variables stake odds : Q.
Variables result notes : string.
Variable is_parlay : bool.
Variable parlay_legs : option (list leg).

(** X15. Migration is what makes an older table writable: on a [bets] table
    that lacks one of the six newer columns a valid [add_bet] raises
    [OperationalError] and stores nothing, and once [init_db] has run on a
    table that has the seven original columns the same call returns
    normally. *)
Theorem init_db_makes_bets_writable (s : db) (t : table) :
  validate_bet_input stake odds result = [] ->
  bets s = Some t -> has_columns t base_columns = true ->
  result_of (add_bet json_dumps date team_a team_b bet_type sport stake odds
               result notes is_parlay parlay_legs) (exec init_db s)
  = Returned PyNone
  /\ (has_columns t (map fst new_columns) = false ->
      exists msg,
        add_bet json_dumps date team_a team_b bet_type sport stake odds
          result notes is_parlay parlay_legs s
        = (Raised (OperationalError msg), s)).
Proof using Type.
  intros Hok Ht Hbase. split.
  - set (t1 := migrated (column_names t) new_columns t).
    assert (Ht1 : bets (exec init_db s) = Some t1).
    { unfold exec. rewrite init_db_ensured. cbn [snd]. unfold ensured.
      cbn [bets]. rewrite Ht. reflexivity. }
    assert (Hready : has_columns t1 ledger_columns = true).
    { unfold has_columns. apply forallb_forall. intros c Hc. apply str_in_iff.
      destruct (in_dec string_dec c (column_names t)) as [Hi|Hn].
      - apply migrated_columns_mono. exact Hi.
      - apply migrated_columns_added; [|exact Hn].
        pose proof (has_columns_In t _ Hbase) as Hb.
        cbn in Hc, Hb |- *.
        repeat (destruct Hc as [<-|Hc];
                [first [tauto | exfalso; apply Hn, Hb; tauto]|]).
        destruct Hc. }
    unfold result_of.
    rewrite (add_bet_run json_dumps _ _ _ _ _ _ _ _ _ _ _ (exec init_db s) t1
               Hok Ht1 Hready).
    reflexivity.
  - intros Hnew.
    assert (Hmiss : exists c,
      missing_column t
        (bet_assignments json_dumps date team_a team_b bet_type sport stake
           odds result (calculate_profit_loss stake odds result) notes
           is_parlay parlay_legs) = Some c).
    { destruct (missing_column t _) as [c|] eqn:E; [eauto|].
      exfalso. pose proof (missing_column_None t _ E) as Hall.
      assert (Hhas : has_columns t (map fst new_columns) = true).
      { unfold has_columns. apply forallb_forall. intros c Hc. apply str_in_iff.
        unfold bet_assignments in Hall. cbn in Hc.
        repeat (destruct Hc as [<-|Hc];
                [eapply Hall; cbn [In]; eauto 15|]).
        destruct Hc. }
      congruence. }
    destruct Hmiss as [c Hc]. eexists.
    unfold add_bet. rewrite (validation_passed _ _ _ Hok).
    erewrite bind_raised; [reflexivity|].
    unfold insert_into. cbn [get_table]. rewrite Ht, Hc. reflexivity.
Qed.

End Migration.

Lemma init_db_makes_bets_writable_witness :
  validate_bet_input 50 3 "Loss" = []
  /\ bets legacy_db = Some legacy_bets
  /\ has_columns legacy_bets base_columns = true
  /\ has_columns legacy_bets (map fst new_columns) = false
  /\ result_of (add_bet no_legs_dumps "2024-01-02" "C" "D" "Handicap" "Tennis"
                  50 3 "Loss" "" false None) (exec init_db legacy_db)
     = Returned PyNone
  /\ exists msg,
       add_bet no_legs_dumps "2024-01-02" "C" "D" "Handicap" "Tennis"
         50 3 "Loss" "" false None legacy_db
       = (Raised (OperationalError msg), legacy_db).
Proof.
  split; [reflexivity|]. split; [reflexivity|]. split; [reflexivity|].
  split; [reflexivity|].
  destruct (init_db_makes_bets_writable no_legs_dumps "2024-01-02" "C" "D"
              "Handicap" "Tennis" 50 3 "Loss" "" false None
              legacy_db legacy_bets eq_refl eq_refl eq_refl) as [H1 H2].
  split; [exact H1|exact (H2 eq_refl)].
Defined.

(** * Further properties of settlement and parlay odds *)

(** X16. A valid bet never loses more than its stake, a Win never loses, and
    the profit/loss is negative exactly when the result is "Loss". *)
Theorem calculate_profit_loss_bounds (stake odds : Q) (result : string) :
  (0 < stake)%Q -> (1 <= odds)%Q ->
  (- stake <= calculate_profit_loss stake odds result)%Q
  /\ (result = "Win" -> (0 <= calculate_profit_loss stake odds result)%Q)
  /\ ((calculate_profit_loss stake odds result < 0)%Q <-> result = "Loss").
Proof.
  intros Hs Ho.
  assert (Hw : (0 <= stake * odds - stake)%Q).
  { assert (H : (0 <= stake * (odds - 1))%Q)
      by (apply Qmult_le_0_compat; lra).
    assert (E : (stake * odds - stake == stake * (odds - 1))%Q) by ring.
    rewrite E. exact H. }
  unfold calculate_profit_loss.
  destruct (String.eqb_spec result "Win") as [->|Hnw].
  - split; [lra|]. split; [intros _; exact Hw|].
    split; [intros H; lra|discriminate].
  - destruct (String.eqb_spec result "Loss") as [->|Hnl].
    + split; [lra|]. split; [discriminate|]. split; [reflexivity|intros _; lra].
    + split; [lra|]. split; [contradiction|].
      split; [intros H; lra|contradiction].
Qed.

Lemma calculate_profit_loss_bounds_witness :
  (0 < 50)%Q /\ (1 <= 3)%Q
  /\ (- 50 <= calculate_profit_loss 50 3 "Loss")%Q
  /\ ((calculate_profit_loss 50 3 "Loss" < 0)%Q <-> "Loss" = "Loss").
Proof.
  assert (H1 : (0 < 50)%Q) by reflexivity.
  assert (H2 : (1 <= 3)%Q) by discriminate.
  split; [exact H1|]. split; [exact H2|].
  destruct (calculate_profit_loss_bounds 50 3 "Loss" H1 H2) as (Ha & _ & Hb).
  split; [exact Ha|exact Hb].
Defined.

Lemma round_half_even_cases (x : Q) :
  round_half_even x = Qfloor x \/ round_half_even x = (Qfloor x + 1)%Z.
Proof.
  unfold round_half_even.
  destruct (x - inject_Z (Qfloor x) ?= 1 # 2)%Q; auto.
  destruct (Z.even (Qfloor x)); auto.
Qed.

Lemma round_half_even_mono (x y : Q) :
  (x <= y)%Q -> (round_half_even x <= round_half_even y)%Z.
Proof.
  intros Hxy. pose proof (Qfloor_resp_le x y Hxy) as Hf.
  destruct (Z.eq_dec (Qfloor x) (Qfloor y)) as [E|Hne].
  - unfold round_half_even. rewrite <- E.
    destruct (x - inject_Z (Qfloor x) ?= 1 # 2)%Q eqn:Ex;
      destruct (y - inject_Z (Qfloor x) ?= 1 # 2)%Q eqn:Ey;
      try (destruct (Z.even (Qfloor x))); try lia;
      exfalso;
      repeat match goal with
             | H : (_ ?= _)%Q = Eq |- _ => apply Qeq_alt in H
             | H : (_ ?= _)%Q = Lt |- _ => apply Qlt_alt in H
             | H : (_ ?= _)%Q = Gt |- _ => apply Qgt_alt in H
             end; lra.
  - destruct (round_half_even_cases x) as [->| ->],
      (round_half_even_cases y) as [->| ->]; lia.
Qed.

Lemma round_half_even_Z (k : Z) : round_half_even (inject_Z k) = k.
Proof.
  unfold round_half_even. rewrite Qfloor_Z.
  assert (E : (inject_Z k - inject_Z k ?= 1 # 2)%Q = Lt).
  { apply (proj1 (Qlt_alt _ _)).
    assert (E0 : (inject_Z k - inject_Z k == 0)%Q) by ring.
    rewrite E0. reflexivity. }
  rewrite E. reflexivity.
Qed.

Lemma py_round_2_mono (x y : Q) : (x <= y)%Q -> (py_round x 2 <= py_round y 2)%Q.
Proof.
  intros Hxy.
  rewrite (proj1 (py_round_2_hundredths x)), (proj1 (py_round_2_hundredths y)).
  assert (H : (round_half_even (x * 100) <= round_half_even (y * 100))%Z).
  { apply round_half_even_mono. lra. }
  unfold Qle. cbn [Qnum Qden]. nia.
Qed.

Lemma py_round_2_exact (k : Z) : (py_round (k # 100) 2 == k # 100)%Q.
Proof.
  rewrite (proj1 (py_round_2_hundredths (k # 100))).
  assert (E : ((k # 100) * 100 == inject_Z k)%Q).
  { unfold Qeq, inject_Z. cbn. lia. }
  rewrite (round_half_even_comp _ _ E), round_half_even_Z. reflexivity.
Qed.

Lemma odds_product_ge_1 (legs : list leg) :
  Forall (fun l => (1 <= leg_odds l)%Q) legs -> (1 <= odds_product legs)%Q.
Proof.
  induction 1 as [|l legs Hl _ IH]; cbn [odds_product]; [lra|].
  assert (H : (0 <= (leg_odds l - 1) * odds_product legs)%Q)
    by (apply Qmult_le_0_compat; lra).
  assert (E : (leg_odds l * odds_product legs
               == (leg_odds l - 1) * odds_product legs + odds_product legs)%Q)
    by ring.
  rewrite E. lra.
Qed.

Lemma odds_product_app (legs1 legs2 : list leg) :
  (odds_product (legs1 ++ legs2) == odds_product legs1 * odds_product legs2)%Q.
Proof.
  induction legs1 as [|l legs1 IH]; cbn [app odds_product]; [ring|].
  rewrite IH. ring.
Qed.

(** X17. With every leg at odds of at least 1.0 (what the leg form admits), the
    combined odds are at least 1.0, and appending one more such leg never
    lowers them. *)
Theorem calculate_parlay_odds_grows (legs : list leg) (l : leg) :
  Forall (fun l => (1 <= leg_odds l)%Q) legs -> (1 <= leg_odds l)%Q ->
  (1 <= calculate_parlay_odds legs)%Q
  /\ (calculate_parlay_odds legs <= calculate_parlay_odds (legs ++ [l]))%Q.
Proof.
  intros Hlegs Hl.
  pose proof (odds_product_ge_1 legs Hlegs) as Hp.
  assert (H1 : forall ls, (1 <= odds_product ls)%Q ->
                          (1 <= calculate_parlay_odds ls)%Q).
  { intros ls Hls. rewrite calculate_parlay_odds_round.
    assert (E : (1 == py_round (100 # 100) 2)%Q) by reflexivity.
    rewrite E at 1. apply py_round_2_mono.
    assert (E' : (100 # 100 == 1)%Q) by reflexivity. rewrite E'. exact Hls. }
  split; [apply H1, Hp|].
  rewrite !calculate_parlay_odds_round. apply py_round_2_mono.
  rewrite odds_product_app. cbn [odds_product].
  assert (H : (0 <= odds_product legs * (leg_odds l - 1))%Q)
    by (apply Qmult_le_0_compat; lra).
  assert (E : (odds_product legs * (leg_odds l * 1)
               == odds_product legs * (leg_odds l - 1) + odds_product legs)%Q)
    by ring.
  rewrite E. lra.
Qed.

Lemma calculate_parlay_odds_grows_witness :
  Forall (fun l => (1 <= leg_odds l)%Q) [leg_with_odds 2; leg_with_odds (3 # 2)]
  /\ (1 <= leg_odds (leg_with_odds (5 # 4)))%Q
  /\ (1 <= calculate_parlay_odds [leg_with_odds 2; leg_with_odds (3 # 2)])%Q
  /\ (calculate_parlay_odds [leg_with_odds 2; leg_with_odds (3 # 2)]
      <= calculate_parlay_odds
           ([leg_with_odds 2; leg_with_odds (3 # 2)] ++ [leg_with_odds (5 # 4)]))%Q.
Proof.
  assert (H1 : Forall (fun l => (1 <= leg_odds l)%Q)
                 [leg_with_odds 2; leg_with_odds (3 # 2)])
    by (repeat constructor; discriminate).
  assert (H2 : (1 <= leg_odds (leg_with_odds (5 # 4)))%Q) by discriminate.
  split; [exact H1|]. split; [exact H2|].
  exact (calculate_parlay_odds_grows _ _ H1 H2).
Defined.



(** * Further properties of the metrics *)

Lemma frame_len_pos {A : Type} (df : list A) : df <> [] -> (0 < frame_len df)%Q.
Proof.
  destruct df as [|a df]; [congruence|]. intros _.
  unfold frame_len, Qlt, inject_Z. cbn [Qnum Qden length]. lia.
Qed.

Lemma frame_len_cons {A : Type} (a : A) (df : list A) :
  (frame_len (a :: df) == 1 + frame_len df)%Q.
Proof.
  unfold frame_len. cbn [length]. rewrite Nat2Z.inj_succ, <- Z.add_1_l.
  rewrite inject_Z_plus. reflexivity.
Qed.

(** The number of wins, as the sum of the boolean series. *)
Lemma win_series_sum (df : list bet) :
  (series_sum (map (fun b => bool_to_Q (result_is "Win" b)) df)
   == frame_len (with_result "Win" df))%Q.
Proof.
  induction df as [|b df IH]; [reflexivity|].
  cbn [map]. rewrite series_sum_cons, IH.
  unfold with_result. cbn [List.filter].
  destruct (result_is "Win" b); cbn [bool_to_Q].
  - rewrite frame_len_cons. reflexivity.
  - ring.
Qed.

Lemma filter_length_le {A : Type} (f : A -> bool) (l : list A) :
  (length (List.filter f l) <= length l)%nat.
Proof.
  induction l as [|a l IH]; cbn [List.filter length]; [lia|].
  destruct (f a); cbn [length]; lia.
Qed.

Lemma frame_len_le {A : Type} (l1 l2 : list A) :
  (length l1 <= length l2)%nat -> (frame_len l1 <= frame_len l2)%Q.
Proof.
  intros H. unfold frame_len, Qle, inject_Z. cbn [Qnum Qden]. lia.
Qed.

Lemma frame_len_nonneg {A : Type} (l : list A) : (0 <= frame_len l)%Q.
Proof. unfold frame_len, Qle, inject_Z. cbn [Qnum Qden]. lia. Qed.

(** X19. The basic metrics of a non-empty ledger: the count is the number of
    records, total P/L is the sum of the profit_loss column, and the win
    rate is 100 times the share of all records (Pending and Push included)
    whose result is "Win", hence between 0 and 100. *)
Theorem calculate_metrics_win_rate (df : list bet) :
  df <> [] ->
  let '(total_pl, roi, win_rate, n) := calculate_metrics df in
  n = length df
  /\ (total_pl == total_of col_profit_loss df)%Q
  /\ (win_rate == frame_len (with_result "Win" df) / frame_len df * 100)%Q
  /\ (0 <= win_rate <= 100)%Q.
Proof.
  intros Hne. unfold calculate_metrics.
  apply frame_empty_false in Hne. rewrite Hne.
  apply frame_empty_false in Hne.
  pose proof (frame_len_pos df Hne) as Hpos.
  pose proof (frame_len_nonneg (with_result "Win" df)) as Hw0.
  assert (Hwle : (frame_len (with_result "Win" df) <= frame_len df)%Q)
    by (apply frame_len_le, filter_length_le).
  assert (Hrate :
    (series_mean (map (fun b => bool_to_Q (result_is "Win" b)) df) * 100
     == frame_len (with_result "Win" df) / frame_len df * 100)%Q).
  { unfold series_mean. rewrite win_series_sum.
    unfold frame_len at 2. rewrite length_map. reflexivity. }
  split; [reflexivity|]. split; [apply series_sum_total_of|].
  split; [exact Hrate|]. rewrite Hrate.
  set (w := frame_len (with_result "Win" df)) in *.
  set (n := frame_len df) in *.
  assert (H0 : (0 <= w / n)%Q) by (apply Qle_shift_div_l; lra).
  assert (H1 : (w / n <= 1)%Q) by (apply Qle_shift_div_r; lra).
  split; lra.
Qed.

Lemma calculate_metrics_win_rate_witness :
  sample_ledger <> []
  /\ (let '(total_pl, roi, win_rate, n) := calculate_metrics sample_ledger in
      n = length sample_ledger
      /\ (total_pl == total_of col_profit_loss sample_ledger)%Q
      /\ (win_rate == frame_len (with_result "Win" sample_ledger)
                      / frame_len sample_ledger * 100)%Q
      /\ (0 <= win_rate <= 100)%Q).
Proof.
  assert (H : sample_ledger <> []) by discriminate.
  split; [exact H|]. exact (calculate_metrics_win_rate sample_ledger H).
Defined.

Lemma fold_left_Qmax_ge (xs : list Q) (a : Q) :
  (a <= fold_left Qmax xs a)%Q
  /\ (forall x, In x xs -> (x <= fold_left Qmax xs a)%Q).
Proof.
  revert a. induction xs as [|y xs IH]; intros a; cbn [fold_left].
  - split; [lra|intros x []].
  - destruct (IH (Qmax a y)) as [H1 H2].
    pose proof (Q.le_max_l a y). pose proof (Q.le_max_r a y).
    split; [lra|]. intros x [<-|Hx]; [lra|auto].
Qed.

Lemma fold_left_Qmax_attained (xs : list Q) (a : Q) :
  exists x, In x (a :: xs) /\ (x == fold_left Qmax xs a)%Q.
Proof.
  revert a. induction xs as [|y xs IH]; intros a; cbn [fold_left].
  - exists a. split; [left; reflexivity|reflexivity].
  - destruct (IH (Qmax a y)) as (x & [<-|Hx] & Heq).
    + destruct (Q.max_spec a y) as [[_ E]|[_ E]].
      * exists y. split; [right; left; reflexivity|]. rewrite <- Heq, E. reflexivity.
      * exists a. split; [left; reflexivity|]. rewrite <- Heq, E. reflexivity.
    + exists x. split; [right; right; exact Hx|exact Heq].
Qed.

Lemma fold_left_Qmin_le (xs : list Q) (a : Q) :
  (fold_left Qmin xs a <= a)%Q
  /\ (forall x, In x xs -> (fold_left Qmin xs a <= x)%Q).
Proof.
  revert a. induction xs as [|y xs IH]; intros a; cbn [fold_left].
  - split; [lra|intros x []].
  - destruct (IH (Qmin a y)) as [H1 H2].
    pose proof (Q.le_min_l a y). pose proof (Q.le_min_r a y).
    split; [lra|]. intros x [<-|Hx]; [lra|auto].
Qed.

Lemma fold_left_Qmin_attained (xs : list Q) (a : Q) :
  exists x, In x (a :: xs) /\ (x == fold_left Qmin xs a)%Q.
Proof.
  revert a. induction xs as [|y xs IH]; intros a; cbn [fold_left].
  - exists a. split; [left; reflexivity|reflexivity].
  - destruct (IH (Qmin a y)) as (x & [<-|Hx] & Heq).
    + destruct (Q.min_spec a y) as [[_ E]|[_ E]].
      * exists a. split; [left; reflexivity|]. rewrite <- Heq, E. reflexivity.
      * exists y. split; [right; left; reflexivity|]. rewrite <- Heq, E. reflexivity.
    + exists x. split; [right; right; exact Hx|exact Heq].
Qed.

Lemma series_max_spec (xs : list Q) :
  xs <> [] ->
  (forall x, In x xs -> (x <= series_max xs)%Q)
  /\ exists x, In x xs /\ (x == series_max xs)%Q.
Proof.
  destruct xs as [|a xs]; [congruence|]. intros _. cbn [series_max].
  destruct (fold_left_Qmax_ge xs a) as [H1 H2]. split.
  - intros x [<-|Hx]; auto.
  - apply fold_left_Qmax_attained.
Qed.

Lemma series_min_spec (xs : list Q) :
  xs <> [] ->
  (forall x, In x xs -> (series_min xs <= x)%Q)
  /\ exists x, In x xs /\ (x == series_min xs)%Q.
Proof.
  destruct xs as [|a xs]; [congruence|]. intros _. cbn [series_min].
  destruct (fold_left_Qmin_le xs a) as [H1 H2]. split.
  - intros x [<-|Hx]; auto.
  - apply fold_left_Qmin_attained.
Qed.

(** The entries of the advanced metrics, over the settled records and the
    wins and losses of the ledger. *)
Lemma calculate_advanced_metrics_entries (df : list bet) :
  settled df <> [] ->
  let wins := with_result "Win" df in
  let losses := with_result "Loss" df in
  dict_get "biggest_win" (calculate_advanced_metrics df)
  = Some (MFloat (series_max (map col_profit_loss (settled df))))
  /\ dict_get "biggest_loss" (calculate_advanced_metrics df)
     = Some (MFloat (series_min (map col_profit_loss (settled df))))
  /\ dict_get "expected_value" (calculate_advanced_metrics df)
     = Some (MFloat ((series_sum (map col_profit_loss wins)
                      + series_sum (map col_profit_loss losses))
                     / frame_len (settled df)))
  /\ dict_get "avg_stake" (calculate_advanced_metrics df)
     = Some (MFloat (series_mean (map col_stake (settled df))))
  /\ dict_get "avg_win_odds" (calculate_advanced_metrics df)
     = Some (MFloat (if negb (frame_empty wins)
                     then series_mean (map col_odds wins) else 0))
  /\ dict_get "avg_loss_odds" (calculate_advanced_metrics df)
     = Some (MFloat (if negb (frame_empty losses)
                     then series_mean (map col_odds losses) else 0)).
Proof.
  intros Hne. cbv zeta. unfold calculate_advanced_metrics.
  destruct df as [|b0 df0]; [destruct Hne; reflexivity|].
  cbn [frame_empty].
  pose proof Hne as Hne'. apply frame_empty_false in Hne'. rewrite Hne'.
  rewrite !filter_settled by auto.
  assert (Hlen : (0 <? length (settled (b0 :: df0)))%nat = true).
  { apply Nat.ltb_lt. destruct (settled (b0 :: df0)); [congruence|cbn; lia]. }
  rewrite Hlen. repeat split; reflexivity.
Qed.

(** X20. The two extremes are taken over the settled records only: every
    settled profit_loss lies between biggest_loss and biggest_win, and each
    of the two is the profit_loss of some settled record (so with no Loss
    on record biggest_loss is the smallest win). *)
Theorem advanced_metrics_extremes (df : list bet) :
  settled df <> [] ->
  exists biggest_win biggest_loss,
    dict_get "biggest_win" (calculate_advanced_metrics df)
    = Some (MFloat biggest_win)
    /\ dict_get "biggest_loss" (calculate_advanced_metrics df)
       = Some (MFloat biggest_loss)
    /\ (forall b, In b df -> is_settled b ->
          (biggest_loss <= col_profit_loss b <= biggest_win)%Q)
    /\ (exists b, In b df /\ is_settled b
                  /\ (col_profit_loss b == biggest_win)%Q)
    /\ (exists b, In b df /\ is_settled b
                  /\ (col_profit_loss b == biggest_loss)%Q).
Proof.
  intros Hne.
  destruct (calculate_advanced_metrics_entries df Hne) as (Hw & Hl & _).
  assert (Hm : map col_profit_loss (settled df) <> []).
  { destruct (settled df); [congruence|discriminate]. }
  destruct (series_max_spec _ Hm) as [Hmax (xw & Hxw & Ew)].
  destruct (series_min_spec _ Hm) as [Hmin (xl & Hxl & El)].
  eexists _, _. split; [exact Hw|]. split; [exact Hl|].
  split; [|split].
  - intros b Hb Hs.
    assert (Hin : In (col_profit_loss b) (map col_profit_loss (settled df))).
    { apply in_map, In_settled. auto. }
    split; [apply Hmin, Hin|apply Hmax, Hin].
  - apply in_map_iff in Hxw. destruct Hxw as (b & <- & Hb).
    apply In_settled in Hb. exists b. tauto.
  - apply in_map_iff in Hxl. destruct Hxl as (b & <- & Hb).
    apply In_settled in Hb. exists b. tauto.
Qed.

Lemma advanced_metrics_extremes_witness :
  settled sample_ledger <> []
  /\ exists biggest_win biggest_loss,
       dict_get "biggest_win" (calculate_advanced_metrics sample_ledger)
       = Some (MFloat biggest_win)
       /\ dict_get "biggest_loss" (calculate_advanced_metrics sample_ledger)
          = Some (MFloat biggest_loss)
       /\ (forall b, In b sample_ledger -> is_settled b ->
             (biggest_loss <= col_profit_loss b <= biggest_win)%Q)
       /\ (exists b, In b sample_ledger /\ is_settled b
                     /\ (col_profit_loss b == biggest_win)%Q)
       /\ (exists b, In b sample_ledger /\ is_settled b
                     /\ (col_profit_loss b == biggest_loss)%Q).
Proof.
  split; [exact sample_settled|].
  exact (advanced_metrics_extremes sample_ledger sample_settled).
Defined.

Lemma result_tests (b : bet) :
  (col_result b = "Win"
   /\ str_in (col_result b) ["Win"; "Loss"] = true
   /\ result_is "Win" b = true /\ result_is "Loss" b = false)
  \/ (col_result b = "Loss"
      /\ str_in (col_result b) ["Win"; "Loss"] = true
      /\ result_is "Win" b = false /\ result_is "Loss" b = true)
  \/ (col_result b <> "Win" /\ col_result b <> "Loss"
      /\ str_in (col_result b) ["Win"; "Loss"] = false
      /\ result_is "Win" b = false /\ result_is "Loss" b = false).
Proof.
  unfold result_is, str_in. cbn [existsb].
  destruct (String.eqb_spec (col_result b) "Win") as [E|Hw].
  - left. rewrite E. repeat split; reflexivity.
  - destruct (String.eqb_spec (col_result b) "Loss") as [E|Hl].
    + right. left. repeat split; auto.
    + right. right. repeat split; auto.
Qed.

(** A settled record is a Win or a Loss, never both. *)
Lemma settled_partition (column : bet -> Q) (df : list bet) :
  (total_of column (settled df)
   == total_of column (with_result "Win" df)
      + total_of column (with_result "Loss" df))%Q
  /\ length (settled df)
     = (length (with_result "Win" df) + length (with_result "Loss" df))%nat.
Proof.
  unfold settled, with_result.
  induction df as [|b df [IH1 IH2]]; [split; reflexivity|].
  cbn [List.filter].
  destruct (result_tests b) as [(_ & -> & -> & ->)|[(_ & -> & -> & ->)
                                                   |(_ & _ & -> & -> & ->)]];
    cbn [total_of length].
  - split; [rewrite IH1; ring|rewrite IH2; reflexivity].
  - split; [rewrite IH1; ring|rewrite IH2; lia].
  - split; assumption.
Qed.

Lemma total_of_bounds (column : bet -> Q) (records : list bet) (lo hi : Q) :
  (forall b, In b records -> (lo <= column b <= hi)%Q) ->
  (lo * frame_len records <= total_of column records <= hi * frame_len records)%Q.
Proof.
  induction records as [|b records IH]; intros H.
  - assert (E : (frame_len (@nil bet) == 0)%Q) by reflexivity.
    cbn [total_of]. rewrite E. split; lra.
  - cbn [total_of]. rewrite frame_len_cons.
    destruct (H b (or_introl eq_refl)) as [H1 H2].
    destruct IH as [I1 I2]; [intros b' Hb'; apply H; right; exact Hb'|].
    split; lra.
Qed.

(** X21. The expected value is the mean profit_loss of the settled records
    (counted as wins plus losses), so it lies between biggest_loss and
    biggest_win. *)
Theorem advanced_metrics_expected_value (df : list bet) :
  settled df <> [] ->
  exists ev biggest_win biggest_loss,
    dict_get "expected_value" (calculate_advanced_metrics df) = Some (MFloat ev)
    /\ dict_get "biggest_win" (calculate_advanced_metrics df)
       = Some (MFloat biggest_win)
    /\ dict_get "biggest_loss" (calculate_advanced_metrics df)
       = Some (MFloat biggest_loss)
    /\ dict_get "total_settled_bets" (calculate_advanced_metrics df)
       = Some (MInt (length (with_result "Win" df)
                     + length (with_result "Loss" df)))
    /\ (ev * frame_len (settled df) == total_of col_profit_loss (settled df))%Q
    /\ (biggest_loss <= ev <= biggest_win)%Q.
Proof.
  intros Hne.
  destruct (calculate_advanced_metrics_entries df Hne) as (Hw & Hl & He & _).
  destruct (calculate_advanced_metrics_populated df Hne) as [_ Hn].
  destruct (settled_partition col_profit_loss df) as [Hsum Hlen].
  pose proof (frame_len_pos (settled df) Hne) as Hpos.
  assert (Hm : map col_profit_loss (settled df) <> []).
  { destruct (settled df); [congruence|discriminate]. }
  destruct (series_max_spec _ Hm) as [Hmax _].
  destruct (series_min_spec _ Hm) as [Hmin _].
  set (bw := series_max (map col_profit_loss (settled df))) in *.
  set (bl := series_min (map col_profit_loss (settled df))) in *.
  destruct (total_of_bounds col_profit_loss (settled df) bl bw) as [Hlo Hhi].
  { intros b Hb. split; [apply Hmin|apply Hmax]; apply in_map, Hb. }
  eexists _, bw, bl. split; [exact He|]. split; [exact Hw|]. split; [exact Hl|].
  split; [rewrite <- Hlen; exact Hn|].
  rewrite !series_sum_total_of, <- Hsum.
  set (total := total_of col_profit_loss (settled df)) in *.
  set (n := frame_len (settled df)) in *.
  split.
  - field. intros E. rewrite E in Hpos. exact (Qlt_irrefl _ Hpos).
  - split.
    + apply Qle_shift_div_l; [exact Hpos|exact Hlo].
    + apply Qle_shift_div_r; [exact Hpos|exact Hhi].
Qed.

Lemma advanced_metrics_expected_value_witness :
  settled sample_ledger <> []
  /\ exists ev biggest_win biggest_loss,
       dict_get "expected_value" (calculate_advanced_metrics sample_ledger)
       = Some (MFloat ev)
       /\ dict_get "biggest_win" (calculate_advanced_metrics sample_ledger)
          = Some (MFloat biggest_win)
       /\ dict_get "biggest_loss" (calculate_advanced_metrics sample_ledger)
          = Some (MFloat biggest_loss)
       /\ dict_get "total_settled_bets" (calculate_advanced_metrics sample_ledger)
          = Some (MInt (length (with_result "Win" sample_ledger)
                        + length (with_result "Loss" sample_ledger)))
       /\ (ev * frame_len (settled sample_ledger)
           == total_of col_profit_loss (settled sample_ledger))%Q
       /\ (biggest_loss <= ev <= biggest_win)%Q.
Proof.
  split; [exact sample_settled|].
  exact (advanced_metrics_expected_value sample_ledger sample_settled).
Defined.

(** In a derived ledger an unsettled record weighs nothing. *)
Lemma derived_total_settled (df : list bet) :
  ledger_derived df ->
  (total_of col_profit_loss df == total_of col_profit_loss (settled df))%Q.
Proof.
  unfold settled.
  induction 1 as [|b df Hb _ IH]; [reflexivity|].
  cbn [List.filter].
  destruct (result_tests b) as [(_ & -> & _)|[(_ & -> & _)|(Hw & Hl & -> & _)]];
    cbn [total_of]; rewrite IH; [reflexivity|reflexivity|].
  rewrite Hb, (calculate_profit_loss_other _ _ _ Hw Hl). ring.
Qed.

Lemma derived_losses (df : list bet) :
  ledger_derived df ->
  (total_of col_profit_loss (with_result "Loss" df)
   == - total_of col_stake (with_result "Loss" df))%Q.
Proof.
  unfold with_result.
  induction 1 as [|b df Hb _ IH]; [reflexivity|].
  cbn [List.filter].
  destruct (result_tests b) as [(_ & _ & _ & ->)|[(E & _ & _ & ->)
                                                 |(_ & _ & _ & _ & ->)]];
    [exact IH| |exact IH].
  cbn [total_of]. rewrite IH, Hb, E. unfold calculate_profit_loss.
  cbn [String.eqb Ascii.eqb Bool.eqb]. ring.
Qed.

(** X22. Pending and Push records do not move the total: in a ledger whose
    profit_loss values were derived by settlement, the total P/L of the
    basic metrics is the expected value of the advanced metrics times the
    number of settled records. *)
Theorem total_pl_is_settled_pl (df : list bet) :
  ledger_derived df -> settled df <> [] ->
  exists ev,
    dict_get "expected_value" (calculate_advanced_metrics df) = Some (MFloat ev)
    /\ (fst (fst (fst (calculate_metrics df)))
        == ev * frame_len (settled df))%Q.
Proof.
  intros Hd Hne.
  destruct (calculate_advanced_metrics_entries df Hne) as (_ & _ & He & _).
  destruct (settled_partition col_profit_loss df) as [Hsum _].
  pose proof (frame_len_pos (settled df) Hne) as Hpos.
  eexists. split; [exact He|].
  assert (Hdf : frame_empty df = false).
  { destruct df; [destruct Hne; reflexivity|reflexivity]. }
  unfold calculate_metrics. rewrite Hdf. cbn [fst].
  rewrite !series_sum_total_of, <- Hsum, (derived_total_settled df Hd).
  field. intros E. rewrite E in Hpos. exact (Qlt_irrefl _ Hpos).
Qed.

Lemma sample_ledger_derived : ledger_derived sample_ledger.
Proof. repeat constructor; reflexivity. Defined.

Lemma total_pl_is_settled_pl_witness :
  ledger_derived sample_ledger /\ settled sample_ledger <> []
  /\ exists ev,
       dict_get "expected_value" (calculate_advanced_metrics sample_ledger)
       = Some (MFloat ev)
       /\ (fst (fst (fst (calculate_metrics sample_ledger)))
           == ev * frame_len (settled sample_ledger))%Q.
Proof.
  split; [exact sample_ledger_derived|]. split; [exact sample_settled|].
  exact (total_pl_is_settled_pl sample_ledger sample_ledger_derived
           sample_settled).
Defined.



(** * The ledger as a frame *)

Lemma index_of_None (c : string) (cols : list string) :
  ~ In c cols -> index_of c cols = None.
Proof.
  induction cols as [|c0 cols IH]; intros H; [reflexivity|].
  cbn [index_of]. cbn [In] in H.
  destruct (String.eqb_spec c0 c) as [->|Hne]; [tauto|].
  rewrite IH by tauto. reflexivity.
Qed.

(** The columns the loop appends to a frame with columns [cols]. *)
Lemma backfill_fold (todo : list string) :
  List.NoDup todo ->
  forall df,
    let added := List.filter (fun c => negb (str_in c (frame_columns df))) todo in
    fold_left backfill todo df
    = {| frame_columns := frame_columns df ++ added;
         frame_rows := map (fun row => row ++ map backfill_value added)
                           (frame_rows df) |}.
Proof.
  induction 1 as [|c todo Hc Hnd IH]; intros df; cbv zeta.
  - cbn [fold_left List.filter map]. destruct df as [cols rs]. cbn.
    rewrite app_nil_r. f_equal.
    induction rs as [|r rs IHr]; [reflexivity|].
    cbn [map]. rewrite app_nil_r, <- IHr at 1. reflexivity.
  - cbn [fold_left List.filter].
    destruct (str_in c (frame_columns df)) eqn:Ec; cbn [negb].
    + assert (E : backfill df c = df) by (unfold backfill; rewrite Ec; reflexivity).
      rewrite E. apply IH.
    + assert (E : backfill df c
                  = {| frame_columns := frame_columns df ++ [c];
                       frame_rows := map (fun row => row ++ [backfill_value c])
                                         (frame_rows df) |}).
      { unfold backfill. rewrite Ec. cbn [negb]. unfold frame_assign.
        apply str_in_false_iff in Ec. rewrite (index_of_None c _ Ec).
        reflexivity. }
      rewrite E, IH. cbv zeta. cbn [frame_columns frame_rows].
      assert (Hf : List.filter
                     (fun c0 => negb (str_in c0 (frame_columns df ++ [c]))) todo
                   = List.filter
                       (fun c0 => negb (str_in c0 (frame_columns df))) todo).
      { apply List.filter_ext_in. intros c0 Hc0. f_equal.
        destruct (str_in c0 (frame_columns df)) eqn:E0.
        - apply str_in_iff. apply in_app_iff. left. apply str_in_iff. exact E0.
        - apply str_in_false_iff. rewrite in_app_iff. intros [Hin|[->|[]]].
          + apply str_in_false_iff in E0. exact (E0 Hin).
          + exact (Hc Hc0). }
      rewrite Hf, <- app_assoc. cbn [app]. f_equal.
      rewrite map_map. apply map_ext. intros row.
      rewrite <- app_assoc. reflexivity.
Qed.

Section FrameProperties.

Variable order_by_desc : string -> table -> list (Z * gmap string sql_value).

(** The engine returns every row of the table once. *)
Hypothesis order_by_desc_perm :
  forall c t, Permutation (order_by_desc c t) (map_to_list (rows t)).

(** X24. [get_bets] returns every row of the table once, under the table's own
    columns followed by the expected columns the table lacks; the added
    cells hold the defaults ("" for the text columns, 0 for is_parlay,
    0.0 for the rest) and no stored value is changed. So all thirteen
    expected columns are always there, and a table in the current schema
    comes back as it is. *)
Theorem get_bets_frame (s : db) (t : table) :
  bets s = Some t -> In "date" (column_names t) ->
  let added :=
    List.filter (fun c => negb (str_in c (column_names t))) expected_columns in
  exists df,
    get_bets order_by_desc s = Some df
    /\ frame_columns df = column_names t ++ added
    /\ (forall c, In c expected_columns -> In c (frame_columns df))
    /\ Permutation (frame_rows df)
         (map (fun kr => select_star t (fst kr) (snd kr)
                         ++ map backfill_value added)
              (map_to_list (rows t)))
    /\ length (frame_rows df) = size (rows t)
    /\ (current_schema t -> frame_columns df = expected_columns /\ added = []).
Proof using order_by_desc_perm.
  intros Ht Hdate. cbv zeta.
  set (added := List.filter
                  (fun c => negb (str_in c (column_names t))) expected_columns).
  assert (E : get_bets order_by_desc s
              = Some {| frame_columns := column_names t ++ added;
                        frame_rows :=
                          map (fun row => row ++ map backfill_value added)
                              (map (fun kr => select_star t (fst kr) (snd kr))
                                   (order_by_desc "date" t)) |}).
  { unfold get_bets, read_sql_ordered. cbn [get_table]. rewrite Ht.
    apply str_in_iff in Hdate. rewrite Hdate. cbn [negb mbind option_bind].
    rewrite (backfill_fold expected_columns expected_columns_NoDup).
    reflexivity. }
  eexists. split; [exact E|]. cbn [frame_columns frame_rows].
  split; [reflexivity|]. split; [|split; [|split]].
  - intros c Hc. apply in_app_iff.
    destruct (str_in c (column_names t)) eqn:Ec.
    + left. apply str_in_iff. exact Ec.
    + right. apply filter_In. split; [exact Hc|]. rewrite Ec. reflexivity.
  - rewrite map_map. apply Permutation_map, order_by_desc_perm.
  - rewrite !length_map, (Permutation_length (order_by_desc_perm "date" t)).
    apply length_map_to_list.
  - intros Hs. subst added. rewrite Hs. split; reflexivity.
Qed.

End FrameProperties.

Lemma rowid_order_perm :
  forall c t, Permutation (rowid_order c t) (map_to_list (rows t)).
Proof. intros c t. apply Permutation_refl. Defined.

Lemma get_bets_frame_witness :
  (forall c t, Permutation (rowid_order c t) (map_to_list (rows t)))
  /\ bets legacy_db = Some legacy_bets
  /\ In "date" (column_names legacy_bets)
  /\ exists df,
       get_bets rowid_order legacy_db = Some df
       /\ frame_columns df
          = column_names legacy_bets
            ++ [ "team_a"; "team_b"; "bet_type"; "sport"; "is_parlay";
                 "parlay_legs" ]
       /\ length (frame_rows df) = size (rows legacy_bets).
Proof.
  split; [exact rowid_order_perm|]. split; [reflexivity|].
  split; [right; left; reflexivity|].
  destruct (get_bets_frame rowid_order rowid_order_perm legacy_db legacy_bets
              eq_refl (or_intror (or_introl eq_refl)))
    as (df & Hdf & Hcols & _ & _ & Hlen & _).
  exists df. split; [exact Hdf|]. split; [exact Hcols|exact Hlen].
Defined.

(** The legacy table read as a frame, before any migration: the six
    missing columns are filled in on the fly. *)
Example legacy_frame :
  get_bets rowid_order legacy_db
  = Some {| frame_columns :=
              [ "id"; "date"; "stake"; "odds"; "result"; "profit_loss"; "notes";
                "team_a"; "team_b"; "bet_type"; "sport"; "is_parlay";
                "parlay_legs" ];
            frame_rows :=
              [ [ SqlInt 1; SqlText "2023-05-01"; SqlReal 100; SqlReal 2;
                  SqlText "Win"; SqlReal 100; SqlText "";
                  SqlText ""; SqlText ""; SqlText ""; SqlText ""; SqlInt 0;
                  SqlText "" ] ] |}.
Proof. reflexivity. Qed.
